(** * Verification of [scripts/generate_publications.py]

    A shallow embedding of the publications-page generator of the BRAINS
    group web site, and the properties of its specification.

    Text is modelled as [string] (a sequence of 8-bit characters); the
    character classes [\w], [\s], [\d] and the methods [strip], [lower] and
    [title] are the ASCII ones.  Python dictionaries whose iteration order
    the script observes ([entries], [categories]) are association lists in
    insertion order; dictionaries that are only looked up ([fields],
    [categorized]) are [gmap]s.  A Python [set] is a list of distinct keys
    whose internal order is chosen by the per-process string hash. *)

From Stdlib Require Import Ascii String ZArith NArith List Lia Bool.
From Stdlib Require Import DecimalString DecimalPos Sorted Permutation.
From stdpp Require Import base gmap strings.

(** ** Characters and the string methods the script uses *)

Module Py.

Definition code (c : ascii) : N := N_of_ascii c.

Definition dquote : ascii := ascii_of_N 34.
Definition newline : ascii := ascii_of_N 10.

Definition between (lo hi : N) (c : ascii) : bool :=
  (N.leb lo (code c) && N.leb (code c) hi)%bool.

Definition isdigit : ascii -> bool := between 48 57.
Definition isupper : ascii -> bool := between 65 90.
Definition islower : ascii -> bool := between 97 122.
Definition isalpha (c : ascii) : bool := (isupper c || islower c)%bool.

(** [str.isspace] on one character: tab to carriage return, the four
    separators 0x1c-0x1f, and the space. *)
Definition isspace (c : ascii) : bool :=
  (between 9 13 c || between 28 32 c)%bool.

(** The class [\w]. *)
Definition isword (c : ascii) : bool :=
  (isalpha c || isdigit c || Ascii.eqb c "_")%bool.

Definition to_lower (c : ascii) : ascii :=
  if isupper c then ascii_of_N (code c + 32) else c.
Definition to_upper (c : ascii) : ascii :=
  if islower c then ascii_of_N (code c - 32) else c.

Fixpoint smap (f : ascii -> ascii) (s : string) : string :=
  match s with
  | EmptyString => EmptyString
  | String c r => String (f c) (smap f r)
  end.

(** [s.lower()] *)
Definition lower : string -> string := smap to_lower.

(** [s.title()]: a letter that follows a non-letter is upper-cased, every
    other letter is lower-cased. *)
Fixpoint title_from (prev_cased : bool) (s : string) : string :=
  match s with
  | EmptyString => EmptyString
  | String c r =>
      String (if prev_cased then to_lower c else to_upper c)
             (title_from (isalpha c) r)
  end.
Definition title : string -> string := title_from false.

(** [s.lstrip()], [s.rstrip()], [s.strip()] *)
Fixpoint lstrip (s : string) : string :=
  match s with
  | EmptyString => EmptyString
  | String c r => if isspace c then lstrip r else s
  end.

Fixpoint rstrip (s : string) : string :=
  match s with
  | EmptyString => EmptyString
  | String c r =>
      match rstrip r with
      | EmptyString => if isspace c then EmptyString else String c EmptyString
      | r' => String c r'
      end
  end.

Definition strip (s : string) : string := rstrip (lstrip s).

(** [sep.join(l)] *)
Definition join (sep : string) (l : list string) : string :=
  String.concat sep l.

(** [s.split(sep)] for a non-empty separator: the pieces between the
    occurrences of [sep], found from left to right without overlap.
    [split_from sep skip s] returns the piece under construction and the
    pieces after it; [skip] counts the characters of a separator occurrence
    still to be passed over. *)
Fixpoint split_from (sep : string) (skip : nat) (s : string)
  : string * list string :=
  match s with
  | EmptyString => (EmptyString, [])
  | String c r =>
      match skip with
      | S k => split_from sep k r
      | O =>
          if String.prefix sep s
          then let '(p, ps) := split_from sep (String.length sep - 1) r in
               (EmptyString, p :: ps)
          else let '(p, ps) := split_from sep 0 r in
               (String c p, ps)
      end
  end.

Definition split (sep s : string) : list string :=
  let '(p, ps) := split_from sep 0 s in p :: ps.

(** [int(s)] in base ten: surrounding white space, an optional sign, then
    digits, where single underscores may separate digits.  [None] stands
    for [ValueError]. *)
Fixpoint int_digits (acc : Z) (after_digit : bool) (s : string) : option Z :=
  match s with
  | EmptyString => if after_digit then Some acc else None
  | String c r =>
      if isdigit c
      then int_digits (10 * acc + (Z.of_N (code c) - 48))%Z true r
      else if (Ascii.eqb c "_" && after_digit)%bool
           then int_digits acc false r
           else None
  end.

(** CPython raises [ValueError] for a numeral of more than
    [sys.get_int_max_str_digits()] digits as well; the limit is 4300
    unless it is changed, and the script does not change it. *)
Fixpoint count_digits (s : string) : N :=
  match s with
  | EmptyString => 0%N
  | String c r => ((if isdigit c then 1 else 0) + count_digits r)%N
  end.

Definition max_str_digits : N := 4300.

Definition int (s : string) : option Z :=
  let s := strip s in
  if (max_str_digits <? count_digits s)%N then None
  else
    match s with
    | String "+" r => int_digits 0%Z false r
    | String "-" r => Z.opp <$> int_digits 0%Z false r
    | r => int_digits 0%Z false r
    end.

(** [str(n)] for an integer. *)
Definition str_of_int (n : Z) : string :=
  NilZero.string_of_int (Z.to_int n).

(** [x in s] for strings: substring test. *)
Fixpoint contains (s sub : string) : bool :=
  (String.prefix sub s ||
   match s with
   | EmptyString => false
   | String _ r => contains r sub
   end)%bool.

End Py.

(** ** Regular expressions

    The script uses Python's [re] with seven patterns.  They are written
    below as terms of [regex], and matched by a backtracking matcher with
    the priorities of [re]: the left alternative first, greedy repetition
    longest first, lazy repetition shortest first. *)

Module Re.

Inductive regex : Type :=
| Eps                                   (* the empty pattern *)
| Chr (p : ascii -> bool)               (* one character of a class *)
| Seq (r1 r2 : regex)
| Alt (r1 r2 : regex)                   (* r1|r2 *)
| Star (greedy : bool) (r : regex)      (* r* and r*? *)
| Group (n : nat) (r : regex)           (* capturing group number n *)
| Ahead (r : regex)                     (* (?=r) *)
| EndText                               (* \Z *)
| EndLine.                              (* $ under re.MULTILINE *)

Definition captures := list (nat * string).

Fixpoint group (n : nat) (c : captures) : string :=
  match c with
  | [] => EmptyString
  | (m, s) :: c' => if Nat.eqb n m then s else group n c'
  end.

(** The text consumed between the suffix [s] and its own suffix [s']. *)
Definition consumed (s s' : string) : string :=
  String.substring 0 (String.length s - String.length s') s.

(** [run r s c k]: match [r] at the start of [s] with captures [c], then
    hand the rest of the text to the continuation [k]; [None] makes the
    matcher backtrack. *)
Fixpoint run (r : regex) (s : string) (c : captures)
    (k : string -> captures -> option (string * captures))
  : option (string * captures) :=
  match r with
  | Eps => k s c
  | Chr p =>
      match s with
      | String a s' => if p a then k s' c else None
      | EmptyString => None
      end
  | Seq r1 r2 => run r1 s c (fun s' c' => run r2 s' c' k)
  | Alt r1 r2 =>
      match run r1 s c k with
      | Some x => Some x
      | None => run r2 s c k
      end
  | Star greedy r1 =>
      (* one unit of fuel per character: a turn must shorten the text, so
         the fuel lasts until the text is used up *)
      (fix loop (fuel : nat) (s : string) (c : captures) {struct fuel} :=
         match fuel with
         | O => k s c
         | S fuel' =>
             let again :=
               run r1 s c (fun s' c' =>
                 if Nat.ltb (String.length s') (String.length s)
                 then loop fuel' s' c' else None) in
             if greedy
             then match again with Some x => Some x | None => k s c end
             else match k s c with Some x => Some x | None => again end
         end) (String.length s) s c
  | Group n r1 =>
      run r1 s c (fun s' c' => k s' ((n, consumed s s') :: c'))
  | Ahead r1 =>
      match run r1 s c (fun s' c' => Some (s', c')) with
      | Some (_, c') => k s c'
      | None => None
      end
  | EndText =>
      match s with EmptyString => k s c | _ => None end
  | EndLine =>
      match s with
      | EmptyString => k s c
      | String a _ => if Ascii.eqb a Py.newline then k s c else None
      end
  end.

(** A match at the start of [s]: the number of characters matched and the
    captured groups. *)
Definition match_here (r : regex) (s : string) : option (nat * captures) :=
  match run r s [] (fun s' c' => Some (s', c')) with
  | Some (s', c') => Some (String.length s - String.length s', c')
  | None => None
  end.

Definition drop (n : nat) (s : string) : string :=
  String.substring n (String.length s - n) s.

(** [scan r s]: the text cut at the non-overlapping matches of [r], leftmost
    first: a list of unmatched stretches ([inl]) and matches ([inr]).  After
    a match the scan resumes behind it; an empty match lets one character
    through.  The fuel is the length of the text plus one, and every step
    shortens the text. *)
Fixpoint scan_fuel (fuel : nat) (r : regex) (s : string)
  : list (ascii + captures) :=
  match fuel with
  | O => []
  | S fuel' =>
      match match_here r s with
      | Some (S n, c) => inr c :: scan_fuel fuel' r (drop (S n) s)
      | Some (O, c) =>
          inr c :: match s with
                   | EmptyString => []
                   | String a s' => inl a :: scan_fuel fuel' r s'
                   end
      | None =>
          match s with
          | EmptyString => []
          | String a s' => inl a :: scan_fuel fuel' r s'
          end
      end
  end.

Definition scan (r : regex) (s : string) : list (ascii + captures) :=
  scan_fuel (S (String.length s)) r s.

(** [re.finditer(r, s)]: the captures of each match, in order. *)
Definition finditer (r : regex) (s : string) : list captures :=
  omap (fun x => match x with inr c => Some c | inl _ => None end) (scan r s).

(** [re.sub(r, repl, s)] where [repl] computes the replacement of a match
    from its groups. *)
Fixpoint sub_pieces (repl : captures -> string) (l : list (ascii + captures))
  : string :=
  match l with
  | [] => EmptyString
  | inl a :: l' => String a (sub_pieces repl l')
  | inr c :: l' => repl c +:+ sub_pieces repl l'
  end.

Definition sub (r : regex) (repl : captures -> string) (s : string) : string :=
  sub_pieces repl (scan r s).

(** Pattern-building shorthands. *)
Fixpoint lit (s : string) : regex :=
  match s with
  | EmptyString => Eps
  | String a s' => Seq (Chr (Ascii.eqb a)) (lit s')
  end.

Definition seqs (l : list regex) : regex := foldr Seq Eps l.
Definition star (r : regex) : regex := Star true r.
Definition plus (r : regex) : regex := Seq r (Star true r).
Definition none_of (s : string) : regex :=
  Chr (fun a => negb (Py.contains s (String a EmptyString))).

End Re.

(** ** Dictionaries in insertion order

    [d[k] = v] replaces the value of a key that is present, where it stands,
    and appends a key that is new; [items()] is the list itself. *)

Module ODict.
Section Defs.
Context {V : Type}.

Fixpoint get (k : string) (d : list (string * V)) : option V :=
  match d with
  | [] => None
  | (k', v) :: d' => if String.eqb k k' then Some v else get k d'
  end.

Fixpoint set (k : string) (v : V) (d : list (string * V)) : list (string * V) :=
  match d with
  | [] => [(k, v)]
  | (k', v') :: d' =>
      if String.eqb k k' then (k', v) :: d' else (k', v') :: set k v d'
  end.

Definition keys (d : list (string * V)) : list string := map fst d.

End Defs.
End ODict.

(** ** Sets of strings

    A Python [set] of strings is a hash table; the order in which it holds
    its keys depends on the string hash, which is seeded anew in every
    process.  [slot x s] is the place the table gives to the new key [x]
    among the keys [s] it holds. *)

Module PySet.
Section Defs.
Variable slot : string -> list string -> nat.

Definition mem (x : string) (s : list string) : bool :=
  existsb (String.eqb x) s.

Fixpoint insert_at (n : nat) (x : string) (s : list string) {struct s}
  : list string :=
  match s with
  | [] => [x]
  | y :: s' =>
      match n with
      | O => x :: s
      | S n' => y :: insert_at n' x s'
      end
  end.

Definition add (x : string) (s : list string) : list string :=
  if mem x s then s else insert_at (slot x s) x s.

(** [s.update(xs)] *)
Definition update (xs : list string) (s : list string) : list string :=
  fold_left (fun s x => add x s) xs s.

End Defs.
End PySet.

(** ** The script *)

Record Entry : Type := mkEntry {
  e_type : string;
  e_key : string;
  e_year : Z;
  e_fields : gmap string string
}.

(** The patterns of the script. *)
Module Pat.
Import Re.

(** [\\addtocategory\{(\w+)\}\s*\{([^}]+)\}] *)
Definition addtocategory : regex :=
  seqs [lit "\addtocategory{"; Group 1 (plus (Chr Py.isword)); lit "}";
        star (Chr Py.isspace);
        lit "{"; Group 2 (plus (none_of "}")); lit "}"].

(** [%.*$] with [re.MULTILINE]; the dot matches all but the newline. *)
Definition comment : regex :=
  seqs [lit "%"; star (Chr (fun a => negb (Ascii.eqb a Py.newline))); EndLine].

(** [@(\w+)\{([^,]+),([^@]*?)(?=@|\Z)] *)
Definition entry_pattern : regex :=
  seqs [lit "@"; Group 1 (plus (Chr Py.isword)); lit "{";
        Group 2 (plus (none_of ",")); lit ",";
        Group 3 (Star false (none_of "@"));
        Ahead (Alt (lit "@") EndText)].

(** [(\w+)\s*=\s*] *)
Definition field_head : list regex :=
  [Group 1 (plus (Chr Py.isword)); star (Chr Py.isspace); lit "=";
   star (Chr Py.isspace)].

(** [(\w+)\s*=\s*\{([^{}]* (?:\{[^{}]*\}[^{}]* )* )\}], the blanks before
    the closing parentheses being no part of the pattern *)
Definition field_braced : regex :=
  seqs (field_head ++
        [lit "{";
         Group 2 (seqs [star (none_of "{}");
                        star (seqs [lit "{"; star (none_of "{}"); lit "}";
                                    star (none_of "{}")])]);
         lit "}"]).

(** [(\w+)\s*=\s*Q([^Q]* )Q], where Q is the double quote character and
    the blank is no part of the pattern *)
Definition field_quoted : regex :=
  seqs (field_head ++
        [Chr (Ascii.eqb Py.dquote);
         Group 2 (star (Chr (fun a => negb (Ascii.eqb a Py.dquote))));
         Chr (Ascii.eqb Py.dquote)]).

(** [(\w+)\s*=\s*(\d+)] *)
Definition field_number : regex :=
  seqs (field_head ++ [Group 2 (plus (Chr Py.isdigit))]).

Definition field_patterns : list regex :=
  [field_braced; field_quoted; field_number].

(** [\{([^}]+)\}] *)
Definition braces : regex :=
  seqs [lit "{"; Group 1 (plus (none_of "}")); lit "}"].

(** [re.sub(r'\{([^}]+)\}', r'\1', s)] *)
Definition unbrace (s : string) : string := sub braces (group 1) s.

End Pat.

Definition nonempty (s : string) : bool :=
  match s with EmptyString => false | _ => true end.

(** [CATEGORY_NAMES] *)
Definition CATEGORY_NAMES : gmap string string :=
  list_to_map
    [("thesis", "Theses"); ("books", "Books"); ("chapters", "Book Chapters");
     ("journals", "Journal Articles"); ("magazines", "Magazine Articles");
     ("conferences", "Conference Papers"); ("workshops", "Workshop Papers");
     ("posters", "Poster Papers"); ("demos", "Demo Papers");
     ("techreports", "Technical Reports"); ("patents", "Patents")].

(** [category_order], local to [generate_publications_page]. *)
Definition category_order : list string :=
  ["books"; "chapters"; "journals"; "conferences"; "workshops";
   "techreports"; "posters"; "demos"; "thesis"; "magazines"; "patents"].

(** The year of a field mapping, in both parsing modes:
    [year = fields.get('year', '').strip()], then [int(year) if year else 0],
    with 0 on [ValueError]. *)
Definition year_of (fields : gmap string string) : Z :=
  let year := Py.strip (default EmptyString (fields !! "year")) in
  if nonempty year then default 0%Z (Py.int year) else 0%Z.

(** The tail of both parsing loops: only publications from 2022 onwards are
    stored, under their key. *)
Definition add_entry (entries : list (string * Entry))
    (entry_type entry_key : string) (fields : gmap string string)
  : list (string * Entry) :=
  let year_int := year_of fields in
  if (2022 <=? year_int)%Z
  then ODict.set entry_key (mkEntry entry_type entry_key year_int fields) entries
  else entries.

(** Fallback mode: the field mapping of one entry body.  Each pattern in
    turn is searched through the whole body, and a later match of a name
    overwrites an earlier one. *)
Definition parse_fields (fields_str : string) : gmap string string :=
  fold_left
    (fun fields pattern =>
       fold_left
         (fun fields field_match =>
            let field_name := Py.lower (Re.group 1 field_match) in
            let field_value := Pat.unbrace (Re.group 2 field_match) in
            <[field_name := Py.strip field_value]> fields)
         (Re.finditer pattern fields_str) fields)
    Pat.field_patterns ∅.

(** Fallback mode: the entry records of a bibliography text, as type, key
    and field mapping, in the order of the text. *)
Definition fallback_records (content : string)
  : list (string * string * gmap string string) :=
  let content := Re.sub Pat.comment (fun _ => EmptyString) content in
  map (fun m => (Py.lower (Re.group 1 m), Py.strip (Re.group 2 m),
                 parse_fields (Re.group 3 m)))
      (Re.finditer Pat.entry_pattern content).

(** Robust mode: the record of one entry of [bib_database.entries]; the
    field mapping is the library's entry itself. *)
Definition robust_record (entry : gmap string string)
  : string * string * gmap string string :=
  (Py.lower (default EmptyString (entry !! "ENTRYTYPE")),
   default EmptyString (entry !! "ID"), entry).

Definition add_records (records : list (string * string * gmap string string))
  : list (string * Entry) :=
  fold_left (fun entries '(entry_type, entry_key, fields) =>
               add_entry entries entry_type entry_key fields)
            records [].

Section Script.

(** What one run does not fix by its input files: the placement of keys in
    sets, whether the [bibtexparser] library is installed and what its
    [load] returns as [bib_database.entries] (after [convert_to_unicode]). *)
Variable slot : string -> list string -> nat.
Variable HAS_BIBTEXPARSER : bool.
Variable bibtexparser_load : string -> list (gmap string string).

(** [parse_bib_entries_sty]: the lines printed and the category index.  The
    file is [None] when it does not exist. *)
Definition parse_bib_entries_sty (file_path : string) (file : option string)
  : list string * list (string * list string) :=
  match file with
  | None => (["Warning: " +:+ file_path +:+ " not found"], [])
  | Some content =>
      ([], fold_left
             (fun categories m =>
                let category := Re.group 1 m in
                let entries_str := Re.group 2 m in
                let entries :=
                  List.filter nonempty
                              (map Py.strip (Py.split "," entries_str)) in
                ODict.set category
                  (PySet.update slot entries
                     (default [] (ODict.get category categories)))
                  categories)
             (Re.finditer Pat.addtocategory content) [])
  end.

(** The records of a bibliography text in the mode of this run. *)
Definition bib_records (content : string)
  : list (string * string * gmap string string) :=
  if HAS_BIBTEXPARSER
  then map robust_record (bibtexparser_load content)
  else fallback_records content.

(** [parse_bibtex]: the lines printed and the entries. *)
Definition parse_bibtex (file_path : string) (file : option string)
  : list string * list (string * Entry) :=
  match file with
  | None => (["Warning: " +:+ file_path +:+ " not found"], [])
  | Some content => ([], add_records (bib_records content))
  end.

End Script.

(** [format_authors] *)
Definition format_authors (authors_str : string) : string :=
  if nonempty authors_str then
    let authors := map Py.strip (Py.split " and " authors_str) in
    if (length authors =? 1)%nat then nth 0 authors EmptyString
    else if (length authors =? 2)%nat then
      nth 0 authors EmptyString +:+ " and " +:+ nth 1 authors EmptyString
    else if (length authors <=? 4)%nat then
      Py.join ", " (removelast authors) +:+ ", and " +:+ List.last authors EmptyString
    else Py.join ", " (take 3 authors) +:+ ", et al."
  else EmptyString.

Definition field (name : string) (fields : gmap string string) : string :=
  default EmptyString (fields !! name).

(** The venue segment of [format_publication], if any. *)
Definition venue (entry_type : string) (fields : gmap string string)
  : list string :=
  if String.eqb entry_type "inproceedings" then
    let booktitle := Py.strip (field "booktitle" fields) in
    if nonempty booktitle then ["In " +:+ booktitle] else []
  else if String.eqb entry_type "article" then
    let journal := Py.strip (field "journal" fields) in
    if nonempty journal then ["In *" +:+ journal +:+ "*"] else []
  else if (String.eqb entry_type "inbook" || String.eqb entry_type "incollection")%bool then
    let booktitle := Py.strip (field "booktitle" fields) in
    if nonempty booktitle then ["In " +:+ booktitle] else []
  else [].

(** The [links] of [format_publication]. *)
Definition links (fields : gmap string string) : list string :=
  match fields !! "url" with
  | Some url => ["[PDF](" +:+ Py.strip url +:+ ")"]
  | None => []
  end ++
  match fields !! "doi" with
  | Some doi => ["[DOI](https://doi.org/" +:+ Py.strip doi +:+ ")"]
  | None => []
  end.

(** [format_publication]; the category is not used. *)
Definition format_publication (entry : Entry) (category : string) : string :=
  let fields := e_fields entry in
  let title := Pat.unbrace (Py.strip (field "title" fields)) in
  let authors := format_authors (field "author" fields) in
  let citation_parts :=
    (if nonempty authors then ["**" +:+ authors +:+ "**"] else []) ++
    (if nonempty title then ["*" +:+ title +:+ "*"] else []) ++
    venue (e_type entry) fields ++
    ["(" +:+ Py.str_of_int (e_year entry) +:+ ")"] in
  let citation := Py.join ". " citation_parts in
  let citation :=
    match links fields with
    | [] => citation
    | ls => citation +:+ " " +:+ Py.join " | " ls
    end in
  "- " +:+ citation.

(** The inner loop of [generate_publications_page]: the first category, in
    the iteration order of [categories], whose key set holds the key. *)
Fixpoint find_category (key : string) (categories : list (string * list string))
  : option string :=
  match categories with
  | [] => None
  | (cat, keys) :: rest =>
      if PySet.mem key keys then Some cat else find_category key rest
  end.

(** One turn of the outer loop. *)
Definition place (categories : list (string * list string))
    (acc : gmap string (list Entry) * list Entry) (item : string * Entry)
  : gmap string (list Entry) * list Entry :=
  let '(categorized, uncategorized) := acc in
  let '(key, entry) := item in
  match find_category key categories with
  | Some cat =>
      (<[cat := default [] (categorized !! cat) ++ [entry]]> categorized,
       uncategorized)
  | None => (categorized, uncategorized ++ [entry])
  end.

(** "Organize entries by category": [categorized] and [uncategorized]. *)
Definition organize (entries : list (string * Entry))
    (categories : list (string * list string))
  : gmap string (list Entry) * list Entry :=
  fold_left (place categories) entries (∅, []).

(** [l.sort(key=lambda x: x['year'], reverse=True)] and the same call of
    [sorted]: Python's sort is stable, also when reversed, so an entry goes
    behind the entries of a greater or equal year that precede it. *)
Fixpoint insert_by_year (e : Entry) (l : list Entry) : list Entry :=
  match l with
  | [] => [e]
  | x :: l' =>
      if (e_year e <? e_year x)%Z then x :: insert_by_year e l' else e :: l
  end.

Definition sort_by_year (l : list Entry) : list Entry :=
  foldr insert_by_year [] l.

Definition header_lines : list string :=
  ["---";
   "title: " +:+ String Py.dquote "Publications" +:+ String Py.dquote "";
   "---";
   "";
   "```{=html}";
   "<div style='margin: 2rem 0;'>";
   "<input type='text' id='pubSearch' placeholder='Search publications...' ";
   "       style='width: 100%; padding: 0.75rem; font-size: 1rem; border: 2px solid #ddd; border-radius: 8px;' />";
   "</div>";
   "```";
   "";
   "```{=html}";
   "<div id='publications-container'>";
   "```";
   ""].

Definition footer_lines : list string :=
  ["```{=html}";
   "</div>";
   "```";
   "";
   "```{=html}";
   "<script>";
   "document.addEventListener('DOMContentLoaded', function() {";
   "  const searchInput = document.getElementById('pubSearch');";
   "  const categories = document.querySelectorAll('.pub-category');";
   "";
   "  searchInput.addEventListener('input', function(e) {";
   "    const searchTerm = e.target.value.toLowerCase();";
   "";
   "    categories.forEach(category => {";
   "      const items = category.querySelectorAll('li');";
   "      let hasVisible = false;";
   "";
   "      items.forEach(item => {";
   "        const text = item.textContent.toLowerCase();";
   "        if (text.includes(searchTerm)) {";
   "          item.style.display = '';";
   "          hasVisible = true;";
   "        } else {";
   "          item.style.display = 'none';";
   "        }";
   "      });";
   "";
   "      // Hide category if no visible items";
   "      const categoryHeading = category.previousElementSibling;";
   "      if (categoryHeading && categoryHeading.tagName === 'H3') {";
   "        if (hasVisible || searchTerm === '') {";
   "          categoryHeading.style.display = '';";
   "          category.style.display = '';";
   "        } else {";
   "          categoryHeading.style.display = 'none';";
   "          category.style.display = 'none';";
   "        }";
   "      }";
   "    });";
   "  });";
   "});";
   "</script>";
   "```"].

(** The lines of one section: heading, opening of the wrapper, one item and
    one blank line per entry, closing of the wrapper. *)
Definition section_lines (heading cat : string) (bucket : list Entry)
  : list string :=
  ["### " +:+ heading;
   "";
   "```{=html}";
   "<div class='pub-category' data-category='" +:+ cat +:+ "'>";
   "```";
   ""] ++
  flat_map (fun entry => [format_publication entry cat; ""]) bucket ++
  ["```{=html}";
   "</div>";
   "```";
   ""].

(** The sections the two rendering loops emit, each with its heading, its
    tag and its entries: for every [cat] of [category_order] with
    [cat in categorized and categorized[cat]] the sorted bucket of [cat],
    then, [if uncategorized], the sorted uncategorized entries. *)
Definition category_section (categorized : gmap string (list Entry))
    (cat : string) : option (string * string * list Entry) :=
  match categorized !! cat with
  | Some (e :: l) =>
      Some (default (Py.title cat) (CATEGORY_NAMES !! cat), cat, e :: l)
  | _ => None
  end.

Definition other_section (uncategorized : list Entry)
  : list (string * string * list Entry) :=
  match uncategorized with
  | [] => []
  | _ => [("Other Publications", "other", sort_by_year uncategorized)]
  end.

Definition sections (entries : list (string * Entry))
    (categories : list (string * list string))
  : list (string * string * list Entry) :=
  let '(categorized, uncategorized) := organize entries categories in
  let categorized := sort_by_year <$> categorized in
  omap (category_section categorized) category_order ++
  other_section uncategorized.

(** The list [lines] at the end of [generate_publications_page]. *)
Definition page_lines (entries : list (string * Entry))
    (categories : list (string * list string)) : list string :=
  header_lines ++
  flat_map (fun '(heading, cat, bucket) => section_lines heading cat bucket)
           (sections entries categories) ++
  footer_lines.

(** [generate_publications_page] *)
Definition generate_publications_page (entries : list (string * Entry))
    (categories : list (string * list string)) : string :=
  Py.join (String Py.newline "") (page_lines entries categories).

Section Main.

Variable slot : string -> list string -> nat.
Variable HAS_BIBTEXPARSER : bool.
Variable bibtexparser_load : string -> list (gmap string string).
Variables BIB_FILE CATEGORIES_FILE OUTPUT_FILE : string.

(** [main], on a file system that maps the paths of the existing files to
    their text: the lines printed and the file system afterwards.  A failing
    write is not modelled. *)
Definition main (fs : gmap string string) : list string * gmap string string :=
  let '(warn1, categories) :=
    parse_bib_entries_sty slot CATEGORIES_FILE (fs !! CATEGORIES_FILE) in
  let '(warn2, entries) :=
    parse_bibtex HAS_BIBTEXPARSER bibtexparser_load BIB_FILE (fs !! BIB_FILE) in
  let content := generate_publications_page entries categories in
  (["Parsing bibliography files..."] ++ warn1 ++ warn2 ++
   ["Found " +:+ Py.str_of_int (Z.of_nat (length entries)) +:+
      " publications from 2022 onwards";
    "Found " +:+ Py.str_of_int (Z.of_nat (length categories)) +:+ " categories";
    "Generating publications page...";
    "Generated " +:+ OUTPUT_FILE;
    "Done! You can now render the site with 'quarto render'"],
   <[OUTPUT_FILE := content]> fs).

End Main.

(** * The vocabulary of the properties, and sample inputs *)

(** Whether every character of the text is of the class. *)
Fixpoint all_chars (p : ascii -> bool) (s : string) : bool :=
  match s with
  | EmptyString => true
  | String a r => (p a && all_chars p r)%bool
  end.

(** The text does not begin, and does not end, with white space. *)
Definition starts_clean (s : string) : bool :=
  match s with
  | EmptyString => true
  | String c _ => negb (Py.isspace c)
  end.

Fixpoint ends_clean (s : string) : bool :=
  match s with
  | EmptyString => true
  | String c EmptyString => negb (Py.isspace c)
  | String _ r => ends_clean r
  end.

(** [name] is [piece] without the white space at its two ends. *)
Definition stripped_of (piece name : string) : Prop :=
  exists l r,
    piece = l +:+ name +:+ r /\
    all_chars Py.isspace l = true /\ all_chars Py.isspace r = true /\
    starts_clean name = true /\ ends_clean name = true.

(** Two sets with the same keys, however placed. *)
Definition same_keys (s1 s2 : list string) : Prop :=
  forall x, In x s1 <-> In x s2.

(** Years never increase along the list. *)
Definition descending (l : list Entry) : Prop :=
  StronglySorted (fun a b => (e_year b <= e_year a)%Z) l.

(** The entries of one year, in the order of the list. *)
Definition of_year (y : Z) (l : list Entry) : list Entry :=
  List.filter (fun e => (e_year e =? y)%Z) l.

(** The entries, in the order of [entries.items()], whose key the category
    scan sends to [target]; [None] is "no category". *)
Definition encounter (categories : list (string * list string))
    (target : option string) (entries : list (string * Entry)) : list Entry :=
  map snd
    (List.filter
       (fun item => bool_decide (find_category (fst item) categories = target))
       entries).

(** The section of a sorted bucket, if the bucket is not empty. *)
Definition section_of (heading cat : string) (bucket : list Entry)
  : option (string * string * list Entry) :=
  match bucket with
  | [] => None
  | _ => Some (heading, cat, sort_by_year bucket)
  end.

(** The reading of the specification: the first category of the fixed
    display order whose key set, in the index, holds the key. *)
Definition first_in_priority_order (key : string)
    (categories : list (string * list string)) : option string :=
  List.find
    (fun cat => PySet.mem key (default [] (ODict.get cat categories)))
    category_order.

(** A categorization file that names [journals] before [books], and a
    bibliography with one entry of both categories. *)
Module Overlap.
Definition sty : string :=
  "\addtocategory{journals}{k}" +:+ String Py.newline
  "\addtocategory{books}{k}".
Definition bib : string := "@book{k, title={T}, year={2023}}".
Definition categories : list (string * list string) :=
  (parse_bib_entries_sty (fun _ _ => 0%nat) "bib-entries.sty" (Some sty)).2.
Definition entries : list (string * Entry) :=
  (parse_bibtex false (fun _ => []) "citations.bib" (Some bib)).2.
End Overlap.

(** The entry both parsing loops build from a record. *)
Definition entry_of_record (r : string * string * gmap string string) : Entry :=
  mkEntry r.1.1 r.1.2 (year_of r.2) r.2.

(** The records that can reach the mapping under [key]. *)
Definition qualifying (key : string) (r : string * string * gmap string string)
  : bool :=
  (String.eqb r.1.2 key && (2022 <=? year_of r.2)%Z)%bool.

(** A bibliography of one entry of 2021 and one of 2022. *)
Module Recency.
Definition bib : string :=
  "@article{old, title={Then}, year={2021}}" +:+ String Py.newline
  "@article{new, title={Now}, year={2022}}".
End Recency.

(** The reading of the specification: whenever a key has records, its entry
    in the mapping is built from the last of them. *)
Definition last_record_wins
    (records : list (string * string * gmap string string)) : Prop :=
  forall key r,
    last (List.filter (fun r => String.eqb r.1.2 key) records) = Some r ->
    ODict.get key (add_records records) = Some (entry_of_record r).

(** A bibliography in which the key [k] occurs twice, the later record
    being of 2020. *)
Module Duplicate.
Definition bib : string :=
  "@article{k, title={First}, year={2023}}" +:+ String Py.newline
  "@article{k, title={Second}, year={2020}}".
Definition records : list (string * string * gmap string string) :=
  fallback_records bib.
End Duplicate.



(** The scenario of the specification: one article of 2023, filed under
    [journals]; the doi is written in braces. *)
Module Scenario.
Definition bib : string :=
  "@article{foo2023," +:+ String Py.newline
  "  year=2023," +:+ String Py.newline
  "  author={Jane Doe}," +:+ String Py.newline
  "  title={A Great Paper}," +:+ String Py.newline
  "  journal={Journal of Tests}," +:+ String Py.newline
  "  doi={10.1/xyz}" +:+ String Py.newline
  "}".
Definition sty : string := "\addtocategory{journals}{foo2023}".
Definition fields : gmap string string :=
  {[ "year" := "2023"; "author" := "Jane Doe"; "title" := "A Great Paper";
     "journal" := "Journal of Tests"; "doi" := "10.1/xyz" ]}.
Definition entry : Entry := mkEntry "article" "foo2023" 2023 fields.
Definition item : string :=
  "- **Jane Doe**. *A Great Paper*. In *Journal of Tests*. (2023) [DOI](https://doi.org/10.1/xyz)".
(** The bibliography as the specification writes it, the doi bare as the
    year is, and the item the page then has. *)
Definition bib_as_stated : string :=
  "@article{foo2023," +:+ String Py.newline
  "  year=2023," +:+ String Py.newline
  "  author={Jane Doe}," +:+ String Py.newline
  "  title={A Great Paper}," +:+ String Py.newline
  "  journal={Journal of Tests}," +:+ String Py.newline
  "  doi=10.1/xyz" +:+ String Py.newline
  "}".
Definition item_as_read : string :=
  "- **Jane Doe**. *A Great Paper*. In *Journal of Tests*. (2023) [DOI](https://doi.org/10)".
End Scenario.

(** A category outside the display order. *)
Module Unlisted.
Definition sty : string := "\addtocategory{misc}{k}".
Definition bib : string := "@misc{k, title={T}, year={2023}}".
Definition categories : list (string * list string) :=
  (parse_bib_entries_sty (fun _ _ => 0%nat) "bib-entries.sty" (Some sty)).2.
Definition entries : list (string * Entry) :=
  (parse_bibtex false (fun _ => []) "citations.bib" (Some bib)).2.
Definition entry : Entry :=
  mkEntry "misc" "k" 2023 {[ "title" := "T"; "year" := "2023" ]}.
End Unlisted.

(** The text behind the first [n] characters. *)
Fixpoint behind (n : nat) (s : string) : string :=
  match n, s with
  | S k, String _ r => behind k r
  | _, _ => s
  end.

(** The entry with another type tag. *)
Definition with_type (entry_type : string) (entry : Entry) : Entry :=
  mkEntry entry_type (e_key entry) (e_year entry) (e_fields entry).

(** The types that have a venue segment, with the field it is read from. *)
Definition venue_field (entry_type : string) : option string :=
  if String.eqb entry_type "inproceedings" then Some "booktitle"
  else if String.eqb entry_type "article" then Some "journal"
  else if (String.eqb entry_type "inbook" || String.eqb entry_type "incollection")%bool
       then Some "booktitle"
  else None.

(** An entry whose [url] and [journal] fields are empty. *)
Module EmptyFields.
Definition entry : Entry :=
  mkEntry "article" "k" 2023
    {[ "title" := "T"; "url" := ""; "journal" := "  "; "year" := "2023" ]}.
End EmptyFields.

(** What [bibtexparser] hands over for the entry of the scenario: the fields
    and the two standard keys. *)
Definition scenario_library_entry : gmap string string :=
  <["ID" := "foo2023"]> (<["ENTRYTYPE" := "article"]> Scenario.fields).

Definition scenario_section : list string :=
  ["### Journal Articles";
   "";
   "```{=html}";
   "<div class='pub-category' data-category='journals'>";
   "```";
   "";
   Scenario.item;
   "";
   "```{=html}";
   "</div>";
   "```";
   ""].

(** Three uncategorized entries, of 2022, 2023 and 2022. *)
Module Ties.
Definition bib : string :=
  "@misc{a, title={A}, year={2022}}" +:+ String Py.newline
  "@misc{b, title={B}, year={2023}}" +:+ String Py.newline
  "@misc{c, title={C}, year={2022}}".
Definition entries : list (string * Entry) :=
  (parse_bibtex false (fun _ => []) "citations.bib" (Some bib)).2.
End Ties.

(** Two category indexes with the same categories in the same order and the
    same keys in each, however placed. *)
Definition same_index (c1 c2 : list (string * list string)) : Prop :=
  Forall2 (fun a b => a.1 = b.1 /\ same_keys a.2 b.2) c1 c2.

(** A categorization file with several keys in one set, so that two
    placements give two different tables. *)
Module Seeds.
Definition sty : string := "\addtocategory{journals}{a, b, c}".
Definition fs : gmap string string :=
  {[ "citations.bib" := Ties.bib; "bib-entries.sty" := sty ]}.
Definition front (x : string) (s : list string) : nat := 0.
Definition back (x : string) (s : list string) : nat := length s.
End Seeds.

(** * More of the script, and the vocabulary of the further properties *)

(** [text[i]] for an integer [i]: an index below zero counts from the end
    of the text; [None] stands for [IndexError]. *)
Definition py_index (text : string) (i : Z) : option ascii :=
  let n := Z.of_nat (String.length text) in
  if (i <? 0)%Z
  then if (i + n <? 0)%Z then None else String.get (Z.to_nat (i + n)) text
  else String.get (Z.to_nat i) text.

(** [text[i:j]]: a bound below zero counts from the end, and both bounds
    are brought into the text. *)
Definition py_slice_bound (n i : Z) : Z :=
  if (i <? 0)%Z then Z.max 0 (i + n) else Z.min i n.

Definition py_slice (text : string) (i j : Z) : string :=
  let n := Z.of_nat (String.length text) in
  let a := py_slice_bound n i in
  let b := py_slice_bound n j in
  String.substring (Z.to_nat a) (Z.to_nat (b - a)) text.

(** The [while] loop of [extract_braced_content], which runs while
    [pos < len(text) and depth > 0]: the depth and the position when it
    ends.  [fuel] is the number of positions from [pos] to the end of the
    text. *)
Fixpoint brace_loop (text : string) (fuel : nat) (pos : Z) (depth : nat)
  : option (nat * Z) :=
  match depth, fuel with
  | O, _ => Some (O, pos)
  | _, O => Some (depth, pos)
  | S below, S fuel' =>
      match py_index text pos with
      | None => None
      | Some a =>
          let depth' :=
            if Ascii.eqb a "{" then S depth
            else if Ascii.eqb a "}" then below
            else depth in
          brace_loop text fuel' (pos + 1) depth'
      end
  end.

(** [extract_braced_content]: the content, or [None], and a position; the
    outer [None] stands for [IndexError], which a start position below
    [-len(text)] raises. *)
Definition extract_braced_content (text : string) (start_pos : Z)
  : option (option string * Z) :=
  let n := Z.of_nat (String.length text) in
  if (n <=? start_pos)%Z then Some (None, start_pos)
  else
    match py_index text start_pos with
    | None => None
    | Some a =>
        if negb (Ascii.eqb a "{") then Some (None, start_pos)
        else
          let pos := (start_pos + 1)%Z in
          let content_start := pos in
          match brace_loop text (Z.to_nat (n - pos)) pos 1 with
          | None => None
          | Some (depth, pos) =>
              if Nat.eqb depth 0
              then Some (Some (py_slice text content_start (pos - 1)), pos)
              else Some (None, start_pos)
          end
    end.

(** The loop on the text that is left: the depth when it ends and the
    number of characters passed. *)
Fixpoint brace_scan (rest : string) (depth : nat) : nat * nat :=
  match depth with
  | O => (O, O)
  | S below =>
      match rest with
      | EmptyString => (depth, O)
      | String a rest' =>
          let depth' :=
            if Ascii.eqb a "{" then S depth
            else if Ascii.eqb a "}" then below
            else depth in
          let '(final, passed) := brace_scan rest' depth' in
          (final, S passed)
      end
  end.

(** Braces that match: read from the left at nesting [depth], no closing
    brace comes without its opening one, and none stays open. *)
Fixpoint balanced_from (depth : nat) (s : string) : bool :=
  match s with
  | EmptyString => Nat.eqb depth 0
  | String a s' =>
      if Ascii.eqb a "{" then balanced_from (S depth) s'
      else if Ascii.eqb a "}" then
        match depth with
        | O => false
        | S below => balanced_from below s'
        end
      else balanced_from depth s'
  end.

Definition balanced : string -> bool := balanced_from 0.

(** Whether the category scan sends a key to a section of the page: to no
    category, or to one of the display order. *)
Definition shown (categories : list (string * list string)) (key : string)
  : bool :=
  match find_category key categories with
  | None => true
  | Some cat => existsb (String.eqb cat) category_order
  end.

(** The entries of all sections, in the order of the page. *)
Definition rendered_entries (entries : list (string * Entry))
    (categories : list (string * list string)) : list Entry :=
  flat_map (fun s => s.2) (sections entries categories).

(** The tags of the sections, in the order of the page. *)
Definition section_tags (entries : list (string * Entry))
    (categories : list (string * list string)) : list string :=
  map (fun s => s.1.2) (sections entries categories).

(** The directives of a categorization text, in the order of the text: the
    category of each match of the pattern and its keys, stripped, the empty
    ones left out. *)
Definition directives (content : string) : list (string * list string) :=
  map (fun m => (Re.group 1 m,
                 List.filter nonempty
                   (map Py.strip (Py.split "," (Re.group 2 m)))))
      (Re.finditer Pat.addtocategory content).

(** One turn of the loop of [parse_bib_entries_sty]. *)
Definition index_step (slot : string -> list string -> nat)
    (categories : list (string * list string)) (d : string * list string)
  : list (string * list string) :=
  ODict.set d.1
    (PySet.update slot d.2 (default [] (ODict.get d.1 categories)))
    categories.

(** Whether the character occurs in the text. *)
Fixpoint has_char (ch : ascii) (s : string) : bool :=
  match s with
  | EmptyString => false
  | String a r => (Ascii.eqb a ch || has_char ch r)%bool
  end.

(** A key as the index holds it: not empty, no white space around it, no
    comma in it. *)
Definition clean_key (k : string) : Prop :=
  k <> "" /\ Py.strip k = k /\ has_char "," k = false.

(** The characters of a text, as a scan that finds no match reports them. *)
Fixpoint unmatched (s : string) : list (ascii + Re.captures) :=
  match s with
  | EmptyString => []
  | String a r => inl a :: unmatched r
  end.

(** A pattern that cannot match a text unless the text begins with [ch]. *)
Definition begins_with (ch : ascii) (r : Re.regex) : Prop :=
  forall s, Re.match_here r s <> None ->
            exists s', s = String ch s'.

(** The loop of [Re.run] for a repetition. *)
Definition star_loop (greedy : bool)
    (step : string -> Re.captures ->
            (string -> Re.captures -> option (string * Re.captures)) ->
            option (string * Re.captures))
    (k : string -> Re.captures -> option (string * Re.captures))
  : nat -> string -> Re.captures -> option (string * Re.captures) :=
  fix loop (fuel : nat) (s : string) (c : Re.captures) {struct fuel} :=
    match fuel with
    | O => k s c
    | S fuel' =>
        let again :=
          step s c (fun s' c' =>
            if Nat.ltb (String.length s') (String.length s)
            then loop fuel' s' c' else None) in
        if greedy
        then match again with Some x => Some x | None => k s c end
        else match k s c with Some x => Some x | None => again end
    end.

(** The text is over, or goes on with a character outside the class. *)
Definition stops (p : ascii -> bool) (t : string) : bool :=
  match t with
  | EmptyString => true
  | String a _ => negb (p a)
  end.

(** A directive as it is written: the category, the white space between
    the two braced groups, and the text of the keys. *)
Definition directive_text (d : string * string * string) : string :=
  "\addtocategory{" +:+ d.1.1 +:+ "}" +:+ d.1.2 +:+ "{" +:+ d.2 +:+ "}".

Definition directive_ok (d : string * string * string) : bool :=
  (all_chars Py.isword d.1.1 && nonempty d.1.1 &&
   all_chars Py.isspace d.1.2 &&
   negb (has_char "}" d.2) && nonempty d.2)%bool.

(** A categorization text: directives, each after a stretch of other text,
    and other text at the end. *)
Fixpoint sty_text (items : list (string * (string * string * string)))
    (tail : string) : string :=
  match items with
  | [] => tail
  | (junk, d) :: items' => junk +:+ directive_text d +:+ sty_text items' tail
  end.

(** The keys a directive lists. *)
Definition listed_keys (body : string) : list string :=
  List.filter nonempty (map Py.strip (Py.split "," body)).

(** An entry as it is written, up to the next entry: the type, the key and
    the rest, which holds the fields and the closing brace. *)
Definition entry_text (e : string * string * string) : string :=
  "@" +:+ e.1.1 +:+ "{" +:+ e.1.2 +:+ "," +:+ e.2.

Definition entry_ok (e : string * string * string) : bool :=
  (all_chars Py.isword e.1.1 && nonempty e.1.1 &&
   negb (has_char "," e.1.2) && nonempty e.1.2 &&
   negb (has_char "@" e.2))%bool.

Fixpoint bib_text (entries : list (string * string * string)) : string :=
  match entries with
  | [] => EmptyString
  | e :: entries' => entry_text e +:+ bib_text entries'
  end.

(** A text with braced groups: each group after a stretch of text without
    opening brace, and such a stretch at the end; and the same text with
    the braces of the groups taken away. *)
Fixpoint braced_text (items : list (string * string)) (tail : string) : string :=
  match items with
  | [] => tail
  | (plain, x) :: items' =>
      plain +:+ ("{" +:+ x +:+ "}") +:+ braced_text items' tail
  end.

Fixpoint unbraced_text (items : list (string * string)) (tail : string) : string :=
  match items with
  | [] => tail
  | (plain, x) :: items' => plain +:+ x +:+ unbraced_text items' tail
  end.

(** A categorization text of two directives for one category and one for
    another, with a line of its own between them. *)
Module TwoDirectives.
Definition items : list (string * (string * string * string)) :=
  [("", ("journals", "", "a, b"));
   (String Py.newline "% books" +:+ String Py.newline "",
    ("books", " ", "c"));
   (String Py.newline "", ("journals", "", " b ,d,"))].
Definition sty : string := sty_text items (String Py.newline "").
End TwoDirectives.

(** A bibliography text of two entries, the second of a year before 2022. *)
Module TwoEntries.
Definition entries : list (string * string * string) :=
  [("Article", " k1 ", " title={One}, year={2023}}" +:+ String Py.newline "");
   ("book", "k2", " title={Two}, year={2019}}")].
Definition bib : string := String Py.newline "" +:+ bib_text entries.
End TwoEntries.

(** The text behind the longest run of characters of a class. *)
Fixpoint drop_while (p : ascii -> bool) (s : string) : string :=
  match s with
  | EmptyString => EmptyString
  | String a r => if p a then drop_while p r else s
  end.

(** Whether a text begins like the head of a field pattern and goes on
    with a character that opens the value ([opens] tells which): word
    characters, white space, an equals sign, white space, and then that
    character. *)
Definition head_hit (opens : ascii -> bool) (t : string) : bool :=
  match t with
  | EmptyString => false
  | String a _ =>
      (Py.isword a &&
       match drop_while Py.isspace (drop_while Py.isword t) with
       | String x t3 =>
           (Ascii.eqb x "=" &&
            match drop_while Py.isspace t3 with
            | String y _ => opens y
            | EmptyString => false
            end)
       | EmptyString => false
       end)%bool
  end.

(** No place of the stretch [w], in the text [w +:+ rest], begins like
    that. *)
Fixpoint calm (opens : ascii -> bool) (w rest : string) : bool :=
  match w with
  | EmptyString => true
  | String a w' =>
      (negb (head_hit opens (String a (w' +:+ rest))) && calm opens w' rest)%bool
  end.

(** The text does not go on, behind white space, with an equals sign. *)
Definition eq_free (s : string) : bool :=
  match drop_while Py.isspace s with
  | String x _ => negb (Ascii.eqb x "=")
  | EmptyString => true
  end.

(** A pattern that cannot match a text unless the text begins with a
    character of the class. *)
Definition begins_in (p : ascii -> bool) (r : Re.regex) : Prop :=
  forall s, Re.match_here r s <> None ->
            exists a s', s = String a s' /\ p a = true.

(** A pattern that fails, whatever follows it, on a text that does not
    begin with a character of the class. *)
Definition needs (p : ascii -> bool) (r : Re.regex) : Prop :=
  forall s c k, stops p s = true -> Re.run r s c k = None.

(** The three ways a field's value is written: in braces, as a first
    stretch and braced groups, each with the stretch behind it; in double
    quotes; as bare digits. *)
Inductive field_value : Type :=
| Braced (first : string) (groups : list (string * string))
| Quoted (text : string)
| Bare (digits : string).

Fixpoint groups_text (gs : list (string * string)) : string :=
  match gs with
  | [] => EmptyString
  | (g, v) :: gs' => "{" +:+ g +:+ "}" +:+ v +:+ groups_text gs'
  end.

(** The value between its delimiters. *)
Definition value_text (v : field_value) : string :=
  match v with
  | Braced first gs => first +:+ groups_text gs
  | Quoted text => text
  | Bare digits => digits
  end.

(** The value with its delimiters. *)
Definition value_written (v : field_value) : string :=
  match v with
  | Braced _ _ => "{" +:+ value_text v +:+ "}"
  | Quoted text => String Py.dquote (text +:+ String Py.dquote EmptyString)
  | Bare digits => digits
  end.

(** The place in [Pat.field_patterns] of the pattern for the value. *)
Definition form (v : field_value) : nat :=
  match v with Braced _ _ => 0 | Quoted _ => 1 | Bare _ => 2 end.

Definition no_brace (s : string) : bool :=
  (negb (has_char "{" s) && negb (has_char "}" s))%bool.

Definition value_ok (v : field_value) : bool :=
  match v with
  | Braced first gs =>
      (no_brace first &&
       forallb (fun gv => no_brace gv.1 && no_brace gv.2) gs &&
       negb (has_char "=" (value_text v)))%bool
  | Quoted text =>
      (negb (has_char Py.dquote text) && negb (has_char "=" text))%bool
  | Bare digits => (all_chars Py.isdigit digits && nonempty digits)%bool
  end.

(** A field as it is written: its name, the white space around the equals
    sign, its value, and the text up to the next field. *)
Record field_item : Type := mk_field {
  fi_name : string;
  fi_sp1 : string;
  fi_sp2 : string;
  fi_value : field_value;
  fi_after : string
}.

(** What a pattern matches of the field. *)
Definition match_text (f : field_item) : string :=
  fi_name f +:+ fi_sp1 f +:+ "=" +:+ fi_sp2 f +:+ value_written (fi_value f).

Definition field_text (f : field_item) : string :=
  match_text f +:+ fi_after f.

(** The text behind a field has no word character; behind bare digits it
    is not empty and has no equals sign. *)
Definition after_ok (f : field_item) : bool :=
  (all_chars (fun a => negb (Py.isword a)) (fi_after f) &&
   match fi_value f with
   | Bare _ => nonempty (fi_after f) && negb (has_char "=" (fi_after f))
   | _ => true
   end)%bool.

Definition field_ok (f : field_item) : bool :=
  (all_chars Py.isword (fi_name f) && nonempty (fi_name f) &&
   all_chars Py.isspace (fi_sp1 f) && all_chars Py.isspace (fi_sp2 f) &&
   value_ok (fi_value f) && after_ok f)%bool.

Fixpoint fields_text (items : list field_item) : string :=
  match items with
  | [] => EmptyString
  | f :: items' => field_text f +:+ fields_text items'
  end.

(** The groups of a match of the field: the name and the value between
    its delimiters. *)
Definition field_match (f : field_item) : Re.captures :=
  [(2%nat, value_text (fi_value f)); (1%nat, fi_name f)].

(** What [parse_fields] stores for a field: the name in lower case, and
    the value without one level of braces and without the white space
    around it. *)
Definition store (fields : gmap string string) (f : field_item)
  : gmap string string :=
  <[Py.lower (fi_name f) :=
      Py.strip (Pat.unbrace (value_text (fi_value f)))]> fields.

(** The fields written in one form, in the order of the text. *)
Definition of_form (k : nat) (items : list field_item) : list field_item :=
  List.filter (fun f => Nat.eqb (form (fi_value f)) k) items.

(** The field mapping of a body: the fields in braces are stored first,
    then the fields in quotes, then the bare numbers. *)
Definition fields_of (items : list field_item) : gmap string string :=
  fold_left store (of_form 2 items)
    (fold_left store (of_form 1 items)
       (fold_left store (of_form 0 items) ∅)).

(** The body of an entry with fields in the three forms: a title in braces
    with a braced group, a year as bare digits under a name in capitals,
    an author in quotes, and a second year, in quotes, behind the first;
    the closing brace of the entry ends it. *)
Module ThreeForms.
Definition title : field_item :=
  mk_field "Title" " " " " (Braced "A " [("B", "ook")])
           ("," +:+ String Py.newline "  ").
Definition year : field_item :=
  mk_field "YEAR" " " " " (Bare "2023") ", ".
Definition author : field_item :=
  mk_field "author" "" "" (Quoted " Jane Doe ") ",".
Definition second_year : field_item :=
  mk_field "year" "" " " (Quoted "2001") (String Py.newline "}").
Definition lead : string := String Py.newline "  ".
Definition items : list field_item := [title; year; author; second_year].
Definition body : string := lead +:+ fields_text items.
End ThreeForms.

(** A text with comments: each comment, a percent sign and the rest of its
    line, after a stretch of text without percent sign; a last comment may
    run to the end of the text.  And the same text without the comments;
    the ends of their lines stay. *)
Fixpoint commented_text (items : list (string * string)) (tail : string)
    (last : option string) : string :=
  match items with
  | [] => tail +:+ match last with
                   | Some c => "%" +:+ c
                   | None => EmptyString
                   end
  | (code, c) :: items' =>
      code +:+ ("%" +:+ c) +:+ String Py.newline (commented_text items' tail last)
  end.

Fixpoint uncommented_text (items : list (string * string)) (tail : string)
  : string :=
  match items with
  | [] => tail
  | (code, c) :: items' =>
      code +:+ String Py.newline (uncommented_text items' tail)
  end.

Definition comment_ok (item : string * string) : bool :=
  (negb (has_char "%" item.1) && negb (has_char Py.newline item.2))%bool.

(** A bibliography text with a commented line between two entries, a
    comment behind the first entry and an entry inside a comment. *)
Module Commented.
Definition items : list (string * string) :=
  [("@article{k1, title={One}, year=2023} ", " the first");
   ("", " @book{k0, year={2024}}");
   ("@book{k2, title={Two}, year={2022}}", "")].
Definition bib : string := commented_text items "" (Some " the end").
End Commented.

(** * Properties *)


(** ** The scan of a text never runs out of fuel *)

Lemma substring_length_le (n m : nat) (s : string) :
  (String.length (String.substring n m s) <= m)%nat.
Proof.
  revert n m. induction s as [|a s IH]; intros n m.
  - destruct n, m; simpl; lia.
  - destruct n as [|n]; simpl.
    + destruct m as [|m]; simpl; [lia |]. specialize (IH 0%nat m). lia.
    + apply IH.
Qed.

Lemma match_here_length (r : Re.regex) (s : string) (n : nat) (c : Re.captures) :
  Re.match_here r s = Some (n, c) -> (n <= String.length s)%nat.
Proof.
  unfold Re.match_here.
  destruct (Re.run r s [] _) as [[s' c']|]; [|done].
  intros [= <- _]. lia.
Qed.

(** Any fuel above the length of the text gives the scan that [Re.scan]
    computes: the bound of [Re.scan] is never the reason a scan ends. *)
Lemma scan_fuel_enough (r : Re.regex) (n m : nat) (s : string) :
  (String.length s < n)%nat -> (String.length s < m)%nat ->
  Re.scan_fuel n r s = Re.scan_fuel m r s.
Proof.
  revert m s. induction n as [|n IH]; intros m s Hn Hm; [lia |].
  destruct m as [|m]; [lia |]. cbn [Re.scan_fuel].
  destruct (Re.match_here r s) as [[[|k] c]|] eqn:E.
  - destruct s as [|a s]; [done |]. simpl in Hn, Hm.
    do 2 f_equal. apply IH; lia.
  - apply match_here_length in E. f_equal.
    pose proof (substring_length_le (S k) (String.length s - S k) s).
    apply IH; unfold Re.drop; lia.
  - destruct s as [|a s]; [done |]. simpl in Hn, Hm.
    f_equal. apply IH; lia.
Qed.

(** ** Sets: membership does not depend on the placement of keys *)

Section SetFacts.
Variable slot : string -> list string -> nat.

Lemma mem_In (x : string) (s : list string) :
  PySet.mem x s = true <-> In x s.
Proof.
  unfold PySet.mem. rewrite existsb_exists. split.
  - intros (y & Hy & Heq). apply String.eqb_eq in Heq. by subst.
  - intros H. exists x. split; [done | apply String.eqb_refl].
Qed.

Lemma In_insert_at (n : nat) (x y : string) (s : list string) :
  In y (PySet.insert_at n x s) <-> y = x \/ In y s.
Proof.
  revert n. induction s as [|z s IH]; intros n; simpl.
  - intuition.
  - destruct n as [|n]; simpl; [intuition |].
    rewrite IH. intuition.
Qed.

Lemma In_add (x y : string) (s : list string) :
  In y (PySet.add slot x s) <-> y = x \/ In y s.
Proof.
  unfold PySet.add. destruct (PySet.mem x s) eqn:Hm.
  - apply mem_In in Hm. split; [by right | intros [-> | H]; done].
  - apply In_insert_at.
Qed.

Lemma In_update (xs : list string) (y : string) (s : list string) :
  In y (PySet.update slot xs s) <-> In y xs \/ In y s.
Proof.
  unfold PySet.update. revert s.
  induction xs as [|x xs IH]; intros s; simpl.
  - intuition.
  - rewrite IH, In_add. intuition.
Qed.

End SetFacts.

Lemma same_keys_mem (s1 s2 : list string) (x : string) :
  same_keys s1 s2 -> PySet.mem x s1 = PySet.mem x s2.
Proof.
  intros H. apply eq_true_iff_eq. rewrite !mem_In. apply H.
Qed.

Lemma same_keys_update (slot1 slot2 : string -> list string -> nat)
    (xs s1 s2 : list string) :
  same_keys s1 s2 ->
  same_keys (PySet.update slot1 xs s1) (PySet.update slot2 xs s2).
Proof.
  intros H x. rewrite !In_update. specialize (H x). tauto.
Qed.

(** ** Ordered dictionaries *)

Section ODictFacts.
Context {V : Type}.
Implicit Types (d : list (string * V)) (k : string) (v : V).

Lemma get_set_same k v d : ODict.get k (ODict.set k v d) = Some v.
Proof.
  induction d as [|[k' v'] d IH]; simpl.
  - by rewrite String.eqb_refl.
  - destruct (String.eqb k k') eqn:E; simpl; rewrite E; [done | apply IH].
Qed.

Lemma get_set_other k k' v d :
  k <> k' -> ODict.get k' (ODict.set k v d) = ODict.get k' d.
Proof.
  intros Hne. induction d as [|[k0 v0] d IH]; simpl.
  - destruct (String.eqb k' k) eqn:E; [|done].
    apply String.eqb_eq in E. congruence.
  - destruct (String.eqb k k0) eqn:E; simpl.
    + apply String.eqb_eq in E. subst k0.
      destruct (String.eqb k' k) eqn:E'; [|done].
      apply String.eqb_eq in E'. congruence.
    + by rewrite IH.
Qed.

Lemma keys_set k v d :
  ODict.keys (ODict.set k v d) =
  match ODict.get k d with
  | Some _ => ODict.keys d
  | None => ODict.keys d ++ [k]
  end.
Proof.
  unfold ODict.keys. induction d as [|[k' v'] d IH]; simpl; [done |].
  destruct (String.eqb k k') eqn:E; simpl; [done |].
  rewrite IH. by destruct (ODict.get k d).
Qed.

Lemma get_None_keys k d : ODict.get k d = None <-> ~ In k (ODict.keys d).
Proof.
  unfold ODict.keys. induction d as [|[k' v'] d IH]; simpl; [tauto |].
  destruct (String.eqb k k') eqn:E.
  - apply String.eqb_eq in E. subst. split; [done | tauto].
  - apply String.eqb_neq in E. rewrite IH. split; [|tauto].
    intros H [->|H']; tauto.
Qed.

Lemma NoDup_keys_set k v d :
  NoDup (ODict.keys d) -> NoDup (ODict.keys (ODict.set k v d)).
Proof.
  intros Hnd. rewrite keys_set. destruct (ODict.get k d) eqn:E; [done |].
  apply get_None_keys in E.
  apply NoDup_app. split; [done | split].
  - intros x Hx Hx'. apply list_elem_of_In in Hx.
    apply list_elem_of_In in Hx'. simpl in Hx'.
    destruct Hx' as [<-|[]]. done.
  - apply NoDup_singleton.
Qed.

Lemma get_In k v d : ODict.get k d = Some v -> In (k, v) d.
Proof.
  induction d as [|[k' v'] d IH]; simpl; [done |].
  destruct (String.eqb k k') eqn:E.
  - apply String.eqb_eq in E. intros [= ->]. left. by subst.
  - intros H. right. by apply IH.
Qed.

Lemma In_get k v d : NoDup (ODict.keys d) -> In (k, v) d -> ODict.get k d = Some v.
Proof.
  unfold ODict.keys. induction d as [|[k' v'] d IH]; simpl; [done |].
  intros Hnd [Heq | Hin].
  - injection Heq as -> ->. by rewrite String.eqb_refl.
  - apply NoDup_cons in Hnd as [Hnotin Hnd'].
    destruct (String.eqb k k') eqn:E; [|by apply IH].
    apply String.eqb_eq in E. subst k'. exfalso. apply Hnotin.
    apply list_elem_of_In. change k with (fst (k, v)). by apply in_map.
Qed.

End ODictFacts.

(** ** The sort *)

Lemma insert_by_year_perm (e : Entry) (l : list Entry) :
  Permutation (e :: l) (insert_by_year e l).
Proof.
  induction l as [|x l IH]; simpl; [done |].
  destruct (e_year e <? e_year x)%Z; [|done].
  rewrite perm_swap. by constructor.
Qed.

Lemma sort_by_year_perm (l : list Entry) : Permutation l (sort_by_year l).
Proof.
  induction l as [|e l IH]; simpl; [done |].
  rewrite <- insert_by_year_perm. by constructor.
Qed.

Lemma insert_by_year_descending (e : Entry) (l : list Entry) :
  descending l -> descending (insert_by_year e l).
Proof.
  unfold descending. induction l as [|x l IH]; intros Hs; simpl.
  - repeat constructor.
  - apply StronglySorted_inv in Hs as [Hs Hx].
    destruct (e_year e <? e_year x)%Z eqn:E.
    + apply Z.ltb_lt in E. constructor; [by apply IH |].
      rewrite List.Forall_forall in *. intros y Hy.
      apply (Permutation_in _ (Permutation_sym (insert_by_year_perm e l))) in Hy.
      destruct Hy as [<- | Hy]; [lia | by apply Hx].
    + apply Z.ltb_ge in E. constructor; [by constructor |].
      constructor; [done |].
      rewrite List.Forall_forall in *. intros y Hy. specialize (Hx y Hy). lia.
Qed.

Lemma sort_by_year_descending (l : list Entry) : descending (sort_by_year l).
Proof.
  induction l as [|e l IH]; simpl.
  - constructor.
  - by apply insert_by_year_descending.
Qed.

Lemma insert_by_year_of_year (y : Z) (e : Entry) (l : list Entry) :
  of_year y (insert_by_year e l) = of_year y (e :: l).
Proof.
  unfold of_year. induction l as [|x l IH]; [done |].
  cbn [insert_by_year]. destruct (e_year e <? e_year x)%Z eqn:E; [|done].
  apply Z.ltb_lt in E. cbn [List.filter] in *. rewrite IH.
  destruct (e_year x =? y)%Z eqn:Ex, (e_year e =? y)%Z eqn:Ee; try done.
  apply Z.eqb_eq in Ex, Ee. lia.
Qed.

Lemma sort_by_year_stable (y : Z) (l : list Entry) :
  of_year y (sort_by_year l) = of_year y l.
Proof.
  induction l as [|e l IH]; [done |].
  cbn [sort_by_year foldr]. rewrite insert_by_year_of_year.
  unfold of_year in *. cbn [List.filter].
  change (foldr insert_by_year [] l) with (sort_by_year l). by rewrite IH.
Qed.

Lemma sort_by_year_nil (l : list Entry) : sort_by_year l = [] -> l = [].
Proof.
  intros H. apply Permutation_nil. by rewrite <- H, <- sort_by_year_perm.
Qed.

(** ** Buckets *)

Lemma encounter_cons categories target k e entries :
  encounter categories target ((k, e) :: entries) =
  (if bool_decide (find_category k categories = target) then [e] else []) ++
  encounter categories target entries.
Proof.
  unfold encounter. simpl. by destruct (bool_decide _).
Qed.

Lemma organize_fold categories entries (acc : gmap string (list Entry) * list Entry) :
  let res := fold_left (place categories) entries acc in
  (forall cat, default [] (res.1 !! cat) =
               default [] (acc.1 !! cat) ++ encounter categories (Some cat) entries)
  /\ res.2 = acc.2 ++ encounter categories None entries.
Proof.
  revert acc. induction entries as [|[k e] entries IH]; intros [cz un].
  - simpl. split; [intros cat|]; by rewrite app_nil_r.
  - cbn [fold_left]. cbv zeta.
    destruct (IH (place categories (cz, un) (k, e))) as [IH1 IH2].
    split.
    + intros cat. rewrite IH1, encounter_cons. unfold place.
      destruct (find_category k categories) as [c|] eqn:Ec; simpl.
      * destruct (decide (c = cat)) as [->|Hne].
        -- rewrite lookup_insert_eq. case_bool_decide; [|done].
           simpl. by rewrite <- app_assoc.
        -- rewrite lookup_insert_ne by done.
           case_bool_decide; [congruence | done].
      * done.
    + rewrite IH2, encounter_cons. unfold place.
      destruct (find_category k categories) as [c|] eqn:Ec; simpl.
      * done.
      * by rewrite <- app_assoc.
Qed.

Lemma organize_spec categories entries :
  (forall cat, default [] ((organize entries categories).1 !! cat) =
               encounter categories (Some cat) entries)
  /\ (organize entries categories).2 = encounter categories None entries.
Proof.
  destruct (organize_fold categories entries (∅, [])) as [H1 H2].
  unfold organize. split; [intros cat | done].
  rewrite (H1 cat). simpl. by rewrite lookup_empty.
Qed.

Lemma omap_pointwise {A B : Type} (f g : A -> option B) (l : list A) :
  (forall x, f x = g x) -> omap f l = omap g l.
Proof.
  intros H. induction l as [|x l IH]; csimpl; [done |].
  by rewrite H, IH.
Qed.

Lemma sections_spec entries categories :
  sections entries categories =
  omap (fun cat => section_of (default (Py.title cat) (CATEGORY_NAMES !! cat)) cat
                     (encounter categories (Some cat) entries))
       category_order ++
  option_list
    (section_of "Other Publications" "other" (encounter categories None entries)).
Proof.
  unfold sections.
  destruct (organize_spec categories entries) as [H1 H2].
  destruct (organize entries categories) as [cz un]. simpl in H1, H2. subst un.
  f_equal.
  - apply omap_pointwise. intros cat. unfold category_section, section_of.
    rewrite lookup_fmap, <- (H1 cat).
    destruct (cz !! cat) as [[|e l]|]; simpl; [done | | done].
    destruct (insert_by_year e (sort_by_year l)) eqn:E; [|done].
    exfalso. by apply (sort_by_year_nil (e :: l)) in E.
  - unfold other_section, section_of.
    by destruct (encounter categories None entries).
Qed.

(** Every section stands in the page, between the lines before and after. *)
Lemma section_in_page entries categories heading cat bucket :
  In (heading, cat, bucket) (sections entries categories) ->
  exists before after,
    page_lines entries categories =
    before ++ section_lines heading cat bucket ++ after.
Proof.
  intros Hin. unfold page_lines.
  apply in_split in Hin as (l1 & l2 & ->).
  rewrite flat_map_app. cbn [flat_map].
  exists (header_lines ++
          flat_map (fun '(h, c, b) => section_lines h c b) l1),
         (flat_map (fun '(h, c, b) => section_lines h c b) l2 ++ footer_lines).
  by rewrite <- !app_assoc.
Qed.

(** What a section holds: the sorted bucket of a category of the display
    order, or the sorted uncategorized entries under the tag "other". *)
Lemma section_inv entries categories heading cat bucket :
  In (heading, cat, bucket) (sections entries categories) ->
  bucket <> [] /\
  ((In cat category_order /\
    CATEGORY_NAMES !! cat = Some heading /\
    bucket = sort_by_year (encounter categories (Some cat) entries))
   \/ (heading = "Other Publications" /\ cat = "other" /\
       bucket = sort_by_year (encounter categories None entries))).
Proof.
  rewrite sections_spec, in_app_iff. intros [Hin | Hin].
  - apply list_elem_of_In, list_elem_of_omap in Hin as (c & Hc & Hsec).
    apply list_elem_of_In in Hc.
    unfold section_of in Hsec.
    destruct (encounter categories (Some c) entries) as [|e l] eqn:E; [done |].
    rewrite <- E in Hsec. injection Hsec as <- <- <-. rewrite E. split.
    + intros H. by apply (sort_by_year_nil (e :: l)) in H.
    + left. split; [done | split; [|reflexivity]].

      simpl in Hc.
      repeat (destruct Hc as [<- | Hc]; [by vm_compute |]). done.
  - unfold section_of in Hin.
    destruct (encounter categories None entries) as [|e l] eqn:E; [done |].
    rewrite <- E in Hin.
    simpl in Hin. destruct Hin as [Hin | []]. injection Hin as <- <- <-.
    rewrite E.
    split; [| right; repeat split; reflexivity].
    intros H. by apply (sort_by_year_nil (e :: l)) in H.
Qed.

Lemma In_encounter categories target entries entry :
  In entry (encounter categories target entries) <->
  exists key, In (key, entry) entries /\ find_category key categories = target.
Proof.
  unfold encounter. rewrite in_map_iff. split.
  - intros ([k e] & <- & Hin). apply filter_In in Hin as [Hin Hdec].
    apply bool_decide_eq_true in Hdec. by exists k.
  - intros (k & Hin & Hfind). exists (k, entry). split; [done |].
    apply filter_In. split; [done |]. by apply bool_decide_eq_true.
Qed.

(** ** The category scan (claim C1) *)

Lemma find_category_app key before cat keys after :
  (forall c ks, In (c, ks) before -> ~ In key ks) ->
  In key keys ->
  find_category key (before ++ (cat, keys) :: after) = Some cat.
Proof.
  induction before as [|[c ks] before IH]; intros Hbefore Hkey; simpl.
  - apply mem_In in Hkey. by rewrite Hkey.
  - destruct (PySet.mem key ks) eqn:E.
    + apply mem_In in E. exfalso. apply (Hbefore c ks); [by left | done].
    + apply IH; [|done]. intros c' ks' Hin. apply (Hbefore c' ks'). by right.
Qed.

Lemma find_category_Some key categories cat :
  find_category key categories = Some cat ->
  exists before keys after,
    categories = before ++ (cat, keys) :: after /\ In key keys /\
    forall c ks, In (c, ks) before -> ~ In key ks.
Proof.
  induction categories as [|[c ks] categories IH]; simpl; [done |].
  destruct (PySet.mem key ks) eqn:E.
  - intros [= ->]. exists [], ks, categories. apply mem_In in E.
    split; [done | split; [done |]]. intros ? ? [].
  - intros H. destruct (IH H) as (before & keys & after & -> & Hkey & Hbefore).
    exists ((c, ks) :: before), keys, after.
    split; [done | split; [done |]].
    intros c' ks' [[= -> ->] | Hin]; [|by apply (Hbefore c' ks')].
    intros Hk. apply mem_In in Hk. congruence.
Qed.

Lemma find_category_None key categories :
  find_category key categories = None <->
  forall c ks, In (c, ks) categories -> ~ In key ks.
Proof.
  induction categories as [|[c ks] categories IH]; simpl.
  - split; [intros _ ? ? [] | done].
  - destruct (PySet.mem key ks) eqn:E.
    + apply mem_In in E. split; [done |]. intros H. exfalso.
      apply (H c ks); [by left | done].
    + rewrite IH. split.
      * intros H c' ks' [[= -> ->] | Hin]; [|by apply (H c' ks')].
        intros Hk. apply mem_In in Hk. congruence.
      * intros H c' ks' Hin. apply (H c' ks'). by right.
Qed.

(** C1, as the code has it: the category of a key is the first one, in the
    iteration order of the category index (the order in which the
    categories first occur in the categorization file), whose key set holds
    the key, whether or not the category belongs to the display order; the
    key is uncategorized exactly when no key set of the index holds it; and
    every entry of a rendered section is one that this scan sent there. *)
Theorem category_is_first_match_in_index_order
    (categories : list (string * list string)) (key : string) :
  (forall cat,
     find_category key categories = Some cat <->
     exists before keys after,
       categories = before ++ (cat, keys) :: after /\ In key keys /\
       forall c ks, In (c, ks) before -> ~ In key ks)
  /\ (find_category key categories = None <->
      forall c ks, In (c, ks) categories -> ~ In key ks)
  /\ (forall entries heading cat bucket entry,
        In (heading, cat, bucket) (sections entries categories) ->
        In entry bucket ->
        exists k, In (k, entry) entries /\
          find_category k categories =
          if String.eqb cat "other" then None else Some cat).
Proof.
  split; [|split].
  - intros cat. split; [apply find_category_Some |].
    intros (before & keys & after & -> & Hkey & Hbefore).
    by apply find_category_app.
  - apply find_category_None.
  - intros entries heading cat bucket entry Hsec Hin.
    apply section_inv in Hsec as [_ [(Hcat & _ & ->) | (_ & -> & ->)]].
    + apply (Permutation_in _ (Permutation_sym (sort_by_year_perm _))) in Hin.
      apply In_encounter in Hin as (k & Hk & Hfind). exists k. split; [done |].
      rewrite Hfind. simpl in Hcat.
      repeat (destruct Hcat as [<- | Hcat]; [done |]). done.
    + apply (Permutation_in _ (Permutation_sym (sort_by_year_perm _))) in Hin.
      apply In_encounter in Hin as (k & Hk & Hfind). by exists k.
Qed.

Lemma category_is_first_match_in_index_order_witness :
  find_category "k" Overlap.categories = Some "journals".
Proof.
  apply (category_is_first_match_in_index_order Overlap.categories "k").
  exists [], ["k"], [("books", ["k"])].
  split; [by vm_compute | split; [by left |]]. intros ? ? [].
Defined.

(** C1 as stated fails: the key is in [journals] and in [books], [books]
    comes first in the fixed order, and the entry is filed, and rendered,
    under [journals], the category the file names first. *)
Lemma priority_order_refuted :
  find_category "k" Overlap.categories <>
    first_in_priority_order "k" Overlap.categories /\
  first_in_priority_order "k" Overlap.categories = Some "books" /\
  find_category "k" Overlap.categories = Some "journals" /\
  map (fun s => (s.1.1, s.1.2, map e_key s.2))
      (sections Overlap.entries Overlap.categories) =
  [("Journal Articles", "journals", ["k"])].
Proof. by vm_compute. Qed.

(** ** The parser's result mapping (claims C2 and C9) *)

Lemma add_records_snoc records r :
  add_records (records ++ [r]) = add_entry (add_records records) r.1.1 r.1.2 r.2.
Proof.
  unfold add_records. rewrite fold_left_app. by destruct r as [[t k] f].
Qed.

Lemma add_entry_get entries r key :
  ODict.get key (add_entry entries r.1.1 r.1.2 r.2) =
  if qualifying key r then Some (entry_of_record r) else ODict.get key entries.
Proof.
  unfold add_entry, qualifying.
  destruct (2022 <=? year_of r.2)%Z; [|by rewrite andb_false_r].
  rewrite andb_true_r. destruct (String.eqb r.1.2 key) eqn:E.
  - apply String.eqb_eq in E. subst key. apply get_set_same.
  - apply String.eqb_neq in E. by apply get_set_other.
Qed.

Lemma add_records_get records key :
  ODict.get key (add_records records) =
  entry_of_record <$> last (List.filter (qualifying key) records).
Proof.
  induction records as [|r records IH] using rev_ind; [done |].
  rewrite add_records_snoc, add_entry_get, List.filter_app. simpl.
  destruct (qualifying key r).
  - by rewrite last_snoc.
  - by rewrite app_nil_r.
Qed.

Lemma add_records_NoDup records : NoDup (ODict.keys (add_records records)).
Proof.
  induction records as [|r records IH] using rev_ind; [constructor |].
  rewrite add_records_snoc. unfold add_entry.
  destruct (2022 <=? year_of r.2)%Z; [by apply NoDup_keys_set | done].
Qed.

Lemma last_filter_In {A : Type} (p : A -> bool) (l : list A) (x : A) :
  last (List.filter p l) = Some x -> In x l /\ p x = true.
Proof.
  intros H. apply last_Some in H as (l' & H).
  apply filter_In. rewrite H. apply in_app_iff. right. by left.
Qed.

Lemma add_records_In records key e :
  In (key, e) (add_records records) ->
  exists r, In r records /\ e = entry_of_record r /\ r.1.2 = key /\
            (2022 <= year_of r.2)%Z.
Proof.
  intros Hin. apply In_get in Hin; [|apply add_records_NoDup].
  rewrite add_records_get in Hin.
  destruct (last (List.filter (qualifying key) records)) as [r|] eqn:E; [|done].
  injection Hin as <-. apply last_filter_In in E as [Hr Hq].
  unfold qualifying in Hq. apply andb_true_iff in Hq as [Hk Hy].
  apply String.eqb_eq in Hk. apply Z.leb_le in Hy. by exists r.
Qed.

(** C2: a record whose year reads below 2022 (0 when absent or not a
    number) leaves the result mapping as it was, in both parsing modes;
    every entry of the mapping has a year of 2022 or more; and every entry
    of a rendered section is an entry of the mapping, so none of an
    earlier year is rendered. *)
Theorem entries_before_2022_excluded
    (HAS_BIBTEXPARSER : bool)
    (bibtexparser_load : string -> list (gmap string string))
    (file_path content : string) (categories : list (string * list string)) :
  let entries :=
    (parse_bibtex HAS_BIBTEXPARSER bibtexparser_load file_path (Some content)).2 in
  (forall entries0 entry_type entry_key fields,
     (year_of fields < 2022)%Z ->
     add_entry entries0 entry_type entry_key fields = entries0)
  /\ (forall key e, In (key, e) entries ->
        (2022 <= e_year e)%Z /\ e_year e = year_of (e_fields e))
  /\ (forall heading cat bucket e,
        In (heading, cat, bucket) (sections entries categories) ->
        In e bucket ->
        (2022 <= e_year e)%Z /\ In (e_key e, e) entries).
Proof.
  cbv zeta. simpl. split; [|split].
  - intros entries0 t k f Hy. unfold add_entry.
    destruct (2022 <=? year_of f)%Z eqn:E; [|done].
    apply Z.leb_le in E. lia.
  - intros key e Hin.
    apply add_records_In in Hin as (r & _ & -> & _ & Hy). by simpl.
  - intros heading cat bucket e Hsec Hin.
    assert (exists k, In (k, e)
              (add_records (bib_records HAS_BIBTEXPARSER bibtexparser_load content)))
      as [k Hk].
    { apply section_inv in Hsec as [_ [(_ & _ & ->) | (_ & _ & ->)]];
        apply (Permutation_in _ (Permutation_sym (sort_by_year_perm _))) in Hin;
        apply In_encounter in Hin as (k & Hk & _); by exists k. }
    pose proof Hk as Hk'.
    apply add_records_In in Hk as (r & _ & -> & <- & Hy). by simpl.
Qed.

Lemma entries_before_2022_excluded_witness :
  add_entry [] "article" "old" {[ "year" := "2021" ]} = [] /\
  map fst (parse_bibtex false (fun _ => []) "citations.bib"
             (Some Recency.bib)).2 = ["new"].
Proof.
  split.
  - apply (entries_before_2022_excluded false (fun _ => []) "" "" []).
    by vm_compute.
  - by vm_compute.
Defined.

(** C9, as the code has it: the mapping holds at most one entry per key, and
    the entry of a key is built from the last record of that key among those
    that pass the year filter; records of a year below 2022 neither
    overwrite nor create an entry. *)
Theorem later_qualifying_record_overwrites
    (HAS_BIBTEXPARSER : bool)
    (bibtexparser_load : string -> list (gmap string string))
    (file_path content key : string) :
  let records := bib_records HAS_BIBTEXPARSER bibtexparser_load content in
  let entries :=
    (parse_bibtex HAS_BIBTEXPARSER bibtexparser_load file_path (Some content)).2 in
  NoDup (ODict.keys entries)
  /\ ODict.get key entries =
     entry_of_record <$> last (List.filter (qualifying key) records)
  /\ (forall e, In (key, e) entries <-> ODict.get key entries = Some e).
Proof.
  cbv zeta. simpl. split; [apply add_records_NoDup | split].
  - apply add_records_get.
  - intros e. split; [apply In_get, add_records_NoDup | apply get_In].
Qed.

Lemma later_qualifying_record_overwrites_witness :
  (fun e => (e_year e, e_fields e !! "title")) <$>
    ODict.get "k" (parse_bibtex false (fun _ => []) "citations.bib"
                     (Some Duplicate.bib)).2
  = Some (2023%Z, Some "First").
Proof.
  rewrite (proj1 (proj2 (later_qualifying_record_overwrites
                           false (fun _ => []) "citations.bib" Duplicate.bib "k"))).
  by vm_compute.
Defined.

(** C9 as stated fails: the last record of [k] is the one of 2020, and the
    mapping holds the entry of the record of 2023 before it. *)
Lemma last_record_wins_refuted : ~ last_record_wins Duplicate.records.
Proof.
  intros H.
  specialize (H "k" ("article", "k",
                     {[ "title" := "Second"; "year" := "2020" ]})).
  assert (e_year <$> ODict.get "k" (add_records Duplicate.records)
          = Some 2020%Z) as Hy.
  { rewrite H; by vm_compute. }
  vm_compute in Hy. discriminate.
Qed.

(** ** Rendering under a category's heading (claim C3) *)






(** ** The author formatter (claim C4) *)

Lemma append_cons (c : ascii) (s t : string) :
  String c s +:+ t = String c (s +:+ t).
Proof. reflexivity. Qed.

Lemma append_empty_l (s : string) : "" +:+ s = s.
Proof. reflexivity. Qed.

Lemma append_assoc (s1 s2 s3 : string) :
  (s1 +:+ s2) +:+ s3 = s1 +:+ s2 +:+ s3.
Proof.
  induction s1 as [|c s1 IH]; [done |]. rewrite !append_cons. by f_equal.
Qed.

Lemma append_empty_r (s : string) : s +:+ "" = s.
Proof.
  induction s as [|c s IH]; [done |]. rewrite append_cons. by f_equal.
Qed.

Lemma prefix_behind (sep s : string) :
  String.prefix sep s = true -> s = sep +:+ behind (String.length sep) s.
Proof.
  revert s. induction sep as [|a sep IH]; intros s; simpl; [done |].
  destruct s as [|b s]; [done |].
  change (String.prefix (String a sep) (String b s))
    with (if ascii_dec a b then String.prefix sep s else false).
  destruct (ascii_dec a b) as [->|]; [|done].
  intros H. rewrite append_cons. by rewrite <- IH.
Qed.

Lemma behind_empty (n : nat) : behind n "" = "".
Proof. by destruct n. Qed.

(** Splitting loses nothing: the pieces, joined by the separator again, are
    the text that was split. *)
Lemma split_from_join (sep : string) (skip : nat) (s : string) :
  sep <> "" ->
  Py.join sep ((Py.split_from sep skip s).1 :: (Py.split_from sep skip s).2)
  = behind skip s.
Proof.
  intros Hsep. revert skip.
  induction s as [|c r IH]; intros skip.
  - simpl. by rewrite behind_empty.
  - cbn [Py.split_from]. destruct skip as [|k]; [|apply IH].
    destruct (String.prefix sep (String c r)) eqn:Hp.
    + specialize (IH (String.length sep - 1)%nat).
      destruct (Py.split_from sep (String.length sep - 1) r) as [p ps].
      apply prefix_behind in Hp.
      destruct sep as [|a sep]; [done |].
      cbn [behind String.length] in Hp. cbn [String.length] in IH.
      replace (S (String.length sep) - 1)%nat with (String.length sep) in IH by lia.
      cbn [fst snd] in *. unfold Py.join in *.
      change (String.concat (String a sep) ("" :: p :: ps))
        with (String a sep +:+ String.concat (String a sep) (p :: ps)).
      rewrite IH. by rewrite <- Hp.
    + specialize (IH 0%nat).
      destruct (Py.split_from sep 0 r) as [p ps]. cbn [fst snd behind] in *.
      unfold Py.join in *. rewrite <- IH.
      destruct ps as [|q ps]; [done |].
      change (String.concat sep (String c p :: q :: ps))
        with (String c p +:+ sep +:+ String.concat sep (q :: ps)).
      by rewrite append_cons.
Qed.

Lemma split_join (sep s : string) :
  sep <> "" -> Py.join sep (Py.split sep s) = s.
Proof.
  intros Hsep. unfold Py.split.
  pose proof (split_from_join sep 0 s Hsep) as H.
  destruct (Py.split_from sep 0 s) as [p ps]. simpl in H.
  by destruct s.
Qed.

(** What [strip] takes away. *)
Lemma lstrip_starts_clean s : starts_clean (Py.lstrip s) = true.
Proof.
  induction s as [|c s IH]; [done |]. simpl.
  destruct (Py.isspace c) eqn:E; [done |]. simpl. by rewrite E.
Qed.

Lemma rstrip_starts_clean s :
  starts_clean s = true -> starts_clean (Py.rstrip s) = true.
Proof.
  destruct s as [|c s]; [done |]. simpl. intros H.
  destruct (Py.rstrip s); [|done].
  apply negb_true_iff in H. by rewrite H; simpl; rewrite H.
Qed.

Lemma lstrip_split s :
  exists l, s = l +:+ Py.lstrip s /\ all_chars Py.isspace l = true.
Proof.
  induction s as [|c s (l & Hs & Hl)]; [by exists "" |]. simpl.
  destruct (Py.isspace c) eqn:E; [|by exists ""].
  exists (String c l). rewrite append_cons, <- Hs. simpl. by rewrite E, Hl.
Qed.

Lemma rstrip_split s :
  exists r, s = Py.rstrip s +:+ r /\ all_chars Py.isspace r = true.
Proof.
  induction s as [|c s (r & Hs & Hr)]; [by exists "" |]. cbn [Py.rstrip].
  destruct (Py.rstrip s) as [|c' s'] eqn:E.
  - rewrite append_empty_l in Hs. subst r.
    destruct (Py.isspace c) eqn:Ec.
    + exists (String c s). split; [done |]. simpl. by rewrite Ec, Hr.
    + exists s. by rewrite append_cons, append_empty_l.
  - exists r. rewrite append_cons. by rewrite <- Hs.
Qed.

Lemma rstrip_ends_clean s : ends_clean (Py.rstrip s) = true.
Proof.
  induction s as [|c s IH]; [done |]. cbn [Py.rstrip].
  destruct (Py.rstrip s) as [|c' s'] eqn:E.
  - destruct (Py.isspace c) eqn:Ec; [done |]. simpl. by rewrite Ec.
  - exact IH.
Qed.

Lemma strip_stripped_of s : stripped_of s (Py.strip s).
Proof.
  destruct (lstrip_split s) as (l & Hs & Hl).
  destruct (rstrip_split (Py.lstrip s)) as (r & Ht & Hr).
  exists l, r. unfold Py.strip.
  split; [by rewrite <- Ht | split; [done | split; [done | split]]].
  - apply rstrip_starts_clean, lstrip_starts_clean.
  - apply rstrip_ends_clean.
Qed.

(** C4: the author field is split on the separator [ and ], with its two
    blanks (the pieces, joined by the separator again, are the field), and
    each name is its piece without the white space at its two ends; the
    empty field gives the empty string, and otherwise one name is returned
    alone, two are joined by [ and ], three or four by commas with [, and ]
    before the last, and of five or more the first three are kept, joined
    by commas and followed by [, et al.] *)
Theorem format_authors_by_count (authors_str : string) :
  let names := map Py.strip (Py.split " and " authors_str) in
  Py.join " and " (Py.split " and " authors_str) = authors_str
  /\ Forall2 stripped_of (Py.split " and " authors_str) names
  /\ format_authors "" = ""
  /\ (authors_str <> "" ->
      match names with
      | [] => False
      | [a] => format_authors authors_str = a
      | [a; b] => format_authors authors_str = a +:+ " and " +:+ b
      | [a; b; c] =>
          format_authors authors_str = a +:+ ", " +:+ b +:+ ", and " +:+ c
      | [a; b; c; d] =>
          format_authors authors_str =
          a +:+ ", " +:+ b +:+ ", " +:+ c +:+ ", and " +:+ d
      | a :: b :: c :: _ :: _ :: _ =>
          format_authors authors_str =
          a +:+ ", " +:+ b +:+ ", " +:+ c +:+ ", et al."
      end).
Proof.
  cbv zeta. split; [by apply split_join |]. split.
  { induction (Py.split " and " authors_str) as [|x l IH]; [constructor |].
    constructor; [apply strip_stripped_of | exact IH]. }
  split; [done |].
  intros Hne. unfold format_authors.
  destruct authors_str as [|ch rest]; [done |]. cbn [nonempty].
  assert (Py.split " and " (String ch rest) <> []) as Hsplit.
  { unfold Py.split. by destruct (Py.split_from " and " 0 (String ch rest)). }
  destruct (Py.split " and " (String ch rest)) as [|x0 l]; [done |].
  clear Hsplit. cbn [map].
  generalize (Py.strip x0) as a. intros a.
  destruct l as [|x1 l]; [done |]. cbn [map].
  generalize (Py.strip x1) as b. intros b.
  destruct l as [|x2 l]; [done |]. cbn [map].
  generalize (Py.strip x2) as c. intros c.
  destruct l as [|x3 l].
  { simpl. by rewrite append_assoc. }
  cbn [map]. generalize (Py.strip x3) as d. intros d.
  destruct l as [|x4 l].
  { simpl. by rewrite !append_assoc. }
  simpl. by rewrite !append_assoc.
Qed.

Lemma format_authors_by_count_witness :
  format_authors " A and B  and C and D and  E " = "A, B, C, et al.".
Proof.
  apply (format_authors_by_count " A and B  and C and D and  E "). done.
Defined.

(** The examples of the specification. *)
Example format_authors_examples :
  map format_authors
    ["Alice"; "Alice and Bob"; "Alice and Bob and Carol";
     "A and B and C and D"; "A and B and C and D and E"; " Alice  and Bob "]
  = ["Alice"; "Alice and Bob"; "Alice, Bob, and Carol";
     "A, B, C, and D"; "A, B, C, et al."; "Alice and Bob"].
Proof. by vm_compute. Qed.

(** ** Links and venue (claim C10) *)

Lemma venue_empty entry_type fields name :
  venue_field entry_type = Some name ->
  Py.strip (field name fields) = "" ->
  venue entry_type fields = [].
Proof.
  unfold venue_field, venue.
  destruct (String.eqb entry_type "inproceedings").
  { intros [= <-] ->. done. }
  destruct (String.eqb entry_type "article").
  { intros [= <-] ->. done. }
  destruct (String.eqb entry_type "inbook" || String.eqb entry_type "incollection")%bool.
  { intros [= <-] ->. done. }
  done.
Qed.

(** C10: a link is emitted for a [url] key and for a [doi] key of the field
    mapping whatever the value, the empty string included; the venue segment
    is left out when the venue field of the entry's type is absent or empty
    after stripping, and the citation is then the one of the same entry
    under a type without venue. *)
Theorem links_follow_key_presence (entry : Entry) (category : string) :
  (forall url, e_fields entry !! "url" = Some url ->
     exists before after,
       format_publication entry category =
       before +:+ "[PDF](" +:+ Py.strip url +:+ ")" +:+ after)
  /\ (forall doi, e_fields entry !! "doi" = Some doi ->
        exists before,
          format_publication entry category =
          before +:+ "[DOI](https://doi.org/" +:+ Py.strip doi +:+ ")")
  /\ (forall name, venue_field (e_type entry) = Some name ->
        Py.strip (field name (e_fields entry)) = "" ->
        venue (e_type entry) (e_fields entry) = [] /\
        format_publication entry category =
        format_publication (with_type "misc" entry) category).
Proof.
  split; [|split].
  - intros url Hurl. unfold format_publication, links. rewrite Hurl.
    set (citation := Py.join ". " _).
    destruct (e_fields entry !! "doi") as [doi|]; cbn [app].
    + exists ("- " +:+ citation +:+ " "),
             (" | " +:+ "[DOI](https://doi.org/" +:+ Py.strip doi +:+ ")").
      unfold Py.join. cbn [String.concat]. by rewrite !append_assoc.
    + exists ("- " +:+ citation +:+ " "), "".
      unfold Py.join. cbn [String.concat].
      by rewrite !append_assoc, append_empty_r.
  - intros doi Hdoi. unfold format_publication, links. rewrite Hdoi.
    set (citation := Py.join ". " _).
    destruct (e_fields entry !! "url") as [url|]; cbn [app].
    + exists ("- " +:+ citation +:+ " " +:+ "[PDF](" +:+ Py.strip url +:+ ")"
              +:+ " | ").
      unfold Py.join. cbn [String.concat]. by rewrite !append_assoc.
    + exists ("- " +:+ citation +:+ " ").
      unfold Py.join. cbn [String.concat]. by rewrite !append_assoc.
  - intros name Hname Hempty.
    pose proof (venue_empty _ _ _ Hname Hempty) as Hvenue.
    split; [done |]. unfold format_publication. simpl.
    by rewrite Hvenue.
Qed.

Lemma links_follow_key_presence_witness :
  (exists before after,
     format_publication EmptyFields.entry "journals" =
     before +:+ "[PDF](" +:+ Py.strip "" +:+ ")" +:+ after)
  /\ venue (e_type EmptyFields.entry) (e_fields EmptyFields.entry) = []
  /\ format_publication EmptyFields.entry "journals" = "- *T*. (2023) [PDF]()".
Proof.
  destruct (links_follow_key_presence EmptyFields.entry "journals")
    as (Hurl & _ & Hvenue).
  split; [|split].
  - apply Hurl. by vm_compute.
  - apply (Hvenue "journal"); by vm_compute.
  - by vm_compute.
Defined.

(** ** The scenario of the specification (claim C5) *)

(** C5: for the bibliography of the scenario with the doi written in
    braces, and the categorization file of the scenario,
    whatever the placement of keys in sets, the fallback parser yields the
    one entry, and the page consists of the fixed opening lines, the section
    of the journal articles with its heading, its wrapper tagged
    [journals] and the one list item, and the fixed closing lines; the
    document text contains the heading, the tag and the item.  The page is
    the same when the entry comes from the library's parser. *)
Theorem scenario_page (slot : string -> list string -> nat)
    (bibtexparser_load : string -> list (gmap string string)) :
  let categories :=
    (parse_bib_entries_sty slot "bib-entries.sty" (Some Scenario.sty)).2 in
  let entries :=
    (parse_bibtex false bibtexparser_load "citations.bib" (Some Scenario.bib)).2 in
  let document := generate_publications_page entries categories in
  entries = [("foo2023", Scenario.entry)]
  /\ format_publication Scenario.entry "journals" = Scenario.item
  /\ page_lines entries categories =
     header_lines ++ scenario_section ++ footer_lines
  /\ Py.contains document "### Journal Articles" = true
  /\ Py.contains document "data-category='journals'" = true
  /\ Py.contains document Scenario.item = true
  /\ page_lines (add_records [robust_record scenario_library_entry]) categories =
     header_lines ++ scenario_section ++ footer_lines.
Proof.
  cbv zeta. repeat split; by vm_compute.
Qed.

(** In fallback mode a value that is neither braced nor quoted is read by
    the pattern for numbers, which takes its leading digits only. *)
Example fallback_bare_value :
  parse_fields " year=2023, doi=10.1/xyz" =
  {[ "year" := "2023"; "doi" := "10" ]}.
Proof. by vm_compute. Qed.

(** C5 as stated fails: with the doi written bare, as the specification
    writes it, the fallback parser keeps the digits before the dot only;
    the page has the heading and the tag, its one item ends with the link
    to [10], and the item of the claim is neither a line of the page nor a
    part of the document. *)
Lemma scenario_as_stated_refuted :
  let categories :=
    (parse_bib_entries_sty (fun _ _ => 0%nat) "bib-entries.sty"
       (Some Scenario.sty)).2 in
  let entries :=
    (parse_bibtex false (fun _ => []) "citations.bib"
       (Some Scenario.bib_as_stated)).2 in
  let document := generate_publications_page entries categories in
  map (fun item => (item.1, e_year item.2, e_fields item.2 !! "doi")) entries =
    [("foo2023", 2023%Z, Some "10")]
  /\ map (fun s => (s.1.1, s.1.2, map (fun e => format_publication e s.1.2) s.2))
         (sections entries categories) =
     [("Journal Articles", "journals", [Scenario.item_as_read])]
  /\ Py.contains document "### Journal Articles" = true
  /\ Py.contains document "data-category='journals'" = true
  /\ Py.contains document Scenario.item_as_read = true
  /\ existsb (String.eqb Scenario.item) (page_lines entries categories) = false
  /\ Py.contains document Scenario.item = false.
Proof. cbv zeta. repeat split; by vm_compute. Qed.

(** ** Order within a section (claim C6) *)

Lemma descending_lookup (l : list Entry) (i j : nat) (a b : Entry) :
  descending l -> (i < j)%nat -> l !! i = Some a -> l !! j = Some b ->
  (e_year b <= e_year a)%Z.
Proof.
  unfold descending. intros Hs. revert i j.
  induction Hs as [|x l Hs IH Hall]; intros i j Hij Hi Hj; [done |].
  destruct j as [|j]; [lia |]. simpl in Hj.
  destruct i as [|i]; simpl in Hi.
  - injection Hi as ->. rewrite List.Forall_forall in Hall.
    apply Hall. apply list_elem_of_In. by eapply list_elem_of_lookup_2.
  - apply (IH i j); [lia | done | done].
Qed.

(** C6: the entries of every rendered section, the uncategorized one
    included, are the entries the category scan sent there, each once;
    an entry that stands before another has a year at least as great; and
    the entries of one year stand in the order in which the entry mapping
    was traversed. *)
Theorem buckets_sorted_by_year_stable
    (entries : list (string * Entry)) (categories : list (string * list string))
    (heading cat : string) (bucket : list Entry) :
  In (heading, cat, bucket) (sections entries categories) ->
  let encountered :=
    encounter categories (if String.eqb cat "other" then None else Some cat)
              entries in
  Permutation encountered bucket
  /\ (forall i j a b, (i < j)%nat ->
        bucket !! i = Some a -> bucket !! j = Some b ->
        (e_year b <= e_year a)%Z)
  /\ (forall y, of_year y bucket = of_year y encountered)
  /\ exists before after,
       page_lines entries categories =
       before ++ section_lines heading cat bucket ++ after.
Proof.
  intros Hsec. cbv zeta.
  pose proof (section_in_page _ _ _ _ _ Hsec) as Hpage.
  apply section_inv in Hsec as [_ Hsec].
  assert (bucket =
          sort_by_year
            (encounter categories
               (if String.eqb cat "other" then None else Some cat) entries))
    as ->.
  { destruct Hsec as [(Hcat & _ & ->) | (_ & -> & ->)]; [|done].
    simpl in Hcat. repeat (destruct Hcat as [<- | Hcat]; [done |]). done. }
  split; [apply sort_by_year_perm | split; [|split; [|done]]].
  - intros i j a b. apply descending_lookup, sort_by_year_descending.
  - intros y. apply sort_by_year_stable.
Qed.

Lemma buckets_sorted_by_year_stable_witness :
  map e_key (sort_by_year (map snd Ties.entries)) = ["b"; "a"; "c"]
  /\ forall y,
       of_year y (sort_by_year (map snd Ties.entries)) =
       of_year y (encounter [] None Ties.entries).
Proof.
  split; [by vm_compute |].
  apply (buckets_sorted_by_year_stable Ties.entries []
           "Other Publications" "other" (sort_by_year (map snd Ties.entries))).
  vm_compute. by left.
Defined.

(** ** A missing categorization file (claim C7) *)






(** ** Determinism (claim C8) *)

Lemma same_index_get cat c1 c2 :
  same_index c1 c2 ->
  same_keys (default [] (ODict.get cat c1)) (default [] (ODict.get cat c2)).
Proof.
  induction 1 as [|[k1 s1] [k2 s2] c1 c2 [Hk Hs] _ IH]; simpl; [done |].
  simpl in Hk, Hs. subst k2. by destruct (String.eqb cat k1).
Qed.

Lemma same_index_set cat s1 s2 c1 c2 :
  same_index c1 c2 -> same_keys s1 s2 ->
  same_index (ODict.set cat s1 c1) (ODict.set cat s2 c2).
Proof.
  intros Hc Hs.
  induction Hc as [|[k1 t1] [k2 t2] c1 c2 [Hk Ht] Hc IH]; simpl.
  - constructor; [split; [done | exact Hs] | constructor].
  - simpl in Hk, Ht. subst k2. destruct (String.eqb cat k1).
    + constructor; [split; [done | exact Hs] | exact Hc].
    + constructor; [split; [done | exact Ht] | exact IH].
Qed.

Lemma same_index_find key c1 c2 :
  same_index c1 c2 -> find_category key c1 = find_category key c2.
Proof.
  induction 1 as [|[k1 s1] [k2 s2] c1 c2 [Hk Hs] _ IH]; simpl; [done |].
  simpl in Hk, Hs. subst k2. rewrite (same_keys_mem s1 s2 key Hs).
  by rewrite IH.
Qed.

Lemma same_index_page entries c1 c2 :
  same_index c1 c2 ->
  generate_publications_page entries c1 = generate_publications_page entries c2.
Proof.
  intros Hc. unfold generate_publications_page, page_lines, sections, organize.
  assert (forall acc, fold_left (place c1) entries acc
                      = fold_left (place c2) entries acc) as ->; [|done].
  induction entries as [|[k e] entries IH]; intros [cz un]; [done |].
  simpl. rewrite (same_index_find k c1 c2 Hc). apply IH.
Qed.

Lemma parse_bib_entries_sty_same_index slot1 slot2 file_path file :
  (parse_bib_entries_sty slot1 file_path file).1 =
  (parse_bib_entries_sty slot2 file_path file).1
  /\ same_index (parse_bib_entries_sty slot1 file_path file).2
                (parse_bib_entries_sty slot2 file_path file).2.
Proof.
  destruct file as [content|]; simpl; [|split; [done | constructor]].
  split; [done |].
  assert (forall c1 c2, same_index c1 c2 ->
            forall ms : list Re.captures,
              same_index
                (fold_left
                   (fun categories m =>
                      ODict.set (Re.group 1 m)
                        (PySet.update slot1
                           (List.filter nonempty
                              (map Py.strip (Py.split "," (Re.group 2 m))))
                           (default [] (ODict.get (Re.group 1 m) categories)))
                        categories) ms c1)
                (fold_left
                   (fun categories m =>
                      ODict.set (Re.group 1 m)
                        (PySet.update slot2
                           (List.filter nonempty
                              (map Py.strip (Py.split "," (Re.group 2 m))))
                           (default [] (ODict.get (Re.group 1 m) categories)))
                        categories) ms c2)) as Hfold.
  { intros c1 c2 Hc ms. revert c1 c2 Hc.
    induction ms as [|m ms IH]; intros c1 c2 Hc; [done |].
    simpl. apply IH. apply same_index_set; [done |].
    apply same_keys_update. by apply same_index_get. }
  apply Hfold. constructor.
Qed.

Lemma main_same_slot slot1 slot2 HAS_BIBTEXPARSER bibtexparser_load
    BIB_FILE CATEGORIES_FILE OUTPUT_FILE (fs : gmap string string) :
  main slot1 HAS_BIBTEXPARSER bibtexparser_load
       BIB_FILE CATEGORIES_FILE OUTPUT_FILE fs =
  main slot2 HAS_BIBTEXPARSER bibtexparser_load
       BIB_FILE CATEGORIES_FILE OUTPUT_FILE fs.
Proof.
  unfold main.
  destruct (parse_bib_entries_sty_same_index slot1 slot2 CATEGORIES_FILE
              (fs !! CATEGORIES_FILE)) as [Hwarn Hindex].
  destruct (parse_bib_entries_sty slot1 CATEGORIES_FILE (fs !! CATEGORIES_FILE))
    as [warn1 c1].
  destruct (parse_bib_entries_sty slot2 CATEGORIES_FILE (fs !! CATEGORIES_FILE))
    as [warn1' c2].
  simpl in Hwarn, Hindex. subst warn1'.
  destruct (parse_bibtex HAS_BIBTEXPARSER bibtexparser_load BIB_FILE
              (fs !! BIB_FILE)) as [warn2 entries].
  rewrite (same_index_page entries c1 c2 Hindex).
  by rewrite (Forall2_length _ _ _ Hindex).
Qed.

Lemma main_inputs slot HAS_BIBTEXPARSER bibtexparser_load
    BIB_FILE CATEGORIES_FILE OUTPUT_FILE (fs fs' : gmap string string) :
  fs' !! CATEGORIES_FILE = fs !! CATEGORIES_FILE ->
  fs' !! BIB_FILE = fs !! BIB_FILE ->
  (main slot HAS_BIBTEXPARSER bibtexparser_load
        BIB_FILE CATEGORIES_FILE OUTPUT_FILE fs').1 =
  (main slot HAS_BIBTEXPARSER bibtexparser_load
        BIB_FILE CATEGORIES_FILE OUTPUT_FILE fs).1
  /\ forall content,
       (main slot HAS_BIBTEXPARSER bibtexparser_load
             BIB_FILE CATEGORIES_FILE OUTPUT_FILE fs).2
         = <[OUTPUT_FILE := content]> fs ->
       (main slot HAS_BIBTEXPARSER bibtexparser_load
             BIB_FILE CATEGORIES_FILE OUTPUT_FILE fs').2
         = <[OUTPUT_FILE := content]> fs'.
Proof.
  intros Hc Hb. unfold main. rewrite Hc, Hb.
  destruct (parse_bib_entries_sty slot CATEGORIES_FILE (fs !! CATEGORIES_FILE))
    as [warn1 categories].
  destruct (parse_bibtex HAS_BIBTEXPARSER bibtexparser_load BIB_FILE
              (fs !! BIB_FILE)) as [warn2 entries].
  cbn [fst snd]. split; [done |].
  intros content Hcontent.
  assert (generate_publications_page entries categories = content) as ->; [|done].
  apply (f_equal (fun m => m !! OUTPUT_FILE)) in Hcontent.
  rewrite !lookup_insert_eq in Hcontent. congruence.
Qed.

(** C8: the one thing that differs between two runs on the same files, the
    placement of keys in the hash tables of the sets, has no influence on
    what a run prints and writes; and a second run, on the files the first
    one left, prints and leaves the same again, the output path being
    neither input path. *)
Theorem output_independent_of_hash_seed
    (slot1 slot2 : string -> list string -> nat) (HAS_BIBTEXPARSER : bool)
    (bibtexparser_load : string -> list (gmap string string))
    (BIB_FILE CATEGORIES_FILE OUTPUT_FILE : string)
    (fs : gmap string string) :
  let run slot := main slot HAS_BIBTEXPARSER bibtexparser_load
                    BIB_FILE CATEGORIES_FILE OUTPUT_FILE in
  run slot1 fs = run slot2 fs
  /\ (OUTPUT_FILE <> BIB_FILE -> OUTPUT_FILE <> CATEGORIES_FILE ->
      run slot2 (run slot1 fs).2 = run slot1 fs).
Proof.
  cbv zeta. split; [apply main_same_slot |].
  intros Hbib Hcat.
  rewrite (main_same_slot slot2 slot1).
  set (first := main slot1 HAS_BIBTEXPARSER bibtexparser_load
                  BIB_FILE CATEGORIES_FILE OUTPUT_FILE fs).
  assert (exists content, first.2 = <[OUTPUT_FILE := content]> fs)
    as [content Hcontent].
  { unfold first, main.
    destruct (parse_bib_entries_sty slot1 CATEGORIES_FILE (fs !! CATEGORIES_FILE)),
             (parse_bibtex HAS_BIBTEXPARSER bibtexparser_load BIB_FILE
                (fs !! BIB_FILE)).
    by eexists. }
  destruct (main_inputs slot1 HAS_BIBTEXPARSER bibtexparser_load
              BIB_FILE CATEGORIES_FILE OUTPUT_FILE fs first.2) as [Hlog Hfs].
  { rewrite Hcontent. by apply lookup_insert_ne. }
  { rewrite Hcontent. by apply lookup_insert_ne. }
  specialize (Hfs content Hcontent). fold first in Hlog, Hfs.
  destruct (main slot1 HAS_BIBTEXPARSER bibtexparser_load
              BIB_FILE CATEGORIES_FILE OUTPUT_FILE first.2) as [log' fs'].
  destruct first as [log1 fs1]. simpl in *. subst.
  by rewrite insert_insert_eq.
Qed.

Example placements_differ :
  (parse_bib_entries_sty Seeds.front "bib-entries.sty" (Some Seeds.sty)).2 =
    [("journals", ["c"; "b"; "a"])] /\
  (parse_bib_entries_sty Seeds.back "bib-entries.sty" (Some Seeds.sty)).2 =
    [("journals", ["a"; "b"; "c"])].
Proof. by vm_compute. Qed.

Lemma output_independent_of_hash_seed_witness :
  main Seeds.back false (fun _ => [])
       "citations.bib" "bib-entries.sty" "publications.qmd"
       (main Seeds.front false (fun _ => [])
             "citations.bib" "bib-entries.sty" "publications.qmd" Seeds.fs).2
  = main Seeds.front false (fun _ => [])
         "citations.bib" "bib-entries.sty" "publications.qmd" Seeds.fs.
Proof.
  apply (output_independent_of_hash_seed Seeds.front Seeds.back false
           (fun _ => []) "citations.bib" "bib-entries.sty" "publications.qmd"
           Seeds.fs); done.
Defined.

(** * Further properties *)

Lemma append_length (s t : string) :
  String.length (s +:+ t) = (String.length s + String.length t)%nat.
Proof.
  induction s as [|a s IH]; [done |]. rewrite append_cons. simpl. by rewrite IH.
Qed.

Lemma brace_scan_zero (rest : string) : brace_scan rest 0 = (O, O).
Proof. by destruct rest. Qed.

Lemma brace_scan_sound (rest : string) (d n : nat) :
  brace_scan rest (S d) = (O, n) ->
  exists c post,
    rest = c +:+ "}" +:+ post /\ balanced_from d c = true /\
    n = S (String.length c).
Proof.
  revert d n. induction rest as [|a rest IH]; intros d n; [done |].
  cbn [brace_scan].
  destruct (Ascii.eqb a "{") eqn:Eo.
  - apply Ascii.eqb_eq in Eo. subst a.
    destruct (brace_scan rest (S (S d))) as [final passed] eqn:E.
    intros [= -> <-]. apply IH in E as (c & post & -> & Hb & ->).
    exists (String "{" c), post. by rewrite append_cons.
  - destruct (Ascii.eqb a "}") eqn:Ec.
    + apply Ascii.eqb_eq in Ec. subst a.
      destruct d as [|d].
      * rewrite brace_scan_zero. intros [= <-]. by exists "", rest.
      * destruct (brace_scan rest (S d)) as [final passed] eqn:E.
        intros [= -> <-]. apply IH in E as (c & post & -> & Hb & ->).
        exists (String "}" c), post. by rewrite append_cons.
    + destruct (brace_scan rest (S d)) as [final passed] eqn:E.
      intros [= -> <-]. apply IH in E as (c & post & -> & Hb & ->).
      exists (String a c), post. rewrite append_cons. simpl. by rewrite Eo, Ec.
Qed.

Lemma brace_scan_complete (c post : string) (d : nat) :
  balanced_from d c = true ->
  brace_scan (c +:+ "}" +:+ post) (S d) = (O, S (String.length c)).
Proof.
  revert d. induction c as [|a c IH]; intros d Hb.
  - simpl in Hb. apply Nat.eqb_eq in Hb. subst d.
    rewrite append_empty_l, append_cons, append_empty_l.
    cbn [brace_scan]. change (Ascii.eqb "}" "{") with false.
    change (Ascii.eqb "}" "}") with true. cbv iota.
    by rewrite brace_scan_zero.
  - rewrite append_cons. cbn [brace_scan balanced_from String.length] in *.
    destruct (Ascii.eqb a "{").
    + by rewrite (IH _ Hb).
    + destruct (Ascii.eqb a "}").
      * destruct d as [|d]; [done |]. by rewrite (IH _ Hb).
      * by rewrite (IH _ Hb).
Qed.

Lemma get_split (n : nat) (s : string) (a : ascii) :
  String.get n s = Some a ->
  exists pre, s = pre +:+ String a (behind (S n) s) /\ String.length pre = n.
Proof.
  revert s. induction n as [|n IH]; intros [|b s]; simpl; try done.
  - intros [= ->]. by exists "".
  - intros H. apply IH in H as (pre & Hs & Hlen).
    exists (String b pre). split; [|simpl; by rewrite Hlen].
    rewrite append_cons. f_equal. exact Hs.
Qed.

Lemma get_app (pre s : string) :
  String.get (String.length pre) (pre +:+ s) = String.get 0 s.
Proof. induction pre as [|b pre IH]; [done |]. by rewrite append_cons. Qed.

Lemma behind_app (pre s : string) :
  behind (String.length pre) (pre +:+ s) = s.
Proof. induction pre as [|b pre IH]; [by destruct s |]. by rewrite append_cons. Qed.

Lemma substring_app (pre s : string) (m : nat) :
  String.substring (String.length pre) m (pre +:+ s) = String.substring 0 m s.
Proof. induction pre as [|b pre IH]; [done |]. by rewrite append_cons. Qed.

Lemma substring_prefix (c s : string) :
  String.substring 0 (String.length c) (c +:+ s) = c.
Proof.
  induction c as [|b c IH]; [by destruct s |].
  rewrite append_cons. simpl. by rewrite IH.
Qed.

(** The text behind a position, one character at a time. *)
Lemma behind_step (pos : nat) (text : string) (a : ascii) (rest : string) :
  behind pos text = String a rest ->
  String.get pos text = Some a /\ behind (S pos) text = rest.
Proof.
  revert text. induction pos as [|pos IH]; intros [|b text]; simpl; try done.
  - by intros [= -> ->].
  - apply IH.
Qed.

Lemma behind_length (pos : nat) (text : string) :
  String.length (behind pos text) = (String.length text - pos)%nat.
Proof.
  revert text. induction pos as [|pos IH]; intros [|b text]; simpl;
    try done; try lia.
Qed.

Lemma py_index_nat (text : string) (pos : nat) :
  py_index text (Z.of_nat pos) = String.get pos text.
Proof.
  unfold py_index. destruct (Z.ltb_spec (Z.of_nat pos) 0) as [H|H]; [lia |].
  by rewrite Nat2Z.id.
Qed.

(** From a position of the text on, the loop of the script is the loop on
    the text that is left; in particular it raises no error. *)
Lemma brace_loop_scan (text : string) (fuel pos depth : nat) :
  fuel = String.length (behind pos text) ->
  brace_loop text fuel (Z.of_nat pos) depth =
  Some ((brace_scan (behind pos text) depth).1,
        Z.of_nat (pos + (brace_scan (behind pos text) depth).2)).
Proof.
  revert pos depth. induction fuel as [|fuel IH]; intros pos depth Hfuel.
  - destruct (behind pos text) as [|a rest]; [|done].
    destruct depth as [|below]; simpl; do 2 f_equal; lia.
  - destruct (behind pos text) as [|a rest] eqn:E; [done |].
    apply behind_step in E as [Hget Hrest].
    destruct depth as [|below]; [simpl; do 2 f_equal; lia |].
    cbn [brace_loop brace_scan]. rewrite py_index_nat, Hget. cbv zeta.
    replace (Z.of_nat pos + 1)%Z with (Z.of_nat (S pos)) by lia.
    rewrite IH by (rewrite Hrest; simpl in Hfuel; lia).
    rewrite Hrest.
    destruct (brace_scan rest _) as [final passed]. cbn [fst snd].
    do 2 f_equal. lia.
Qed.

Lemma py_slice_nat (text : string) (i j : nat) :
  (i <= j <= String.length text)%nat ->
  py_slice text (Z.of_nat i) (Z.of_nat j) = String.substring i (j - i) text.
Proof.
  intros H. unfold py_slice, py_slice_bound. cbv zeta.
  destruct (Z.ltb_spec (Z.of_nat i) 0) as [Hi|Hi]; [lia |].
  destruct (Z.ltb_spec (Z.of_nat j) 0) as [Hj|Hj]; [lia |].
  rewrite !Z.min_l by lia. f_equal; lia.
Qed.

(** The script's function from a start position that is not negative, by
    the loop on the text that is left. *)
Lemma extract_from_start (text : string) (start : nat) :
  extract_braced_content text (Z.of_nat start) =
  Some
    match String.get start text with
    | Some a =>
        if Ascii.eqb a "{" then
          let '(depth, passed) := brace_scan (behind (S start) text) 1 in
          if Nat.eqb depth 0
          then (Some (String.substring (S start) (passed - 1) text),
                Z.of_nat (S start + passed))
          else (None, Z.of_nat start)
        else (None, Z.of_nat start)
    | None => (None, Z.of_nat start)
    end.
Proof.
  unfold extract_braced_content. cbv zeta.
  destruct (Z.leb_spec (Z.of_nat (String.length text)) (Z.of_nat start))
    as [Hout|Hin].
  - destruct (String.get start text) as [a|] eqn:Hget; [|done].
    apply get_split in Hget as (pre & Htext & Hlen).
    apply (f_equal String.length) in Htext.
    rewrite append_length in Htext. simpl in Htext. lia.
  - rewrite py_index_nat.
    destruct (String.get start text) as [a|] eqn:Hget.
    2:{ exfalso. revert Hin Hget. clear. revert text.
        induction start as [|start IH]; intros [|b text]; simpl; try done;
          try lia.
        intros H. apply IH. lia. }
    destruct (Ascii.eqb a "{") eqn:Ea; [|done]. cbn [negb].
    replace (Z.of_nat start + 1)%Z with (Z.of_nat (S start)) by lia.
    rewrite brace_loop_scan by (rewrite behind_length; lia).
    destruct (brace_scan (behind (S start) text) 1) as [depth passed] eqn:E.
    cbn [fst snd]. destruct (Nat.eqb depth 0) eqn:Ed; [|done].
    apply Nat.eqb_eq in Ed. subst depth.
    pose proof E as Hsound.
    apply brace_scan_sound in Hsound as (c & post & Hrest & _ & ->).
    assert (S start + S (String.length c) <= String.length text)%nat as Hlen.
    { pose proof (behind_length (S start) text) as Hb. rewrite Hrest in Hb.
      rewrite !append_length in Hb. simpl in Hb. lia. }
    replace (Z.of_nat (S start + S (String.length c)) - 1)%Z
      with (Z.of_nat (S start + String.length c)) by lia.
    rewrite py_slice_nat by lia.
    replace (S start + String.length c - S start)%nat
      with (S (String.length c) - 1)%nat by lia.
    done.
Qed.

Lemma extract_complete (pre c post : string) :
  balanced c = true ->
  extract_braced_content (pre +:+ "{" +:+ c +:+ "}" +:+ post)
                         (Z.of_nat (String.length pre))
  = Some (Some c, Z.of_nat (String.length pre + String.length c + 2)).
Proof.
  intros Hb. rewrite extract_from_start. f_equal.
  assert (pre +:+ "{" +:+ c +:+ "}" +:+ post
          = (pre +:+ "{") +:+ c +:+ "}" +:+ post) as Htext
    by (by rewrite append_assoc).
  assert (String.length (pre +:+ "{") = S (String.length pre)) as Hlen
    by (rewrite append_length; simpl; lia).
  assert (String.get (String.length pre) (pre +:+ "{" +:+ c +:+ "}" +:+ post)
          = Some "{"%char) as -> by (by rewrite get_app).
  change (Ascii.eqb "{" "{") with true. cbv iota.
  rewrite Htext, <- Hlen, behind_app, (brace_scan_complete c post 0 Hb).
  cbn [Nat.eqb]. f_equal.
  - f_equal.
    replace (S (String.length c) - 1)%nat with (String.length c) by lia.
    rewrite substring_app. apply substring_prefix.
  - f_equal. lia.
Qed.

Lemma extract_sound (text : string) (start_pos : Z) (c : string) (p : Z) :
  (0 <= start_pos)%Z ->
  extract_braced_content text start_pos = Some (Some c, p) ->
  exists pre post,
    text = pre +:+ "{" +:+ c +:+ "}" +:+ post /\
    Z.of_nat (String.length pre) = start_pos /\ balanced c = true /\
    p = (start_pos + Z.of_nat (String.length c) + 2)%Z.
Proof.
  intros Hstart. rewrite <- (Z2Nat.id start_pos Hstart).
  generalize (Z.to_nat start_pos) as start. clear. intros start.
  rewrite extract_from_start.
  destruct (String.get start text) as [a|] eqn:Hget; [|done].
  destruct (Ascii.eqb a "{") eqn:Ea; [|done].
  apply Ascii.eqb_eq in Ea. subst a.
  apply get_split in Hget as (pre & Htext & Hlen).
  destruct (brace_scan (behind (S start) text) 1) as [depth passed] eqn:E.
  destruct (Nat.eqb depth 0) eqn:Ed; [|done].
  apply Nat.eqb_eq in Ed. subst depth.
  apply brace_scan_sound in E as (c' & post & Hrest & Hb & ->).
  assert (text = (pre +:+ "{") +:+ c' +:+ "}" +:+ post) as Htext'.
  { rewrite Htext at 1. rewrite Hrest. by rewrite append_assoc. }
  assert (forall m, m = String.length c' ->
            String.substring (S start) m text = c') as Hsub.
  { intros m ->. rewrite Htext'.
    replace (S start) with (String.length (pre +:+ "{"))
      by (rewrite append_length; simpl; lia).
    rewrite substring_app. apply substring_prefix. }
  rewrite Hsub by lia.
  intros [= <- <-]. exists pre, post.
  split; [by rewrite Htext', append_assoc | split; [lia | split; [done | lia]]].
Qed.

Lemma extract_returns (text : string) (start_pos : Z) :
  (0 <= start_pos)%Z ->
  exists r, extract_braced_content text start_pos = Some r /\
            (r.1 = None -> r.2 = start_pos).
Proof.
  intros Hstart. rewrite <- (Z2Nat.id start_pos Hstart).
  generalize (Z.to_nat start_pos) as start. clear. intros start.
  rewrite extract_from_start. eexists. split; [done |].
  destruct (String.get start text) as [a|]; [|done].
  destruct (Ascii.eqb a "{"); [|done].
  destruct (brace_scan _ _) as [depth passed].
  by destruct (Nat.eqb depth 0).
Qed.

Lemma flat_map_section_of (order : list string) (name : string -> string)
    (bucket : string -> list Entry) :
  Permutation
    (flat_map (fun s : string * string * list Entry => s.2)
       (omap (fun cat => section_of (name cat) cat (bucket cat)) order))
    (flat_map bucket order).
Proof.
  induction order as [|cat order IH]; [done |]. csimpl.
  unfold section_of at 1. destruct (bucket cat) as [|e l] eqn:E.
  - exact IH.
  - cbn [flat_map snd]. apply Permutation_app; [|exact IH].
    symmetry. apply sort_by_year_perm.
Qed.

Lemma flat_map_if_one (order : list string) (target : option string) (e : Entry) :
  NoDup order ->
  flat_map (fun cat => if bool_decide (target = Some cat) then [e] else []) order
  = match target with
    | Some cat => if existsb (String.eqb cat) order then [e] else []
    | None => []
    end.
Proof.
  induction order as [|c order IH]; intros Hnd.
  - by destruct target.
  - apply NoDup_cons in Hnd as [Hc Hnd]. cbn [flat_map existsb].
    rewrite (IH Hnd). destruct target as [cat|]; [|done].
    case_bool_decide as Heq.
    + injection Heq as ->. rewrite String.eqb_refl. simpl.
      destruct (existsb (String.eqb c) order) eqn:Ex; [|done].
      exfalso. apply Hc. apply existsb_exists in Ex as (x & Hx & Heq).
      apply String.eqb_eq in Heq. subst x. by apply list_elem_of_In.
    + destruct (String.eqb cat c) eqn:E; [|done].
      apply String.eqb_eq in E. congruence.
Qed.

Lemma flat_map_app_perm {A B : Type} (f g : A -> list B) (l : list A) :
  Permutation (flat_map (fun x => f x ++ g x) l) (flat_map f l ++ flat_map g l).
Proof.
  induction l as [|x l IH]; [done |]. cbn [flat_map]. rewrite IH.
  rewrite <- !app_assoc. apply Permutation_app_head.
  rewrite !app_assoc. apply Permutation_app_tail. apply Permutation_app_comm.
Qed.

Lemma category_order_NoDup : NoDup category_order.
Proof. apply (bool_decide_unpack _). by vm_compute. Qed.

Lemma encounter_partition categories entries :
  Permutation
    (flat_map (fun cat => encounter categories (Some cat) entries) category_order
     ++ encounter categories None entries)
    (map snd (List.filter (fun item => shown categories item.1) entries)).
Proof.
  induction entries as [|[k e] entries IH].
  - by vm_compute.
  - rewrite (flat_map_ext _ _
               (fun cat => encounter_cons categories (Some cat) k e entries)).
    rewrite flat_map_app_perm, (flat_map_if_one _ _ _ category_order_NoDup).
    rewrite encounter_cons. cbn [List.filter fst]. unfold shown at 1.
    destruct (find_category k categories) as [cat|] eqn:Efind.
    + rewrite bool_decide_eq_false_2 by done. cbn [app].
      destruct (existsb (String.eqb cat) category_order).
      * cbn [map snd app]. by rewrite <- IH.
      * cbn [app]. exact IH.
    + rewrite bool_decide_eq_true_2 by done. cbn [app map snd].
      rewrite <- IH. symmetry. apply Permutation_middle.
Qed.

Lemma rendered_entries_perm entries categories :
  Permutation (rendered_entries entries categories)
    (map snd (List.filter (fun item => shown categories item.1) entries)).
Proof.
  unfold rendered_entries. rewrite sections_spec, flat_map_app.
  rewrite flat_map_section_of, <- encounter_partition.
  apply Permutation_app_head.
  unfold section_of. destruct (encounter categories None entries) as [|e l] eqn:E.
  - done.
  - change (sort_by_year (e :: l) ++ [] ≡ₚ e :: l).
    rewrite app_nil_r. symmetry. apply sort_by_year_perm.
Qed.

Lemma omap_tags_sublist (order : list string) (name : string -> string)
    (bucket : string -> list Entry) :
  sublist
    (map (fun s : string * string * list Entry => s.1.2)
       (omap (fun cat => section_of (name cat) cat (bucket cat)) order))
    order.
Proof.
  induction order as [|cat order IH]; [constructor |]. csimpl.
  unfold section_of at 1. destruct (bucket cat).
  - by apply sublist_cons.
  - cbn [map fst snd]. by apply sublist_skip.
Qed.

Lemma section_tags_sublist entries categories :
  sublist (section_tags entries categories) (category_order ++ ["other"]).
Proof.
  unfold section_tags. rewrite sections_spec, map_app.
  apply sublist_app; [apply omap_tags_sublist |].
  unfold section_of. destruct (encounter categories None entries).
  - apply sublist_nil_l.
  - done.
Qed.

(** *** [strip] and [lower] *)



Lemma lstrip_id s : starts_clean s = true -> Py.lstrip s = s.
Proof. destruct s as [|c s]; [done |]. simpl. by destruct (Py.isspace c). Qed.


Lemma rstrip_idem s : Py.rstrip (Py.rstrip s) = Py.rstrip s.
Proof.
  induction s as [|c s IH]; [done |]. cbn [Py.rstrip].
  destruct (Py.rstrip s) as [|c' r'] eqn:E.
  - destruct (Py.isspace c) eqn:Ec; [done |]. simpl. by rewrite Ec.
  - change (Py.rstrip (String c (String c' r')))
      with (match Py.rstrip (String c' r') with
            | EmptyString =>
                if Py.isspace c then EmptyString else String c EmptyString
            | String a r'' => String c (String a r'')
            end).
    by rewrite IH.
Qed.

Lemma strip_idem s : Py.strip (Py.strip s) = Py.strip s.
Proof.
  unfold Py.strip.
  rewrite (lstrip_id (Py.rstrip (Py.lstrip s))).
  - apply rstrip_idem.
  - apply rstrip_starts_clean, lstrip_starts_clean.
Qed.

Lemma to_lower_idem c : Py.to_lower (Py.to_lower c) = Py.to_lower c.
Proof. destruct c as [[] [] [] [] [] [] [] []]; reflexivity. Qed.

Lemma lower_idem s : Py.lower (Py.lower s) = Py.lower s.
Proof.
  induction s as [|c s IH]; [done |]. unfold Py.lower in *. simpl.
  by rewrite to_lower_idem, IH.
Qed.

Lemma has_char_lstrip ch s :
  has_char ch (Py.lstrip s) = true -> has_char ch s = true.
Proof.
  induction s as [|c s IH]; [done |]. simpl.
  destruct (Py.isspace c); [|done].
  intros H. rewrite (IH H). apply orb_true_r.
Qed.

Lemma has_char_rstrip ch s :
  has_char ch (Py.rstrip s) = true -> has_char ch s = true.
Proof.
  induction s as [|c s IH]; [done |]. cbn [Py.rstrip has_char].
  destruct (Py.rstrip s) as [|c' r'].
  - destruct (Py.isspace c); [done |]. simpl. rewrite orb_false_r.
    intros ->. done.
  - cbn [has_char] in *. intros H. apply orb_true_iff in H as [H | H].
    + by rewrite H.
    + rewrite (IH H). apply orb_true_r.
Qed.

Lemma has_char_strip ch s :
  has_char ch s = false -> has_char ch (Py.strip s) = false.
Proof.
  intros H. apply not_true_is_false. intros Hs. unfold Py.strip in Hs.
  apply has_char_rstrip, has_char_lstrip in Hs. congruence.
Qed.

(** The pieces of a text split at the commas hold no comma. *)
Lemma split_comma_free s :
  Forall (fun p => has_char "," p = false) (Py.split "," s).
Proof.
  unfold Py.split.
  assert (has_char "," (Py.split_from "," 0 s).1 = false /\
          Forall (fun p => has_char "," p = false) (Py.split_from "," 0 s).2)
    as [H1 H2].
  { induction s as [|c s [IH1 IH2]]; [by split |].
    cbn [Py.split_from].
    change (String.prefix "," (String c s))
      with (if ascii_dec "," c then String.prefix "" s else false).
    destruct (ascii_dec "," c) as [<-|Hne].
    - replace (String.prefix "" s) with true by (by destruct s).
      change (String.length "," - 1)%nat with 0%nat.
      destruct (Py.split_from "," 0 s) as [p ps]. simpl in *.
      split; [done | by constructor].
    - destruct (Py.split_from "," 0 s) as [p ps]. simpl in *.
      split; [|done]. rewrite IH1, orb_false_r.
      apply Ascii.eqb_neq. congruence. }
  destruct (Py.split_from "," 0 s) as [p ps]. by constructor.
Qed.

Lemma directive_keys_clean (body : string) (k : string) :
  In k (List.filter nonempty (map Py.strip (Py.split "," body))) ->
  clean_key k.
Proof.
  intros H. apply filter_In in H as [H Hne].
  apply in_map_iff in H as (x & <- & Hx).
  split; [by destruct (Py.strip x) | split; [apply strip_idem |]].
  apply has_char_strip.
  pose proof (split_comma_free body) as Hall.
  rewrite List.Forall_forall in Hall. by apply Hall.
Qed.

(** *** The category index as a fold over the directives *)

Lemma fold_left_map' {A B C : Type} (f : A -> C -> A) (g : B -> C)
    (l : list B) (a : A) :
  fold_left f (map g l) a = fold_left (fun a x => f a (g x)) l a.
Proof. revert a. induction l as [|x l IH]; intros a; [done | apply IH]. Qed.

Lemma parse_bib_entries_sty_directives slot file_path content :
  (parse_bib_entries_sty slot file_path (Some content)).2 =
  fold_left (index_step slot) (directives content) [].
Proof. unfold directives. by rewrite fold_left_map'. Qed.

Lemma index_fold_snoc slot ds d acc :
  fold_left (index_step slot) (ds ++ [d]) acc =
  index_step slot (fold_left (index_step slot) ds acc) d.
Proof. by rewrite fold_left_app. Qed.

Lemma index_step_get slot categories d cat :
  default [] (ODict.get cat (index_step slot categories d)) =
  if String.eqb d.1 cat
  then PySet.update slot d.2 (default [] (ODict.get cat categories))
  else default [] (ODict.get cat categories).
Proof.
  unfold index_step. destruct (String.eqb d.1 cat) eqn:E.
  - apply String.eqb_eq in E. subst cat. by rewrite get_set_same.
  - apply String.eqb_neq in E. by rewrite get_set_other.
Qed.

Lemma index_fold_In slot ds cat key :
  In key (default [] (ODict.get cat (fold_left (index_step slot) ds []))) <->
  exists keys, In (cat, keys) ds /\ In key keys.
Proof.
  induction ds as [|d ds IH] using rev_ind.
  - simpl. split; [done | by intros (? & [] & _)].
  - rewrite index_fold_snoc, index_step_get.
    destruct (String.eqb d.1 cat) eqn:E.
    + apply String.eqb_eq in E. rewrite In_update, IH. split.
      * intros [H | (keys & Hin & Hk)].
        -- exists d.2. split; [|done]. apply in_app_iff. right. left.
           destruct d. simpl in *. by subst.
        -- exists keys. split; [|done]. apply in_app_iff. by left.
      * intros (keys & Hin & Hk). apply in_app_iff in Hin as [Hin | [-> | []]].
        -- right. by exists keys.
        -- by left.
    + apply String.eqb_neq in E. rewrite IH. split.
      * intros (keys & Hin & Hk). exists keys. split; [|done].
        apply in_app_iff. by left.
      * intros (keys & Hin & Hk). apply in_app_iff in Hin as [Hin | [-> | []]].
        -- by exists keys.
        -- done.
Qed.

Lemma index_fold_get_None slot ds cat :
  ODict.get cat (fold_left (index_step slot) ds []) = None <->
  ~ In cat (map fst ds).
Proof.
  induction ds as [|d ds IH] using rev_ind; [simpl; intuition |].
  rewrite index_fold_snoc, map_app, in_app_iff. unfold index_step.
  destruct (String.eqb d.1 cat) eqn:E.
  - apply String.eqb_eq in E. subst cat. rewrite get_set_same.
    split; [done |]. intros H. exfalso. apply H. right. by left.
  - apply String.eqb_neq in E. rewrite get_set_other by done. rewrite IH.
    simpl. split; [|tauto]. intros H [H' | [H' | []]]; tauto.
Qed.

Lemma index_fold_NoDup slot ds :
  NoDup (ODict.keys (fold_left (index_step slot) ds [])).
Proof.
  induction ds as [|d ds IH] using rev_ind; [constructor |].
  rewrite index_fold_snoc. by apply NoDup_keys_set.
Qed.

Lemma insert_at_perm n x s : Permutation (x :: s) (PySet.insert_at n x s).
Proof.
  revert n. induction s as [|y s IH]; intros n; [done |]. simpl.
  destruct n as [|n]; [done |]. rewrite perm_swap. by constructor.
Qed.

Lemma add_NoDup slot x s : NoDup s -> NoDup (PySet.add slot x s).
Proof.
  intros Hnd. unfold PySet.add. destruct (PySet.mem x s) eqn:Hm; [done |].
  rewrite <- insert_at_perm. apply NoDup_cons. split; [|done].
  intros Hin. apply list_elem_of_In, mem_In in Hin. congruence.
Qed.

Lemma update_NoDup slot xs s : NoDup s -> NoDup (PySet.update slot xs s).
Proof.
  unfold PySet.update. revert s.
  induction xs as [|x xs IH]; intros s Hnd; [done |].
  simpl. by apply IH, add_NoDup.
Qed.

Lemma In_set {V : Type} (k k' : string) (v v' : V) (d : list (string * V)) :
  In (k', v') (ODict.set k v d) -> (k' = k /\ v' = v) \/ In (k', v') d.
Proof.
  induction d as [|[k0 v0] d IH]; simpl.
  - intros [[= <- <-] | []]. by left.
  - destruct (String.eqb k k0) eqn:E.
    + apply String.eqb_eq in E. subst k0.
      intros [[= <- <-] | H]; [by left | right; by right].
    + intros [H | H]; [right; by left |].
      destruct (IH H) as [? | ?]; [by left | right; by right].
Qed.

Lemma index_fold_sets_NoDup slot ds cat s :
  In (cat, s) (fold_left (index_step slot) ds []) -> NoDup s.
Proof.
  revert cat s. induction ds as [|d ds IH] using rev_ind; intros cat s; [done |].
  rewrite index_fold_snoc.
  set (acc := fold_left (index_step slot) ds []) in *.
  unfold index_step. intros H.
  apply In_set in H as [[_ ->] | H]; [|by apply (IH cat)].
  apply update_NoDup.
  destruct (ODict.get d.1 acc) as [s0|] eqn:E.
  - simpl. apply get_In in E. by apply (IH d.1).
  - constructor.
Qed.

(** *** What the parser stores *)

Lemma parse_fields_normal (fields_str name value : string) :
  parse_fields fields_str !! name = Some value ->
  Py.lower name = name /\ Py.strip value = value.
Proof.
  unfold parse_fields.
  assert (forall (patterns : list Re.regex) (acc : gmap string string),
            map_Forall (fun n v => Py.lower n = n /\ Py.strip v = v) acc ->
            map_Forall (fun n v => Py.lower n = n /\ Py.strip v = v)
              (fold_left
                 (fun fields pattern =>
                    fold_left
                      (fun fields field_match =>
                         <[Py.lower (Re.group 1 field_match) :=
                             Py.strip (Pat.unbrace (Re.group 2 field_match))]>
                           fields)
                      (Re.finditer pattern fields_str) fields)
                 patterns acc)) as Hfold.
  { induction patterns as [|p patterns IH]; intros acc Hacc; [done |].
    simpl. apply IH. clear IH.
    generalize (Re.finditer p fields_str). intros ms. revert acc Hacc.
    induction ms as [|m ms IH]; intros acc Hacc; [done |].
    simpl. apply IH. apply map_Forall_insert_2; [|done].
    split; [apply lower_idem | apply strip_idem]. }
  intros H. apply (Hfold Pat.field_patterns ∅ (map_Forall_empty _) name value H).
Qed.

Lemma stored_entry HAS_BIBTEXPARSER bibtexparser_load file_path content key e :
  In (key, e)
     (parse_bibtex HAS_BIBTEXPARSER bibtexparser_load file_path (Some content)).2 ->
  e_key e = key /\ Py.lower (e_type e) = e_type e /\
  (HAS_BIBTEXPARSER = false ->
   Py.strip key = key /\
   forall name value, e_fields e !! name = Some value ->
     Py.lower name = name /\ Py.strip value = value).
Proof.
  simpl. intros Hin.
  apply add_records_In in Hin as (r & Hr & -> & <- & _).
  unfold bib_records in Hr. destruct HAS_BIBTEXPARSER.
  - apply in_map_iff in Hr as (entry & <- & _). simpl.
    split; [done | split; [apply lower_idem | done]].
  - unfold fallback_records in Hr. apply in_map_iff in Hr as (m & <- & _).
    simpl. split; [done | split; [apply lower_idem |]].
    intros _. split; [apply strip_idem |]. apply parse_fields_normal.
Qed.

(** *** Runs *)

Lemma sections_no_entries categories : sections [] categories = [].
Proof. reflexivity. Qed.


(** *** When the scan follows the display order *)

Lemma find_ext_in {A : Type} (f g : A -> bool) (l : list A) :
  (forall a, In a l -> f a = g a) -> List.find f l = List.find g l.
Proof.
  induction l as [|x l IH]; intros H; [done |]. simpl.
  rewrite (H x) by (by left). destruct (g x); [done |].
  apply IH. intros a Ha. apply H. by right.
Qed.

Lemma find_category_in_order (key : string) (order : list string)
    (categories : list (string * list string)) :
  NoDup order ->
  sublist (ODict.keys categories) order ->
  find_category key categories =
  List.find (fun cat => PySet.mem key (default [] (ODict.get cat categories)))
            order.
Proof.
  intros Hnd. revert categories.
  induction order as [|x order IH]; intros categories Hsub.
  - apply sublist_nil_r in Hsub. by destruct categories.
  - apply NoDup_cons in Hnd as [Hx Hnd].
    apply sublist_cons_r in Hsub as [Hsub | (keys' & Hkeys & Hsub)].
    + cbn [List.find].
      assert (ODict.get x categories = None) as ->.
      { apply get_None_keys. intros Hin. apply Hx.
        apply list_elem_of_In in Hin. by apply (sublist_subseteq _ _ Hsub). }
      simpl. by apply IH.
    + destruct categories as [|[c s] categories]; [done |].
      unfold ODict.keys in Hkeys. simpl in Hkeys. injection Hkeys as -> <-.
      cbn [List.find find_category ODict.get]. rewrite String.eqb_refl.
      simpl. destruct (PySet.mem key s); [done |].
      rewrite (IH Hnd categories Hsub).
      apply find_ext_in. intros a Ha.
      destruct (String.eqb a x) eqn:E; [|done].
      apply String.eqb_eq in E. subst a. exfalso. apply Hx.
      by apply list_elem_of_In.
Qed.

(** *** Matching *)


Lemma begins_with_lit ch l rest :
  begins_with ch (Re.seqs (Re.lit (String ch l) :: rest)).
Proof.
  intros s H. destruct s as [|a s]; [done |].
  destruct (Ascii.eqb ch a) eqn:E.
  - apply Ascii.eqb_eq in E. subst a. by exists s.
  - exfalso. apply H. unfold Re.match_here. simpl. by rewrite E.
Qed.

Lemma begins_with_addtocategory : begins_with "\" Pat.addtocategory.
Proof. apply begins_with_lit. Qed.

Lemma begins_with_comment : begins_with "%" Pat.comment.
Proof. apply begins_with_lit. Qed.

Lemma begins_with_entry : begins_with "@" Pat.entry_pattern.
Proof. apply begins_with_lit. Qed.

Lemma begins_with_braces : begins_with "{" Pat.braces.
Proof. apply begins_with_lit. Qed.

Lemma scan_fuel_no_char ch r s fuel :
  begins_with ch r -> has_char ch s = false ->
  (String.length s < fuel)%nat ->
  Re.scan_fuel fuel r s = unmatched s.
Proof.
  intros Hr. revert fuel. induction s as [|a s IH]; intros fuel Hs Hfuel.
  - destruct fuel as [|fuel]; [simpl in Hfuel; lia |]. simpl.
    destruct (Re.match_here r "") as [[n c]|] eqn:E; [|done].
    destruct (Hr "") as [s' Hs']; [by rewrite E | done].
  - destruct fuel as [|fuel]; [simpl in Hfuel; lia |].
    simpl in Hs. apply orb_false_iff in Hs as [Ha Hs].
    cbn [Re.scan_fuel].
    destruct (Re.match_here r (String a s)) as [[n c]|] eqn:E.
    + destruct (Hr (String a s)) as [s' Hs']; [by rewrite E |].
      injection Hs' as -> _. by rewrite Ascii.eqb_refl in Ha.
    + simpl. f_equal. apply IH; [done | simpl in Hfuel; lia].
Qed.

Lemma scan_no_char ch r s :
  begins_with ch r -> has_char ch s = false -> Re.scan r s = unmatched s.
Proof. intros Hr Hs. apply (scan_fuel_no_char ch); [done | done | lia]. Qed.

Lemma finditer_no_char ch r s :
  begins_with ch r -> has_char ch s = false -> Re.finditer r s = [].
Proof.
  intros Hr Hs. unfold Re.finditer. rewrite (scan_no_char ch) by done.
  clear. induction s as [|a s IH]; [done |]. exact IH.
Qed.

Lemma sub_no_char ch r repl s :
  begins_with ch r -> has_char ch s = false -> Re.sub r repl s = s.
Proof.
  intros Hr Hs. unfold Re.sub. rewrite (scan_no_char ch) by done.
  clear. induction s as [|a s IH]; [done |]. simpl. by rewrite IH.
Qed.

Lemma has_char_substring ch n m s :
  has_char ch (String.substring n m s) = true -> has_char ch s = true.
Proof.
  revert n m. induction s as [|a s IH]; intros n m.
  - by destruct n, m.
  - destruct n as [|n]; simpl.
    + destruct m as [|m]; simpl; [done |].
      intros H. apply orb_true_iff in H as [-> | H]; [done |].
      rewrite (IH _ _ H). apply orb_true_r.
    + intros H. rewrite (IH _ _ H). apply orb_true_r.
Qed.

(** Deleting matches brings in no character. *)
Lemma has_char_delete ch r s :
  has_char ch (Re.sub r (fun _ => "") s) = true -> has_char ch s = true.
Proof.
  unfold Re.sub, Re.scan. generalize (S (String.length s)). intros fuel.
  revert s. induction fuel as [|fuel IH]; intros s; [done |].
  cbn [Re.scan_fuel].
  destruct (Re.match_here r s) as [[[|n] c]|].
  - destruct s as [|a s]; [done |]. simpl.
    intros H. apply orb_true_iff in H as [-> | H]; [done |].
    rewrite (IH _ H). apply orb_true_r.
  - simpl. intros H. apply IH in H. by apply has_char_substring in H.
  - destruct s as [|a s]; [done |]. simpl.
    intros H. apply orb_true_iff in H as [-> | H]; [done |].
    rewrite (IH _ H). apply orb_true_r.
Qed.

(** *** Repetition over a character class *)


Lemma star_loop_S greedy step k fuel s c :
  star_loop greedy step k (S fuel) s c =
  let again :=
    step s c (fun s' c' =>
      if Nat.ltb (String.length s') (String.length s)
      then star_loop greedy step k fuel s' c' else None) in
  if greedy
  then match again with Some x => Some x | None => k s c end
  else match k s c with Some x => Some x | None => again end.
Proof. reflexivity. Qed.

Lemma star_loop_O greedy step k s c : star_loop greedy step k 0 s c = k s c.
Proof. reflexivity. Qed.

Lemma run_star greedy r s c k :
  Re.run (Re.Star greedy r) s c k =
  star_loop greedy (Re.run r) k (String.length s) s c.
Proof. reflexivity. Qed.

Lemma run_seq r1 r2 s c k :
  Re.run (Re.Seq r1 r2) s c k = Re.run r1 s c (fun s' c' => Re.run r2 s' c' k).
Proof. reflexivity. Qed.

Lemma run_group n r s c k :
  Re.run (Re.Group n r) s c k =
  Re.run r s c (fun s' c' => k s' ((n, Re.consumed s s') :: c')).
Proof. reflexivity. Qed.

Lemma run_eps s c k : Re.run Re.Eps s c k = k s c.
Proof. reflexivity. Qed.

Lemma run_chr p a s c k :
  Re.run (Re.Chr p) (String a s) c k = if p a then k s c else None.
Proof. reflexivity. Qed.

Lemma run_lit l s c k : Re.run (Re.lit l) (l +:+ s) c k = k s c.
Proof.
  induction l as [|a l IH]; [done |].
  rewrite append_cons. cbn [Re.lit]. rewrite run_seq, run_chr.
  by rewrite Ascii.eqb_refl, IH.
Qed.


Lemma star_loop_greedy p w t c k x fuel :
  all_chars p w = true -> stops p t = true -> k t c = Some x ->
  (String.length (w +:+ t) <= fuel)%nat ->
  star_loop true (Re.run (Re.Chr p)) k fuel (w +:+ t) c = Some x.
Proof.
  intros Hw Ht Hk. revert fuel. induction w as [|a w IH]; intros fuel Hfuel.
  - rewrite append_empty_l. destruct fuel as [|fuel]; [done |].
    rewrite star_loop_S. cbv zeta. destruct t as [|b t]; [by rewrite Hk |].
    rewrite run_chr. simpl in Ht. apply negb_true_iff in Ht. by rewrite Ht, Hk.
  - simpl in Hw. apply andb_true_iff in Hw as [Ha Hw].
    rewrite append_cons in *. simpl in Hfuel.
    destruct fuel as [|fuel]; [lia |].
    rewrite star_loop_S. cbv zeta. rewrite run_chr, Ha.
    replace (Nat.ltb (String.length (w +:+ t))
                     (String.length (String a (w +:+ t)))) with true
      by (symmetry; apply Nat.ltb_lt; simpl; lia).
    by rewrite (IH Hw fuel) by lia.
Qed.

Lemma run_star_greedy p w t c k x :
  all_chars p w = true -> stops p t = true -> k t c = Some x ->
  Re.run (Re.star (Re.Chr p)) (w +:+ t) c k = Some x.
Proof.
  intros. unfold Re.star. rewrite run_star. by apply star_loop_greedy.
Qed.

Lemma run_plus_greedy p w t c k x :
  all_chars p w = true -> w <> "" -> stops p t = true -> k t c = Some x ->
  Re.run (Re.plus (Re.Chr p)) (w +:+ t) c k = Some x.
Proof.
  intros Hw Hne Ht Hk. destruct w as [|a w]; [done |].
  simpl in Hw. apply andb_true_iff in Hw as [Ha Hw].
  unfold Re.plus. rewrite run_seq, append_cons, run_chr, Ha.
  rewrite run_star. by apply star_loop_greedy.
Qed.

Lemma star_loop_lazy p w t c k fuel :
  all_chars p w = true -> stops p t = true ->
  (forall a u, p a = true -> k (String a u) c = None) ->
  (String.length (w +:+ t) <= fuel)%nat ->
  star_loop false (Re.run (Re.Chr p)) k fuel (w +:+ t) c = k t c.
Proof.
  intros Hw Ht Hk. revert fuel. induction w as [|a w IH]; intros fuel Hfuel.
  - rewrite append_empty_l. destruct fuel as [|fuel]; [done |].
    rewrite star_loop_S. cbv zeta. destruct (k t c) eqn:E; [done |].
    destruct t as [|b t]; [done |].
    rewrite run_chr. simpl in Ht. apply negb_true_iff in Ht. by rewrite Ht.
  - simpl in Hw. apply andb_true_iff in Hw as [Ha Hw].
    rewrite append_cons in *. simpl in Hfuel.
    destruct fuel as [|fuel]; [lia |].
    rewrite star_loop_S. cbv zeta. rewrite (Hk a _ Ha), run_chr, Ha.
    replace (Nat.ltb (String.length (w +:+ t))
                     (String.length (String a (w +:+ t)))) with true
      by (symmetry; apply Nat.ltb_lt; simpl; lia).
    apply (IH Hw). lia.
Qed.

Lemma consumed_app w t : Re.consumed (w +:+ t) t = w.
Proof.
  unfold Re.consumed. rewrite append_length.
  replace (String.length w + String.length t - String.length t)%nat
    with (String.length w) by lia.
  apply substring_prefix.
Qed.

Lemma drop_app w t : Re.drop (String.length w) (w +:+ t) = t.
Proof.
  unfold Re.drop. rewrite append_length.
  replace (String.length w + String.length t - String.length w)%nat
    with (String.length t) by lia.
  rewrite substring_app.
  rewrite <- (append_empty_r t) at 2. apply substring_prefix.
Qed.

(** *** Scanning a text piece by piece *)

Lemma scan_unmatched ch r junk s :
  begins_with ch r -> has_char ch junk = false ->
  Re.scan r (junk +:+ s) = unmatched junk ++ Re.scan r s.
Proof.
  intros Hr. induction junk as [|a junk IH]; intros Hj; [done |].
  simpl in Hj. apply orb_false_iff in Hj as [Ha Hj].
  rewrite append_cons. unfold Re.scan. cbn [String.length Re.scan_fuel].
  destruct (Re.match_here r (String a (junk +:+ s))) as [[n c]|] eqn:E.
  - destruct (Hr (String a (junk +:+ s))) as [s' Hs']; [by rewrite E |].
    injection Hs' as -> _. by rewrite Ascii.eqb_refl in Ha.
  - cbn [unmatched app]. f_equal. by apply IH.
Qed.

Lemma scan_matched r m s c :
  m <> "" ->
  Re.match_here r (m +:+ s) = Some (String.length m, c) ->
  Re.scan r (m +:+ s) = inr c :: Re.scan r s.
Proof.
  intros Hm Hmatch. unfold Re.scan at 1. cbn [Re.scan_fuel]. rewrite Hmatch.
  destruct (String.length m) as [|n] eqn:En; [by destruct m |].
  f_equal. rewrite <- En, drop_app.
  apply scan_fuel_enough; [|lia].
  rewrite append_length. lia.
Qed.

Lemma finditer_unmatched ch r junk s :
  begins_with ch r -> has_char ch junk = false ->
  Re.finditer r (junk +:+ s) = Re.finditer r s.
Proof.
  intros Hr Hj. unfold Re.finditer. rewrite (scan_unmatched ch) by done.
  clear. induction junk as [|a junk IH]; [done | exact IH].
Qed.

Lemma finditer_matched r m s c :
  m <> "" ->
  Re.match_here r (m +:+ s) = Some (String.length m, c) ->
  Re.finditer r (m +:+ s) = c :: Re.finditer r s.
Proof.
  intros Hm Hmatch. unfold Re.finditer. by rewrite (scan_matched r m s c).
Qed.

Lemma match_here_run r s rest c :
  Re.run r s [] (fun s' c' => Some (s', c')) = Some (rest, c) ->
  Re.match_here r s = Some ((String.length s - String.length rest)%nat, c).
Proof. unfold Re.match_here. by intros ->. Qed.

Lemma none_of_char ch a :
  negb (Py.contains (String ch "") (String a "")) = negb (Ascii.eqb a ch).
Proof.
  f_equal. unfold Py.contains.
  change (String.prefix (String a "") (String ch ""))
    with (if ascii_dec a ch then true else false).
  change (String.prefix (String a "") "") with false.
  destruct (ascii_dec a ch) as [->|Hne].
  - by rewrite Ascii.eqb_refl.
  - simpl. symmetry. by apply Ascii.eqb_neq.
Qed.

Lemma all_chars_none_of ch s :
  has_char ch s = false ->
  all_chars (fun a => negb (Py.contains (String ch "") (String a ""))) s = true.
Proof.
  induction s as [|a s IH]; [done |]. simpl has_char. cbn [all_chars].
  intros H. apply orb_false_iff in H as [Ha Hs].
  rewrite none_of_char, Ha, IH; done.
Qed.

Lemma nonempty_ne s : nonempty s = true -> s <> "".
Proof. by destruct s. Qed.

Lemma match_directive (d : string * string * string) (rest : string) :
  directive_ok d = true ->
  Re.match_here Pat.addtocategory (directive_text d +:+ rest) =
  Some (String.length (directive_text d), [(2%nat, d.2); (1%nat, d.1.1)]).
Proof.
  destruct d as [[cat ws] body]. unfold directive_ok, directive_text. simpl fst. simpl snd.
  intros H. repeat (apply andb_true_iff in H as [H ?]).
  apply negb_true_iff in H1.
  assert (Re.run Pat.addtocategory
            (("\addtocategory{" +:+ cat +:+ "}" +:+ ws +:+ "{" +:+ body +:+ "}")
             +:+ rest) [] (fun s' c' => Some (s', c'))
          = Some (rest, [(2%nat, body); (1%nat, cat)])) as Hrun.
  { rewrite !append_assoc.
    unfold Pat.addtocategory, Re.seqs. cbn [fold_right foldr].
    rewrite run_seq, run_lit, run_seq, run_group.
    apply run_plus_greedy; [done | by apply nonempty_ne | done |].
    rewrite consumed_app, run_seq, run_lit, run_seq.
    apply run_star_greedy; [done | done |].
    rewrite run_seq, run_lit, run_seq, run_group.
    unfold Re.none_of.
    apply run_plus_greedy;
      [by apply all_chars_none_of | by apply nonempty_ne | done |].
    rewrite consumed_app, run_seq. by rewrite run_lit. }
  rewrite (match_here_run _ _ _ _ Hrun). f_equal. f_equal.
  rewrite append_length. lia.
Qed.

Lemma directive_text_ne d : directive_text d <> "".
Proof. done. Qed.

Lemma finditer_sty_text items tail :
  Forall (fun item => has_char "\" item.1 = false /\ directive_ok item.2 = true)
         items ->
  has_char "\" tail = false ->
  Re.finditer Pat.addtocategory (sty_text items tail) =
  map (fun item => [(2%nat, item.2.2); (1%nat, item.2.1.1)]) items.
Proof.
  intros Hitems Htail. induction Hitems as [|[junk d] items [Hj Hd] _ IH].
  - simpl. by apply (finditer_no_char "\"); [apply begins_with_addtocategory |].
  - cbn [sty_text map]. simpl in Hj, Hd.
    rewrite (finditer_unmatched "\") by (done || apply begins_with_addtocategory).
    rewrite (finditer_matched _ _ _ [(2%nat, d.2); (1%nat, d.1.1)]).
    + by rewrite IH.
    + apply directive_text_ne.
    + by apply match_directive.
Qed.

Lemma directives_sty_text items tail :
  Forall (fun item => has_char "\" item.1 = false /\ directive_ok item.2 = true)
         items ->
  has_char "\" tail = false ->
  directives (sty_text items tail) =
  map (fun item => (item.2.1.1, listed_keys item.2.2)) items.
Proof.
  intros Hitems Htail. unfold directives.
  rewrite finditer_sty_text by done. rewrite map_map. done.
Qed.

(** *** Entries *)

Lemma entry_lookahead_fails a u c
    (k : string -> Re.captures -> option (string * Re.captures)) :
  negb (Py.contains "@" (String a "")) = true ->
  Re.run (Re.Ahead (Re.Alt (Re.lit "@") Re.EndText)) (String a u) c k = None.
Proof.
  rewrite none_of_char. intros Ha. apply negb_true_iff in Ha.
  cbn [Re.run Re.lit]. rewrite Ascii.eqb_sym in Ha. by rewrite Ha.
Qed.

Lemma entry_lookahead_holds t c
    (k : string -> Re.captures -> option (string * Re.captures)) :
  stops (fun a => negb (Py.contains "@" (String a ""))) t = true ->
  Re.run (Re.Ahead (Re.Alt (Re.lit "@") Re.EndText)) t c k = k t c.
Proof.
  destruct t as [|a u]; [done |]. intros Ha.
  change (negb (negb (Py.contains "@" (String a ""))) = true) in Ha.
  rewrite none_of_char in Ha.
  apply negb_true_iff, negb_false_iff, Ascii.eqb_eq in Ha. subst a.
  reflexivity.
Qed.

Lemma match_entry (e : string * string * string) (rest : string) :
  entry_ok e = true ->
  stops (fun a => negb (Py.contains "@" (String a ""))) rest = true ->
  Re.match_here Pat.entry_pattern (entry_text e +:+ rest) =
  Some (String.length (entry_text e),
        [(3%nat, e.2); (2%nat, e.1.2); (1%nat, e.1.1)]).
Proof.
  destruct e as [[ty key] body]. unfold entry_ok, entry_text. simpl fst. simpl snd.
  intros H Hrest. repeat (apply andb_true_iff in H as [H ?]).
  apply negb_true_iff in H0, H2.
  assert (Re.run Pat.entry_pattern
            (("@" +:+ ty +:+ "{" +:+ key +:+ "," +:+ body) +:+ rest) []
            (fun s' c' => Some (s', c'))
          = Some (rest, [(3%nat, body); (2%nat, key); (1%nat, ty)])) as Hrun.
  { rewrite !append_assoc.
    unfold Pat.entry_pattern, Re.seqs. cbn [fold_right foldr].
    rewrite run_seq, run_lit, run_seq, run_group.
    apply run_plus_greedy; [done | by apply nonempty_ne | done |].
    rewrite consumed_app, run_seq, run_lit, run_seq, run_group.
    unfold Re.none_of.
    apply run_plus_greedy;
      [by apply all_chars_none_of | by apply nonempty_ne | done |].
    rewrite consumed_app, run_seq, run_lit, run_seq, run_group, run_star.
    rewrite star_loop_lazy; [| by apply all_chars_none_of | done | | done].
    - rewrite consumed_app, run_seq, entry_lookahead_holds by done.
      reflexivity.
    - intros a u Ha. rewrite run_seq. by apply entry_lookahead_fails. }
  rewrite (match_here_run _ _ _ _ Hrun). f_equal. f_equal.
  rewrite append_length. lia.
Qed.

Lemma bib_text_stops entries :
  stops (fun a => negb (Py.contains "@" (String a ""))) (bib_text entries) = true.
Proof. by destruct entries. Qed.

Lemma finditer_bib_text junk entries :
  has_char "@" junk = false ->
  Forall (fun e => entry_ok e = true) entries ->
  Re.finditer Pat.entry_pattern (junk +:+ bib_text entries) =
  map (fun e => [(3%nat, e.2); (2%nat, e.1.2); (1%nat, e.1.1)]) entries.
Proof.
  intros Hjunk Hentries.
  rewrite (finditer_unmatched "@") by (done || apply begins_with_entry).
  induction Hentries as [|e entries He _ IH].
  - by apply (finditer_no_char "@"); [apply begins_with_entry |].
  - cbn [bib_text map].
    rewrite (finditer_matched _ _ _ [(3%nat, e.2); (2%nat, e.1.2); (1%nat, e.1.1)]).
    + by rewrite IH.
    + done.
    + apply match_entry; [done | apply bib_text_stops].
Qed.

Lemma fallback_records_bib_text junk entries :
  has_char "@" junk = false ->
  Forall (fun e => entry_ok e = true) entries ->
  has_char "%" (junk +:+ bib_text entries) = false ->
  fallback_records (junk +:+ bib_text entries) =
  map (fun e => (Py.lower e.1.1, Py.strip e.1.2, parse_fields e.2)) entries.
Proof.
  intros Hjunk Hentries Hcomment. unfold fallback_records.
  rewrite (sub_no_char "%") by (done || apply begins_with_comment).
  rewrite finditer_bib_text by done. by rewrite map_map.
Qed.

Lemma match_braces (x rest : string) :
  has_char "}" x = false -> x <> "" ->
  Re.match_here Pat.braces (("{" +:+ x +:+ "}") +:+ rest) =
  Some (String.length ("{" +:+ x +:+ "}"), [(1%nat, x)]).
Proof.
  intros Hx Hne.
  assert (Re.run Pat.braces (("{" +:+ x +:+ "}") +:+ rest) []
            (fun s' c' => Some (s', c')) = Some (rest, [(1%nat, x)])) as Hrun.
  { rewrite !append_assoc. unfold Pat.braces, Re.seqs. cbn [fold_right foldr].
    rewrite run_seq, run_lit, run_seq, run_group. unfold Re.none_of.
    apply run_plus_greedy; [by apply all_chars_none_of | done | done |].
    rewrite consumed_app, run_seq. by rewrite run_lit. }
  rewrite (match_here_run _ _ _ _ Hrun). f_equal. f_equal.
  rewrite append_length. lia.
Qed.

Lemma sub_pieces_unmatched repl junk l :
  Re.sub_pieces repl (unmatched junk ++ l) = junk +:+ Re.sub_pieces repl l.
Proof.
  induction junk as [|a junk IH]; [done |].
  cbn [unmatched app Re.sub_pieces]. by rewrite IH, append_cons.
Qed.

Lemma unbrace_braced_text items tail :
  Forall (fun item => has_char "{" item.1 = false /\
                      has_char "}" item.2 = false /\ item.2 <> "") items ->
  has_char "{" tail = false ->
  Pat.unbrace (braced_text items tail) = unbraced_text items tail.
Proof.
  intros Hitems Htail. unfold Pat.unbrace.
  induction Hitems as [|[plain x] items (Hp & Hx & Hne) _ IH].
  - by apply (sub_no_char "{"); [apply begins_with_braces |].
  - cbn [braced_text unbraced_text]. simpl in Hp, Hx, Hne.
    unfold Re.sub in *.
    rewrite (scan_unmatched "{") by (done || apply begins_with_braces).
    rewrite (scan_matched _ _ _ [(1%nat, x)]);
      [| done | by apply match_braces].
    rewrite sub_pieces_unmatched. cbn [Re.sub_pieces Re.group Nat.eqb].
    by rewrite IH.
Qed.

Lemma rstrip_no_space s :
  all_chars (fun a => negb (Py.isspace a)) s = true -> Py.rstrip s = s.
Proof.
  induction s as [|c s IH]; [done |]. cbn [all_chars Py.rstrip].
  intros H. apply andb_true_iff in H as [Hc Hs]. rewrite (IH Hs).
  apply negb_true_iff in Hc. destruct s; [by rewrite Hc | done].
Qed.

Lemma strip_no_space s :
  all_chars (fun a => negb (Py.isspace a)) s = true -> Py.strip s = s.
Proof.
  intros H. unfold Py.strip. rewrite lstrip_id.
  - by apply rstrip_no_space.
  - destruct s as [|c s]; [done |]. simpl in *.
    by apply andb_true_iff in H as [-> _].
Qed.

Lemma digits_no_space d :
  all_chars (fun a => negb (Py.isspace a)) (NilEmpty.string_of_uint d) = true.
Proof. induction d; simpl; try done; by rewrite IHd. Qed.

Lemma int_digits_acc d p :
  Py.int_digits (Zpos p) true (NilEmpty.string_of_uint d) =
  Some (Zpos (Pos.of_uint_acc d p)).
Proof.
  revert p. induction d; intros p; [done | ..];
    cbn [NilEmpty.string_of_uint Py.int_digits Pos.of_uint_acc];
    (match goal with
     | |- context [Py.isdigit ?c] => change (Py.isdigit c) with true
     end);
    cbv iota;
    (match goal with
     | |- Py.int_digits ?z true _ = _ =>
         match goal with
         | |- _ = Some (Zpos (Pos.of_uint_acc _ ?q)) =>
             replace z with (Zpos q) by (cbn; lia)
         end
     end);
    apply IHd.
Qed.

Lemma int_digits_zero d b :
  d <> Decimal.Nil \/ b = true ->
  Py.int_digits 0 b (NilEmpty.string_of_uint d) = Some (Z.of_N (Pos.of_uint d)).
Proof.
  revert b. induction d; intros b Hb.
  - destruct Hb as [? | ->]; done.
  - cbn [NilEmpty.string_of_uint Py.int_digits Pos.of_uint].
    change (Py.isdigit "0") with true. cbv iota.
    change (10 * 0 + (Z.of_N (Py.code "0") - 48))%Z with 0%Z.
    apply IHd. by right.
  - apply (int_digits_acc d 1).
  - apply (int_digits_acc d 2).
  - apply (int_digits_acc d 3).
  - apply (int_digits_acc d 4).
  - apply (int_digits_acc d 5).
  - apply (int_digits_acc d 6).
  - apply (int_digits_acc d 7).
  - apply (int_digits_acc d 8).
  - apply (int_digits_acc d 9).
Qed.

Lemma int_unsigned d :
  d <> Decimal.Nil ->
  (Py.count_digits (NilEmpty.string_of_uint d) <= Py.max_str_digits)%N ->
  Py.int (NilEmpty.string_of_uint d) = Some (Z.of_N (Pos.of_uint d)).
Proof.
  intros Hd Hc. unfold Py.int. cbv zeta.
  rewrite strip_no_space by apply digits_no_space.
  apply N.ltb_ge in Hc. rewrite Hc.
  rewrite <- (int_digits_zero d false) by (by left).
  by destruct d.
Qed.

Lemma str_pos p :
  Py.str_of_int (Zpos p) = NilEmpty.string_of_uint (Pos.to_uint p).
Proof.
  unfold Py.str_of_int. cbn [Z.to_int NilZero.string_of_int].
  pose proof (Unsigned.to_uint_nonnil p) as Hnil.
  by destruct (Pos.to_uint p).
Qed.

Lemma str_neg p :
  Py.str_of_int (Zneg p) =
  String "-" (NilEmpty.string_of_uint (Pos.to_uint p)).
Proof.
  unfold Py.str_of_int. cbn [Z.to_int NilZero.string_of_int].
  pose proof (Unsigned.to_uint_nonnil p) as Hnil.
  by destruct (Pos.to_uint p).
Qed.

(** Reading a printed integer gives it back, within the limit of digits. *)
Lemma int_str n :
  (Py.count_digits (Py.str_of_int n) <= Py.max_str_digits)%N ->
  Py.int (Py.str_of_int n) = Some n.
Proof.
  destruct n as [|p|p]; [done | |]; intros Hc.
  - rewrite str_pos in *.
    rewrite int_unsigned by (done || apply Unsigned.to_uint_nonnil).
    by rewrite Unsigned.of_to.
  - rewrite str_neg in *. unfold Py.int. cbv zeta.
    rewrite (strip_no_space (String "-" _))
      by (cbn [all_chars]; by rewrite digits_no_space).
    apply N.ltb_ge in Hc. rewrite Hc. cbv iota beta.
    rewrite int_digits_zero by (left; apply Unsigned.to_uint_nonnil).
    by rewrite Unsigned.of_to.
Qed.

Lemma str_nonempty n : nonempty (Py.str_of_int n) = true.
Proof.
  unfold Py.str_of_int. destruct n as [|p|p]; [done | | done].
  cbn [Z.to_int NilZero.string_of_int].
  pose proof (Unsigned.to_uint_nonnil p). by destruct (Pos.to_uint p).
Qed.

Lemma str_no_space n :
  all_chars (fun a => negb (Py.isspace a)) (Py.str_of_int n) = true.
Proof.
  unfold Py.str_of_int. destruct n as [|p|p]; [done | |].
  - cbn [Z.to_int NilZero.string_of_int].
    pose proof (Unsigned.to_uint_nonnil p).
    replace (NilZero.string_of_uint (Pos.to_uint p))
      with (NilEmpty.string_of_uint (Pos.to_uint p))
      by (by destruct (Pos.to_uint p)).
    apply digits_no_space.
  - cbn [Z.to_int NilZero.string_of_int].
    pose proof (Unsigned.to_uint_nonnil p).
    replace (NilZero.string_of_uint (Pos.to_uint p))
      with (NilEmpty.string_of_uint (Pos.to_uint p))
      by (by destruct (Pos.to_uint p)).
    cbn [all_chars]. by rewrite digits_no_space.
Qed.

Lemma year_of_str (fields : gmap string string) (n : Z) :
  (Py.count_digits (Py.str_of_int n) <= Py.max_str_digits)%N ->
  fields !! "year" = Some (Py.str_of_int n) -> year_of fields = n.
Proof.
  intros Hc H. unfold year_of. rewrite H. cbv zeta.
  change (default EmptyString (Some (Py.str_of_int n))) with (Py.str_of_int n).
  rewrite (strip_no_space _ (str_no_space n)), str_nonempty, int_str; done.
Qed.

(** Beyond the limit of digits no integer is read, and the year is 0. *)
Lemma int_beyond_limit s :
  (Py.max_str_digits < Py.count_digits (Py.strip s))%N -> Py.int s = None.
Proof. intros H. unfold Py.int. cbv zeta. apply N.ltb_lt in H. by rewrite H. Qed.

Lemma year_of_str_beyond (fields : gmap string string) (n : Z) :
  (Py.max_str_digits < Py.count_digits (Py.str_of_int n))%N ->
  fields !! "year" = Some (Py.str_of_int n) -> year_of fields = 0%Z.
Proof.
  intros Hc H. unfold year_of. rewrite H. cbv zeta.
  change (default EmptyString (Some (Py.str_of_int n))) with (Py.str_of_int n).
  rewrite (strip_no_space _ (str_no_space n)), str_nonempty.
  rewrite int_beyond_limit; [done |].
  by rewrite (strip_no_space _ (str_no_space n)).
Qed.

(** ** The brace scanner (X1 to X3) *)

(** X1: when [extract_braced_content], called with a start position that
    is not negative, returns a content, the text has an opening brace at
    the start position, the content behind it and a closing brace behind
    the content; the braces of the content match; and the position
    returned is the one behind the closing brace. *)
Theorem extract_braced_content_sound
    (text : string) (start_pos : Z) (content : string) (pos : Z) :
  (0 <= start_pos)%Z ->
  extract_braced_content text start_pos = Some (Some content, pos) ->
  exists before after,
    text = before +:+ "{" +:+ content +:+ "}" +:+ after /\
    Z.of_nat (String.length before) = start_pos /\
    balanced content = true /\
    pos = (start_pos + Z.of_nat (String.length content) + 2)%Z.
Proof. apply extract_sound. Qed.

Lemma extract_braced_content_sound_witness :
  exists before after,
    "a{b{c}d}e{" = before +:+ "{" +:+ "b{c}d" +:+ "}" +:+ after /\
    Z.of_nat (String.length before) = 1%Z /\
    balanced "b{c}d" = true /\
    8%Z = (1 + Z.of_nat (String.length "b{c}d") + 2)%Z.
Proof.
  apply (extract_braced_content_sound "a{b{c}d}e{" 1 "b{c}d" 8).
  - lia.
  - by vm_compute.
Defined.

(** X2: a content whose braces match, written in braces at a position of
    a text, is what [extract_braced_content] returns at that position,
    whatever stands before and after, with the position behind the closing
    brace. *)
Theorem extract_braced_content_complete (before content after : string) :
  balanced content = true ->
  extract_braced_content (before +:+ "{" +:+ content +:+ "}" +:+ after)
                         (Z.of_nat (String.length before))
  = Some (Some content,
          Z.of_nat (String.length before + String.length content + 2)).
Proof. apply extract_complete. Qed.

Lemma extract_braced_content_complete_witness :
  extract_braced_content ("title = " +:+ "{" +:+ "A {B} c" +:+ "}" +:+ ", x}")
                         (Z.of_nat (String.length "title = "))
  = Some (Some "A {B} c",
          Z.of_nat (String.length "title = " + String.length "A {B} c" + 2)).
Proof.
  apply (extract_braced_content_complete "title = " "A {B} c" ", x}").
  by vm_compute.
Defined.

(** X3: called with a start position that is not negative,
    [extract_braced_content] raises no error, and it returns no content
    exactly when the text has no opening brace at the start position (the
    position may be behind the text) or that brace is never closed; and
    then it returns the start position unchanged. *)
Theorem extract_braced_content_fails (text : string) (start_pos : Z) :
  (0 <= start_pos)%Z ->
  exists result,
    extract_braced_content text start_pos = Some result /\
    (result.1 = None <->
     ~ exists before content after,
         text = before +:+ "{" +:+ content +:+ "}" +:+ after /\
         Z.of_nat (String.length before) = start_pos /\
         balanced content = true) /\
    (result.1 = None -> result.2 = start_pos).
Proof.
  intros Hstart.
  destruct (extract_returns text start_pos Hstart) as ([content pos] & E & Hpos).
  exists (content, pos). split; [done |]. split; [|done]. split.
  - intros Hnone (before & c & after & -> & <- & Hb).
    rewrite (extract_complete before c after Hb) in E.
    simpl in Hnone. congruence.
  - intros Hno. destruct content as [c|]; [|done].
    exfalso. apply Hno.
    apply extract_sound in E as (before & after & Ht & Hl & Hb & _); [|done].
    by exists before, c, after.
Qed.

Lemma extract_braced_content_fails_witness :
  exists result,
    extract_braced_content "{a{b}" 0 = Some result /\ result.2 = 0%Z.
Proof.
  destruct (extract_braced_content_fails "{a{b}" 0) as (result & E & _ & Hpos);
    [lia |].
  exists result. split; [done |]. apply Hpos.
  vm_compute in E. by injection E as <-.
Defined.

(** A start position below zero counts from the end of the text, and the
    loop then goes on from the start of the text: the brace at the place
    need not be closed behind it for a content to be returned; a position
    before the text raises [IndexError]. *)
Example extract_braced_content_from_the_end :
  map (fun '(text, start_pos) => extract_braced_content text start_pos)
      [("}{ab", -3); ("{a}", -3); ("a{b}c", -4); ("{a}{b", -2); ("{a}", -4)]%Z
  = [Some (Some "", 1); Some (Some "a", 0); Some (Some "b", -1);
     Some (None, -2); None]%Z.
Proof. by vm_compute. Qed.

(** ** The page (X4 and X5) *)

(** X4: the entries of the sections of the page, taken together, are the
    entries of the mapping whose key the category scan sends to no
    category or to a category of the display order, each as often as the
    mapping holds it: no entry is rendered twice, and the only entries
    left out are those of a category outside the display order. *)
Theorem rendered_entries_are_shown_entries
    (entries : list (string * Entry)) (categories : list (string * list string)) :
  Permutation (rendered_entries entries categories)
    (map snd (List.filter (fun item => shown categories item.1) entries)).
Proof. apply rendered_entries_perm. Qed.

(** X5: the sections of the page follow the display order, each category
    at most once, and the uncategorized entries come last; every section
    has at least one entry, and its heading is the display name of its
    category, or "Other Publications" under the tag "other". *)
Theorem sections_follow_display_order
    (entries : list (string * Entry)) (categories : list (string * list string)) :
  sublist (section_tags entries categories) (category_order ++ ["other"])
  /\ Forall (fun s : string * string * list Entry =>
               s.2 <> [] /\
               (CATEGORY_NAMES !! s.1.2 = Some s.1.1 \/
                (s.1.2 = "other" /\ s.1.1 = "Other Publications")))
            (sections entries categories).
Proof.
  split; [apply section_tags_sublist |].
  apply List.Forall_forall. intros [[heading cat] bucket] Hin.
  apply section_inv in Hin as [Hne [(_ & Hname & _) | (-> & -> & _)]].
  - split; [done | by left].
  - split; [done | by right].
Qed.

(** ** The category index (X6, X7 and X13) *)

(** X6: in the category index no category occurs twice, no key set holds
    a key twice, and every key is not empty, has no white space around it
    and no comma in it. *)
Theorem category_index_well_formed
    (slot : string -> list string -> nat) (file_path content : string) :
  let index := (parse_bib_entries_sty slot file_path (Some content)).2 in
  NoDup (ODict.keys index)
  /\ forall cat keys, In (cat, keys) index ->
       NoDup keys /\ forall key, In key keys -> clean_key key.
Proof.
  cbv zeta. rewrite parse_bib_entries_sty_directives.
  split; [apply index_fold_NoDup |].
  intros cat keys Hin. split; [by eapply index_fold_sets_NoDup |].
  intros key Hkey.
  apply In_get in Hin; [|apply index_fold_NoDup].
  assert (In key (default [] (ODict.get cat
            (fold_left (index_step slot) (directives content) [])))) as Hk
    by (by rewrite Hin).
  apply index_fold_In in Hk as (listed & Hd & Hl).
  unfold directives in Hd. apply in_map_iff in Hd as (m & [= _ <-] & _).
  by apply directive_keys_clean in Hl.
Qed.

Lemma category_index_well_formed_witness :
  clean_key "b".
Proof.
  pose proof (category_index_well_formed (fun _ _ => 0%nat) "bib-entries.sty"
                "\addtocategory{journals}{ a , b ,, }") as H.
  cbv zeta in H. destruct H as [_ H].
  apply (H "journals" ["b"; "a"]).
  - vm_compute. by left.
  - by left.
Defined.

(** X7: the key set of a category in the index is the union of the key
    lists of the directives that name the category, and a category is in
    the index exactly when a directive names it. *)
Theorem category_index_unions_directives
    (slot : string -> list string -> nat) (file_path content cat : string) :
  let index := (parse_bib_entries_sty slot file_path (Some content)).2 in
  (forall key,
     In key (default [] (ODict.get cat index)) <->
     exists keys, In (cat, keys) (directives content) /\ In key keys)
  /\ (ODict.get cat index = None <->
      ~ In cat (map fst (directives content))).
Proof.
  cbv zeta. rewrite parse_bib_entries_sty_directives. split.
  - intros key. apply index_fold_In.
  - apply index_fold_get_None.
Qed.

Lemma category_index_unions_directives_witness :
  In "d" (default []
            (ODict.get "journals"
               (parse_bib_entries_sty (fun _ _ => 0%nat) "bib-entries.sty"
                  (Some TwoDirectives.sty)).2)).
Proof.
  pose proof (category_index_unions_directives (fun _ _ => 0%nat)
                "bib-entries.sty" TwoDirectives.sty "journals") as H.
  cbv zeta in H. destruct H as [H _]. apply H.
  exists ["b"; "d"]. split; [vm_compute; tauto | simpl; tauto].
Defined.

(** X13: a categorization text made of well-formed directives (a category
    of word characters, white space only between the two braced groups, a
    key text without closing brace), with text free of backslashes before,
    between and behind them, has exactly these directives, in this order,
    each with the keys its text lists; so a key is in the key set of a
    category exactly when one of the directives of that category lists
    it. *)
Theorem categorization_text_parsed
    (slot : string -> list string -> nat) (file_path : string)
    (items : list (string * (string * string * string))) (tail : string) :
  Forall (fun item => has_char "\" item.1 = false /\ directive_ok item.2 = true)
         items ->
  has_char "\" tail = false ->
  let index :=
    (parse_bib_entries_sty slot file_path (Some (sty_text items tail))).2 in
  directives (sty_text items tail) =
    map (fun item => (item.2.1.1, listed_keys item.2.2)) items
  /\ forall cat key,
       In key (default [] (ODict.get cat index)) <->
       exists item, In item items /\ item.2.1.1 = cat /\
                    In key (listed_keys item.2.2).
Proof.
  intros Hitems Htail. cbv zeta.
  pose proof (directives_sty_text items tail Hitems Htail) as Hd.
  split; [done |]. intros cat key.
  rewrite parse_bib_entries_sty_directives, index_fold_In, Hd. split.
  - intros (keys & Hin & Hk). apply in_map_iff in Hin as (item & [= <- <-] & Hin).
    by exists item.
  - intros (item & Hin & <- & Hk). exists (listed_keys item.2.2).
    split; [|done]. apply in_map_iff. by exists item.
Qed.

Lemma categorization_text_parsed_witness :
  directives TwoDirectives.sty =
  [("journals", ["a"; "b"]); ("books", ["c"]); ("journals", ["b"; "d"])].
Proof.
  pose proof (categorization_text_parsed (fun _ _ => 0%nat) "bib-entries.sty"
                TwoDirectives.items (String Py.newline "")) as H.
  cbv zeta in H. destruct H as [H _]; [repeat constructor | done |].
  exact H.
Defined.

(** ** The bibliography parser (X8, X11, X12, X14 and X16) *)

(** X8: every entry of the parser's mapping stands under its own key and
    has a type in lower case; in fallback mode, moreover, the key has no
    white space around it, every field name is in lower case and every
    field value has no white space around it. *)
Theorem stored_entries_normalised
    (HAS_BIBTEXPARSER : bool)
    (bibtexparser_load : string -> list (gmap string string))
    (file_path content key : string) (e : Entry) :
  In (key, e)
     (parse_bibtex HAS_BIBTEXPARSER bibtexparser_load file_path (Some content)).2 ->
  e_key e = key /\ Py.lower (e_type e) = e_type e /\
  (HAS_BIBTEXPARSER = false ->
   Py.strip key = key /\
   forall name value, e_fields e !! name = Some value ->
     Py.lower name = name /\ Py.strip value = value).
Proof. apply stored_entry. Qed.

Lemma stored_entries_normalised_witness :
  Py.lower "article" = "article" /\ Py.strip "k1" = "k1".
Proof.
  destruct (stored_entries_normalised false (fun _ => []) "citations.bib"
              TwoEntries.bib "k1"
              (mkEntry "article" "k1" 2023
                 {[ "title" := "One"; "year" := "2023" ]}))
    as (_ & Hlower & Hfallback).
  - vm_compute. by left.
  - split; [exact Hlower | by apply Hfallback].
Defined.

(** X11: a bibliography text without an at sign yields no entry in
    fallback mode, comments or not; the empty text is such a text. *)
Theorem bibliography_without_at_sign
    (bibtexparser_load : string -> list (gmap string string))
    (file_path content : string) :
  has_char "@" content = false ->
  parse_bibtex false bibtexparser_load file_path (Some content) = ([], []).
Proof.
  intros H. unfold parse_bibtex, bib_records, fallback_records.
  rewrite (finditer_no_char "@"); [done | apply begins_with_entry |].
  apply not_true_is_false. intros Hc. apply has_char_delete in Hc. congruence.
Qed.

Lemma bibliography_without_at_sign_witness :
  parse_bibtex false (fun _ => []) "citations.bib"
    (Some "% no entries yet") = ([], []).
Proof.
  apply (bibliography_without_at_sign (fun _ => []) "citations.bib"
           "% no entries yet").
  by vm_compute.
Defined.

(** X12: the brace stripping of titles and field values takes away the
    braces of every group of a text whose groups hold at least one
    character and no closing brace, and leaves the text between the groups
    as it is; a text without opening brace is left unchanged. *)
Theorem unbrace_strips_one_level (items : list (string * string)) (tail : string) :
  Forall (fun item => has_char "{" item.1 = false /\
                      has_char "}" item.2 = false /\ item.2 <> "") items ->
  has_char "{" tail = false ->
  Pat.unbrace (braced_text items tail) = unbraced_text items tail.
Proof. apply unbrace_braced_text. Qed.

Lemma unbrace_strips_one_level_witness :
  Pat.unbrace (braced_text [("A ", "Study"); (" of ", "X")] "") =
  unbraced_text [("A ", "Study"); (" of ", "X")] "".
Proof.
  apply (unbrace_strips_one_level [("A ", "Study"); (" of ", "X")] "");
    [repeat constructor; done | done].
Defined.

(** X14: in fallback mode, a bibliography text without percent sign that
    is made of entries (an at sign, a type of word characters, an opening
    brace, a key without comma, a comma, and a rest without at sign) after
    a stretch of text without at sign, has exactly one record per entry, in
    this order, with the type in lower case, the key stripped and the
    fields of the rest; the mapping is built from these records. *)
Theorem bibliography_text_parsed
    (bibtexparser_load : string -> list (gmap string string))
    (file_path junk : string) (entries : list (string * string * string)) :
  has_char "@" junk = false ->
  Forall (fun e => entry_ok e = true) entries ->
  has_char "%" (junk +:+ bib_text entries) = false ->
  fallback_records (junk +:+ bib_text entries) =
    map (fun e => (Py.lower e.1.1, Py.strip e.1.2, parse_fields e.2)) entries
  /\ parse_bibtex false bibtexparser_load file_path
       (Some (junk +:+ bib_text entries)) =
     ([], add_records
            (map (fun e => (Py.lower e.1.1, Py.strip e.1.2, parse_fields e.2))
                 entries)).
Proof.
  intros Hjunk Hentries Hcomment.
  pose proof (fallback_records_bib_text junk entries Hjunk Hentries Hcomment)
    as Hrecords.
  split; [done |]. unfold parse_bibtex, bib_records. by rewrite Hrecords.
Qed.

Lemma bibliography_text_parsed_witness :
  map (fun r => (r.1.1, r.1.2)) (fallback_records TwoEntries.bib) =
  [("article", "k1"); ("book", "k2")].
Proof.
  destruct (bibliography_text_parsed (fun _ => []) "citations.bib"
              (String Py.newline "") TwoEntries.entries) as [H _];
    [done | repeat constructor | by vm_compute |].
  unfold TwoEntries.bib. rewrite H. by vm_compute.
Defined.

(** X16: the year that a citation prints is read back as the same year:
    a field mapping whose year field is the decimal text of an integer has
    that integer as its year, when the text has no more digits than Python
    converts, 4300; when it has more, the year is 0. *)
Theorem year_of_printed_year (fields : gmap string string) (n : Z) :
  fields !! "year" = Some (Py.str_of_int n) ->
  ((Py.count_digits (Py.str_of_int n) <= Py.max_str_digits)%N ->
   year_of fields = n) /\
  ((Py.max_str_digits < Py.count_digits (Py.str_of_int n))%N ->
   year_of fields = 0%Z).
Proof.
  intros H. split; intros Hc;
    [by apply year_of_str | by apply (year_of_str_beyond fields n)].
Qed.

Lemma year_of_printed_year_witness :
  year_of {[ "year" := Py.str_of_int 2023 ]} = 2023%Z.
Proof.
  apply (year_of_printed_year {[ "year" := Py.str_of_int 2023 ]} 2023);
    by vm_compute.
Defined.

(** ** Runs (X9) *)



(** ** The scan and the display order (X15) *)

(** X15: when the categories of the index are categories of the display
    order and the index holds them in that order, the category scan gives
    every key the first category of the display order whose key set holds
    it. *)
Theorem scan_follows_display_order
    (categories : list (string * list string)) (key : string) :
  sublist (ODict.keys categories) category_order ->
  find_category key categories = first_in_priority_order key categories.
Proof.
  intros Hsub. apply find_category_in_order; [apply category_order_NoDup | done].
Qed.

Lemma scan_follows_display_order_witness :
  find_category "k" [("books", ["k"]); ("journals", ["k"; "j"])] =
  first_in_priority_order "k" [("books", ["k"]); ("journals", ["k"; "j"])].
Proof.
  apply (scan_follows_display_order
           [("books", ["k"]); ("journals", ["k"; "j"])] "k").
  change (sublist ["books"; "journals"] category_order).
  unfold category_order.
  apply sublist_skip, sublist_cons, sublist_skip, sublist_nil_l.
Defined.

(** *** Character classes *)

Lemma space_not_word a : Py.isspace a = true -> Py.isword a = false.
Proof. destruct a as [[] [] [] [] [] [] [] []]; by vm_compute. Qed.

Lemma word_not_space a : Py.isword a = true -> Py.isspace a = false.
Proof. destruct a as [[] [] [] [] [] [] [] []]; by vm_compute. Qed.

Lemma word_not_equals a : Py.isword a = true -> Ascii.eqb "=" a = false.
Proof. destruct a as [[] [] [] [] [] [] [] []]; by vm_compute. Qed.

Lemma space_not_equals a : Py.isspace a = true -> Ascii.eqb "=" a = false.
Proof. destruct a as [[] [] [] [] [] [] [] []]; by vm_compute. Qed.

Lemma space_not_digit a : Py.isspace a = true -> Py.isdigit a = false.
Proof. destruct a as [[] [] [] [] [] [] [] []]; by vm_compute. Qed.

Lemma space_not_quote a : Py.isspace a = true -> Ascii.eqb Py.dquote a = false.
Proof. destruct a as [[] [] [] [] [] [] [] []]; by vm_compute. Qed.

Lemma all_chars_app p s t :
  all_chars p (s +:+ t) = (all_chars p s && all_chars p t)%bool.
Proof.
  induction s as [|a s IH]; [done |]. rewrite append_cons. simpl.
  by rewrite IH, andb_assoc.
Qed.

Lemma all_chars_impl (p q : ascii -> bool) s :
  (forall a, p a = true -> q a = true) ->
  all_chars p s = true -> all_chars q s = true.
Proof.
  intros Hpq. induction s as [|a s IH]; [done |]. simpl.
  intros H. apply andb_true_iff in H as [Ha Hs]. by rewrite (Hpq a Ha), IH.
Qed.

Lemma drop_while_app p w t :
  all_chars p w = true -> stops p t = true -> drop_while p (w +:+ t) = t.
Proof.
  intros Hw Ht. induction w as [|a w IH].
  - rewrite append_empty_l. destruct t as [|b t]; [done |]. simpl in *.
    apply negb_true_iff in Ht. by rewrite Ht.
  - simpl in Hw. apply andb_true_iff in Hw as [Ha Hw].
    rewrite append_cons. simpl. rewrite Ha. by apply IH.
Qed.

(** *** Failing repetitions *)

Lemma star_loop_greedy_none p t c k fuel :
  (forall a u, p a = true -> k (String a u) c = None) ->
  k (drop_while p t) c = None ->
  star_loop true (Re.run (Re.Chr p)) k fuel t c = None.
Proof.
  intros Hk. revert fuel. induction t as [|a u IH]; intros fuel Hd.
  - destruct fuel as [|fuel]; [done |]. rewrite star_loop_S. cbv zeta.
    simpl in *. by rewrite Hd.
  - destruct fuel as [|fuel].
    + rewrite star_loop_O. simpl in Hd. destruct (p a) eqn:Ha; [by apply Hk | done].
    + rewrite star_loop_S. cbv zeta. rewrite run_chr. simpl in Hd.
      destruct (p a) eqn:Ha.
      * destruct (Nat.ltb _ _); [rewrite (IH fuel Hd) |]; by apply Hk.
      * done.
Qed.

Lemma run_star_none p t c k :
  (forall a u, p a = true -> k (String a u) c = None) ->
  k (drop_while p t) c = None ->
  Re.run (Re.star (Re.Chr p)) t c k = None.
Proof. intros. unfold Re.star. rewrite run_star. by apply star_loop_greedy_none. Qed.

Lemma run_plus_none p t c k :
  (forall a u, p a = true -> k (String a u) c = None) ->
  (stops p t = false -> k (drop_while p t) c = None) ->
  Re.run (Re.plus (Re.Chr p)) t c k = None.
Proof.
  intros Hk Hd. unfold Re.plus. rewrite run_seq.
  destruct t as [|a u]; [done |]. rewrite run_chr.
  destruct (p a) eqn:Ha; [|done].
  apply run_star_none; [done |].
  simpl in Hd. rewrite Ha in Hd. by apply Hd.
Qed.

(** *** The head of the field patterns *)

Lemma stops_cons p a s : stops p (String a s) = negb (p a).
Proof. reflexivity. Qed.

Lemma needs_quote rest : needs (Ascii.eqb Py.dquote) (Re.seqs (Re.Chr (Ascii.eqb Py.dquote) :: rest)).
Proof.
  intros s c k Hs. unfold Re.seqs. cbn [fold_right foldr]. rewrite run_seq.
  destruct s as [|a s]; [done |]. rewrite run_chr. rewrite stops_cons in Hs.
  apply negb_true_iff in Hs. by rewrite Hs.
Qed.

Lemma needs_digit :
  needs Py.isdigit (Re.seqs [Re.Group 2 (Re.plus (Re.Chr Py.isdigit))]).
Proof.
  intros s c k Hs. unfold Re.seqs, Re.plus. cbn [fold_right foldr].
  rewrite run_seq, run_group, run_seq.
  destruct s as [|a s]; [done |]. rewrite run_chr. rewrite stops_cons in Hs.
  apply negb_true_iff in Hs. by rewrite Hs.
Qed.

Lemma head_no_hit (opens : ascii -> bool) (tail : list Re.regex) (t : string) :
  needs opens (Re.seqs tail) ->
  (forall a, Py.isspace a = true -> opens a = false) ->
  head_hit opens t = false ->
  Re.match_here (Re.seqs (Pat.field_head ++ tail)) t = None.
Proof.
  intros Htail Hsp Hhit.
  assert (Re.run (Re.seqs (Pat.field_head ++ tail)) t []
            (fun s' c' => Some (s', c')) = None) as Hrun; [|unfold Re.match_here; by rewrite Hrun].
  unfold Pat.field_head, Re.seqs. cbn [app fold_right foldr].
  fold (Re.seqs tail).
  rewrite run_seq, run_group.
  (* behind the equals sign *)
  assert (forall t3 c k, 
            match drop_while Py.isspace t3 with
            | String y _ => opens y
            | EmptyString => false
            end = false ->
            Re.run (Re.Seq (Re.star (Re.Chr Py.isspace)) (Re.seqs tail)) t3 c k = None)
    as Hafter.
  { intros t3 c k Ht3. rewrite run_seq. apply run_star_none.
    - intros a u Ha. apply Htail. by rewrite stops_cons, (Hsp a Ha).
    - apply Htail. destruct (drop_while Py.isspace t3); [done |].
      by rewrite stops_cons, Ht3. }
  (* behind the word *)
  assert (forall t1 c k,
            match drop_while Py.isspace t1 with
            | String x t3 =>
                (Ascii.eqb x "=" &&
                 match drop_while Py.isspace t3 with
                 | String y _ => opens y
                 | EmptyString => false
                 end)%bool
            | EmptyString => false
            end = false ->
            Re.run (Re.Seq (Re.star (Re.Chr Py.isspace))
                      (Re.Seq (Re.lit "=")
                         (Re.Seq (Re.star (Re.Chr Py.isspace)) (Re.seqs tail))))
                   t1 c k = None) as Hbehind.
  { intros t1 c k Ht1. rewrite run_seq. apply run_star_none.
    - intros a u Ha. rewrite run_seq. cbn [Re.lit]. rewrite run_seq, run_chr.
      by rewrite (space_not_equals a Ha).
    - destruct (drop_while Py.isspace t1) as [|x t3]; [done |].
      rewrite run_seq. cbn [Re.lit]. rewrite run_seq, run_chr.
      destruct (Ascii.eqb "=" x) eqn:Ex; [|done].
      apply Ascii.eqb_eq in Ex. subst x. rewrite Ascii.eqb_refl in Ht1.
      rewrite run_eps. by apply Hafter. }
  apply run_plus_none.
  - intros a u Ha. apply Hbehind. simpl. rewrite (word_not_space a Ha).
    by rewrite Ascii.eqb_sym, (word_not_equals a Ha).
  - intros Hstart. apply Hbehind.
    destruct t as [|a u]; [done |]. simpl in Hstart.
    apply negb_false_iff in Hstart. unfold head_hit in Hhit.
    by rewrite Hstart in Hhit.
Qed.

Lemma begins_in_field tail : begins_in Py.isword (Re.seqs (Pat.field_head ++ tail)).
Proof.
  intros s H. destruct s as [|a s].
  - exfalso. apply H. reflexivity.
  - destruct (Py.isword a) eqn:Ha; [by exists a, s |].
    exfalso. apply H. unfold Re.match_here, Pat.field_head, Re.seqs, Re.plus.
    cbn [app fold_right foldr]. rewrite run_seq, run_group, run_seq, run_chr.
    by rewrite Ha.
Qed.

(** *** Scans *)

Lemma scan_unmatched_class p r junk s :
  begins_in p r -> all_chars (fun a => negb (p a)) junk = true ->
  Re.scan r (junk +:+ s) = unmatched junk ++ Re.scan r s.
Proof.
  intros Hr. induction junk as [|a junk IH]; intros Hj; [done |].
  simpl in Hj. apply andb_true_iff in Hj as [Ha Hj].
  rewrite append_cons. unfold Re.scan. cbn [String.length Re.scan_fuel].
  destruct (Re.match_here r (String a (junk +:+ s))) as [[n c]|] eqn:E.
  - destruct (Hr (String a (junk +:+ s))) as (a' & s' & Hs' & Ha');
      [by rewrite E |].
    injection Hs' as <- _. by rewrite Ha' in Ha.
  - cbn [unmatched app]. f_equal. by apply IH.
Qed.

Lemma finditer_unmatched_class p r junk s :
  begins_in p r -> all_chars (fun a => negb (p a)) junk = true ->
  Re.finditer r (junk +:+ s) = Re.finditer r s.
Proof.
  intros Hr Hj. unfold Re.finditer. rewrite (scan_unmatched_class p) by done.
  clear. induction junk as [|a junk IH]; [done | exact IH].
Qed.

Lemma has_char_drop_while ch p s :
  has_char ch s = false -> has_char ch (drop_while p s) = false.
Proof.
  induction s as [|a s IH]; [done |]. simpl. intros H.
  apply orb_false_iff in H as [Ha Hs].
  destruct (p a); [by apply IH |]. simpl. by rewrite Ha, Hs.
Qed.

Lemma drop_while_before p v x rest :
  p x = false ->
  drop_while p (v +:+ String x rest) = drop_while p v +:+ String x rest.
Proof.
  intros Hx. induction v as [|a v IH].
  - rewrite !append_empty_l. simpl. by rewrite Hx.
  - rewrite append_cons. simpl. destruct (p a); [exact IH | by rewrite append_cons].
Qed.

(** *** A field in braces *)

Lemma none_of_braces a :
  negb (Py.contains "{}" (String a "")) =
  (negb (Ascii.eqb a "{") && negb (Ascii.eqb a "}"))%bool.
Proof.
  rewrite <- negb_orb. f_equal. unfold Py.contains.
  change (String.prefix (String a "") "{}")
    with (if ascii_dec a "{" then true else false).
  change (String.prefix (String a "") "}")
    with (if ascii_dec a "}" then true else false).
  change (String.prefix (String a "") "") with false.
  destruct (ascii_dec a "{") as [->|H1]; [done |].
  destruct (ascii_dec a "}") as [->|H2]; [done |].
  apply Ascii.eqb_neq in H1, H2. by rewrite H1, H2.
Qed.

Lemma all_chars_no_brace s :
  no_brace s = true ->
  all_chars (fun a => negb (Py.contains "{}" (String a ""))) s = true.
Proof.
  unfold no_brace. induction s as [|a s IH]; [done |]. cbn [has_char all_chars].
  rewrite !negb_orb, none_of_braces. intros H.
  apply andb_true_iff in H as [H1 H2].
  apply andb_true_iff in H1 as [Ha1 Hs1]. apply andb_true_iff in H2 as [Ha2 Hs2].
  rewrite Ha1, Ha2, IH; [done |]. by rewrite Hs1, Hs2.
Qed.

Lemma stops_brace (open : bool) rest :
  stops (fun a => negb (Py.contains "{}" (String a "")))
        (String (if open then "{" else "}")%char rest) = true.
Proof. by destruct open. Qed.

Lemma stops_groups gs rest :
  stops (fun a => negb (Py.contains "{}" (String a "")))
        (groups_text gs +:+ String "}" rest) = true.
Proof. by destruct gs as [|[g v] gs]. Qed.

Lemma stops_word_spaces sp rest :
  all_chars Py.isspace sp = true ->
  stops Py.isword (sp +:+ String "=" rest) = true.
Proof.
  destruct sp as [|a sp]; [done |]. intros H. simpl in H.
  apply andb_true_iff in H as [Ha _].
  change (negb (Py.isword a) = true). by rewrite (space_not_word a Ha).
Qed.

Lemma star_groups gs rest c k x fuel :
  forallb (fun gv => no_brace gv.1 && no_brace gv.2) gs = true ->
  k (String "}" rest) c = Some x ->
  (String.length (groups_text gs +:+ String "}" rest) <= fuel)%nat ->
  star_loop true
    (Re.run (Re.seqs [Re.lit "{"; Re.star (Re.none_of "{}"); Re.lit "}";
                      Re.star (Re.none_of "{}")]))
    k fuel (groups_text gs +:+ String "}" rest) c = Some x.
Proof.
  intros Hgs Hk. revert fuel.
  induction gs as [|[g v] gs IH]; intros fuel Hfuel.
  - cbn [groups_text]. rewrite append_empty_l.
    destruct fuel as [|fuel]; [done |]. rewrite star_loop_S. cbv zeta.
    unfold Re.seqs. cbn [fold_right foldr Re.lit].
    rewrite !run_seq, run_chr. change (Ascii.eqb "{" "}") with false.
    by rewrite Hk.
  - simpl in Hgs. apply andb_true_iff in Hgs as [Hgv Hgs].
    apply andb_true_iff in Hgv as [Hg Hv].
    cbn [groups_text] in *. rewrite !append_assoc in *.
    destruct fuel as [|fuel]; [rewrite append_cons in Hfuel; simpl in Hfuel; lia |].
    rewrite star_loop_S. cbv zeta.
    assert (Re.run
              (Re.seqs [Re.lit "{"; Re.star (Re.none_of "{}"); Re.lit "}";
                        Re.star (Re.none_of "{}")])
              ("{" +:+ g +:+ "}" +:+ v +:+ groups_text gs +:+ String "}" rest) c
              (fun s' c' =>
                 if Nat.ltb (String.length s')
                      (String.length
                         ("{" +:+ g +:+ "}" +:+ v +:+ groups_text gs
                          +:+ String "}" rest))
                 then star_loop true
                        (Re.run
                           (Re.seqs [Re.lit "{"; Re.star (Re.none_of "{}");
                                     Re.lit "}"; Re.star (Re.none_of "{}")]))
                        k fuel s' c'
                 else None) = Some x) as ->; [|done].
    unfold Re.seqs at 1. cbn [fold_right foldr]. unfold Re.none_of.
    rewrite run_seq, run_lit, run_seq.
    apply run_star_greedy; [by apply all_chars_no_brace | done |].
    rewrite run_seq, run_lit, run_seq.
    apply run_star_greedy;
      [by apply all_chars_no_brace | apply stops_groups |].
    rewrite run_eps.
    replace (Nat.ltb _ _) with true.
    + apply (IH Hgs).
      rewrite !append_length in Hfuel. rewrite !append_length. simpl in *. lia.
    + symmetry. apply Nat.ltb_lt. rewrite !append_length. simpl. lia.
Qed.

(** *** More on the character classes *)

Lemma digit_is_word a : Py.isdigit a = true -> Py.isword a = true.
Proof. destruct a as [[] [] [] [] [] [] [] []]; by vm_compute. Qed.

Lemma digit_not_equals a : Py.isdigit a = true -> Ascii.eqb a "=" = false.
Proof. destruct a as [[] [] [] [] [] [] [] []]; by vm_compute. Qed.

Lemma digit_not_brace a : Py.isdigit a = true -> Ascii.eqb "{" a = false.
Proof. destruct a as [[] [] [] [] [] [] [] []]; by vm_compute. Qed.

Lemma digit_not_open a : Py.isdigit a = true -> Ascii.eqb a "{" = false.
Proof. destruct a as [[] [] [] [] [] [] [] []]; by vm_compute. Qed.

Lemma digit_not_quote a : Py.isdigit a = true -> Ascii.eqb Py.dquote a = false.
Proof. destruct a as [[] [] [] [] [] [] [] []]; by vm_compute. Qed.

Lemma space_not_brace a : Py.isspace a = true -> Ascii.eqb "{" a = false.
Proof. destruct a as [[] [] [] [] [] [] [] []]; by vm_compute. Qed.

Lemma all_chars_not_char ch s :
  has_char ch s = false ->
  all_chars (fun a => negb (Ascii.eqb a ch)) s = true.
Proof.
  induction s as [|a s IH]; [done |]. cbn [has_char all_chars]. intros H.
  apply orb_false_iff in H as [Ha Hs]. by rewrite Ha, IH.
Qed.

Lemma has_char_class p ch s :
  (forall a, p a = true -> Ascii.eqb a ch = false) ->
  all_chars p s = true -> has_char ch s = false.
Proof.
  intros Hp. induction s as [|a s IH]; [done |]. cbn [has_char all_chars].
  intros H. apply andb_true_iff in H as [Ha Hs]. by rewrite (Hp a Ha), IH.
Qed.

Lemma drop_while_stops p t : stops p t = true -> drop_while p t = t.
Proof.
  destruct t as [|a t]; [done |]. rewrite stops_cons. intros H.
  apply negb_true_iff in H. simpl. by rewrite H.
Qed.

Lemma stops_app p w t :
  w <> "" -> all_chars (fun a => negb (p a)) w = true ->
  stops p (w +:+ t) = true.
Proof.
  destruct w as [|a w]; [done |]. intros _ H. cbn [all_chars] in H.
  by apply andb_true_iff in H as [Ha _].
Qed.

(** *** Calm stretches *)

Lemma scan_calm opens tail w s :
  needs opens (Re.seqs tail) ->
  (forall a, Py.isspace a = true -> opens a = false) ->
  calm opens w s = true ->
  Re.scan (Re.seqs (Pat.field_head ++ tail)) (w +:+ s) =
  unmatched w ++ Re.scan (Re.seqs (Pat.field_head ++ tail)) s.
Proof.
  intros Hneeds Hspace. induction w as [|a w IH]; intros Hc; [done |].
  cbn [calm] in Hc. apply andb_true_iff in Hc as [Ha Hc].
  apply negb_true_iff in Ha.
  rewrite append_cons. unfold Re.scan. cbn [String.length Re.scan_fuel].
  rewrite (head_no_hit opens tail _ Hneeds Hspace Ha).
  cbn [unmatched app]. f_equal. by apply IH.
Qed.

Lemma finditer_calm opens tail w s :
  needs opens (Re.seqs tail) ->
  (forall a, Py.isspace a = true -> opens a = false) ->
  calm opens w s = true ->
  Re.finditer (Re.seqs (Pat.field_head ++ tail)) (w +:+ s) =
  Re.finditer (Re.seqs (Pat.field_head ++ tail)) s.
Proof.
  intros Hneeds Hspace Hc. unfold Re.finditer.
  rewrite (scan_calm opens) by done.
  clear. induction w as [|a w IH]; [done | exact IH].
Qed.

Lemma finditer_empty p r : begins_in p r -> Re.finditer r "" = [].
Proof.
  intros Hr. unfold Re.finditer, Re.scan. cbn [String.length Re.scan_fuel].
  destruct (Re.match_here r "") as [[n c]|] eqn:E; [|done].
  destruct (Hr "") as (a & s' & Hs & _); [by rewrite E | done].
Qed.

Lemma calm_app opens w1 w2 rest :
  calm opens (w1 +:+ w2) rest =
  (calm opens w1 (w2 +:+ rest) && calm opens w2 rest)%bool.
Proof.
  induction w1 as [|a w1 IH]; [done |].
  rewrite append_cons. cbn [calm]. by rewrite IH, append_assoc, andb_assoc.
Qed.

Lemma calm_no_word opens w rest :
  all_chars (fun a => negb (Py.isword a)) w = true -> calm opens w rest = true.
Proof.
  induction w as [|a w IH]; [done |]. cbn [all_chars calm]. intros H.
  apply andb_true_iff in H as [Ha Hw]. apply negb_true_iff in Ha.
  rewrite (IH Hw). unfold head_hit. by rewrite Ha.
Qed.

Lemma calm_spaces opens w rest :
  all_chars Py.isspace w = true -> calm opens w rest = true.
Proof.
  intros H. apply calm_no_word. apply (all_chars_impl Py.isspace); [|done].
  intros a Ha. by rewrite (space_not_word a Ha).
Qed.

(** The places of a field's name, when the value is opened by another
    character. *)
Lemma calm_name opens name sp1 sp2 x :
  all_chars Py.isword name = true ->
  all_chars Py.isspace sp1 = true -> all_chars Py.isspace sp2 = true ->
  stops Py.isspace x = true -> stops opens x = true ->
  calm opens name (sp1 +:+ "=" +:+ sp2 +:+ x) = true.
Proof.
  intros Hname Hsp1 Hsp2 Hx1 Hx2. induction name as [|a name IH]; [done |].
  pose proof Hname as Hall.
  cbn [all_chars] in Hname. apply andb_true_iff in Hname as [Ha Hname].
  cbn [calm]. rewrite (IH Hname), andb_true_r. apply negb_true_iff.
  unfold head_hit. rewrite Ha. cbn [andb].
  rewrite <- append_cons.
  rewrite (drop_while_app Py.isword) by (done || by apply stops_word_spaces).
  rewrite (drop_while_app Py.isspace) by done.
  rewrite append_cons, append_empty_l. cbv iota.
  rewrite (drop_while_app Py.isspace) by done.
  destruct x as [|y x']; [done |]. rewrite stops_cons in Hx2.
  apply negb_true_iff in Hx2. by rewrite Hx2.
Qed.

Lemma eq_free_space u rest :
  has_char "=" u = false -> eq_free rest = true -> eq_free (u +:+ rest) = true.
Proof.
  intros Hu Hrest. induction u as [|a u IH]; [done |].
  cbn [has_char] in Hu. apply orb_false_iff in Hu as [Ha Hu].
  rewrite append_cons. unfold eq_free. cbn [drop_while].
  destruct (Py.isspace a); [by apply IH |]. by rewrite Ha.
Qed.

Lemma eq_free_word u rest :
  has_char "=" u = false -> stops Py.isword rest = true ->
  eq_free rest = true ->
  eq_free (drop_while Py.isword (u +:+ rest)) = true.
Proof.
  intros Hu Hstop Hrest. induction u as [|a u IH].
  - by rewrite append_empty_l, drop_while_stops.
  - rewrite append_cons. cbn [drop_while].
    destruct (Py.isword a).
    + apply IH. cbn [has_char] in Hu. by apply orb_false_iff in Hu as [_ ?].
    + rewrite <- append_cons. by apply eq_free_space.
Qed.

Lemma head_hit_eq_free opens t :
  eq_free (drop_while Py.isword t) = true -> head_hit opens t = false.
Proof.
  unfold eq_free, head_hit. destruct t as [|a t]; [done |].
  destruct (Py.isword a); [|done]. cbn [andb].
  destruct (drop_while Py.isspace (drop_while Py.isword (String a t)))
    as [|x t3]; [done |].
  intros Hx. apply negb_true_iff in Hx. by rewrite Hx.
Qed.

(** A stretch without equals sign begins no field, when the text behind
    it begins with no word character and does not go on with an equals
    sign. *)
Lemma calm_no_equals opens v rest :
  has_char "=" v = false -> stops Py.isword rest = true ->
  eq_free rest = true -> calm opens v rest = true.
Proof.
  intros Hv Hstop Hrest. induction v as [|a v IH]; [done |].
  cbn [calm]. rewrite IH.
  - rewrite andb_true_r. apply negb_true_iff, head_hit_eq_free.
    rewrite <- append_cons. by apply eq_free_word.
  - cbn [has_char] in Hv. by apply orb_false_iff in Hv as [_ ?].
Qed.

(** *** The parts of a field *)

Lemma field_ok_parts f :
  field_ok f = true ->
  all_chars Py.isword (fi_name f) = true /\ fi_name f <> "" /\
  all_chars Py.isspace (fi_sp1 f) = true /\
  all_chars Py.isspace (fi_sp2 f) = true /\
  value_ok (fi_value f) = true /\
  all_chars (fun a => negb (Py.isword a)) (fi_after f) = true /\
  (form (fi_value f) = 2%nat ->
   fi_after f <> "" /\ has_char "=" (fi_after f) = false).
Proof.
  unfold field_ok, after_ok. intros H.
  apply andb_true_iff in H as [H Hafter].
  apply andb_true_iff in Hafter as [Hafter Hbare].
  apply andb_true_iff in H as [H Hvalue].
  apply andb_true_iff in H as [H Hsp2].
  apply andb_true_iff in H as [H Hsp1].
  apply andb_true_iff in H as [Hname Hne].
  repeat split; try done.
  - by apply nonempty_ne.
  - destruct (fi_value f); try done.
    apply andb_true_iff in Hbare as [Hb _]. by apply nonempty_ne.
  - destruct (fi_value f); try done.
    apply andb_true_iff in Hbare as [_ Hb]. by apply negb_true_iff.
Qed.

Lemma written_not_space v s :
  value_ok v = true -> stops Py.isspace (value_written v +:+ s) = true.
Proof.
  destruct v as [first gs|text|digits]; [done | done |].
  cbn [value_ok value_written]. intros H. apply andb_true_iff in H as [Hd Hne].
  destruct digits as [|a d]; [done |]. rewrite append_cons, stops_cons.
  cbn [all_chars] in Hd. apply andb_true_iff in Hd as [Ha _].
  destruct (Py.isspace a) eqn:Hs; [|done].
  by rewrite (space_not_digit a Hs) in Ha.
Qed.

Lemma calm_written opens v s :
  value_ok v = true ->
  (form v = 2%nat -> stops Py.isword s = true /\ eq_free s = true) ->
  calm opens (value_written v) s = true.
Proof.
  intros Hok Hs. destruct v as [first gs|text|digits].
  - cbn [value_ok] in Hok. apply andb_true_iff in Hok as [_ Heq].
    apply negb_true_iff in Heq. cbn [value_written].
    rewrite (calm_app _ "{"), (calm_app _ (value_text (Braced first gs))).
    rewrite (calm_no_word _ "{") by done.
    rewrite (calm_no_word _ "}") by done.
    by rewrite calm_no_equals.
  - cbn [value_ok] in Hok. apply andb_true_iff in Hok as [_ Heq].
    apply negb_true_iff in Heq. cbn [value_written].
    change (String Py.dquote (text +:+ String Py.dquote ""))
      with (String Py.dquote "" +:+ text +:+ String Py.dquote "").
    rewrite (calm_app _ (String Py.dquote "")), (calm_app _ text).
    rewrite !(calm_no_word _ (String Py.dquote "")) by done.
    by rewrite calm_no_equals.
  - cbn [value_ok] in Hok. apply andb_true_iff in Hok as [Hd _].
    destruct (Hs eq_refl) as [Hstop Hfree]. cbn [value_written].
    apply calm_no_equals; [|done | done].
    apply (has_char_class Py.isdigit); [apply digit_not_equals | done].
Qed.

Lemma match_text_ne f : field_ok f = true -> match_text f <> "".
Proof.
  intros Hok. apply field_ok_parts in Hok as (_ & Hne & _).
  unfold match_text. by destruct (fi_name f).
Qed.

Lemma eq_free_fields items :
  Forall (fun f => field_ok f = true) items ->
  eq_free (fields_text items) = true.
Proof.
  intros Hitems. destruct Hitems as [|f items Hf _]; [done |].
  apply field_ok_parts in Hf as (Hname & Hne & _).
  cbn [fields_text]. unfold field_text, match_text. rewrite !append_assoc.
  destruct (fi_name f) as [|a name]; [done |].
  cbn [all_chars] in Hname. apply andb_true_iff in Hname as [Ha _].
  rewrite append_cons. unfold eq_free. cbn [drop_while].
  rewrite (word_not_space a Ha).
  by rewrite Ascii.eqb_sym, (word_not_equals a Ha).
Qed.

(** The text behind bare digits. *)
Lemma after_bare f rest :
  field_ok f = true -> form (fi_value f) = 2%nat -> eq_free rest = true ->
  stops Py.isword (fi_after f +:+ rest) = true /\
  eq_free (fi_after f +:+ rest) = true.
Proof.
  intros Hok Hform Hrest.
  apply field_ok_parts in Hok as (_ & _ & _ & _ & _ & Hafter & Hbare).
  destruct (Hbare Hform) as [Hne Heq]. split.
  - by apply stops_app.
  - by apply eq_free_space.
Qed.

(** *** One pattern on a body of fields *)

Section Pattern.

Variable opens : ascii -> bool.
Variable tail : list Re.regex.
Variable k : nat.

Hypothesis Hneeds : needs opens (Re.seqs tail).
Hypothesis Hspace : forall a, Py.isspace a = true -> opens a = false.
Hypothesis Hother :
  forall v s, value_ok v = true -> form v <> k ->
              stops opens (value_written v +:+ s) = true.
Hypothesis Hsame :
  forall f rest, field_ok f = true -> form (fi_value f) = k ->
    Re.match_here (Re.seqs (Pat.field_head ++ tail))
                  (match_text f +:+ fi_after f +:+ rest) =
    Some (String.length (match_text f), field_match f).

Lemma calm_field f rest :
  field_ok f = true -> form (fi_value f) <> k -> eq_free rest = true ->
  calm opens (match_text f) (fi_after f +:+ rest) = true.
Proof.
  intros Hok Hform Hrest.
  pose proof (after_bare f rest Hok) as Hbare.
  apply field_ok_parts in Hok as (Hname & _ & Hsp1 & Hsp2 & Hvalue & _).
  unfold match_text.
  rewrite (calm_app _ (fi_name f)), (calm_app _ (fi_sp1 f)),
    (calm_app _ "="), (calm_app _ (fi_sp2 f)).
  rewrite !append_assoc.
  rewrite calm_name;
    [| done | done | done | by apply written_not_space | by apply Hother].
  rewrite (calm_spaces _ (fi_sp1 f)), (calm_spaces _ (fi_sp2 f)) by done.
  rewrite (calm_no_word _ "=") by done.
  rewrite calm_written; [done | done |].
  intros Hform2. by apply Hbare.
Qed.

Lemma finditer_field f rest :
  field_ok f = true -> eq_free rest = true ->
  Re.finditer (Re.seqs (Pat.field_head ++ tail)) (field_text f +:+ rest) =
  (if Nat.eqb (form (fi_value f)) k then [field_match f] else []) ++
  Re.finditer (Re.seqs (Pat.field_head ++ tail)) rest.
Proof.
  intros Hok Hrest. unfold field_text. rewrite append_assoc.
  assert (all_chars (fun a => negb (Py.isword a)) (fi_after f) = true)
    as Hafter by (by apply field_ok_parts in Hok as (_ & _ & _ & _ & _ & ? & _)).
  destruct (Nat.eqb_spec (form (fi_value f)) k) as [Hform|Hform].
  - rewrite (finditer_matched _ _ _ (field_match f));
      [| by apply match_text_ne | by apply Hsame].
    by rewrite (finditer_unmatched_class Py.isword)
      by (done || apply begins_in_field).
  - rewrite (finditer_calm opens) by (done || by apply calm_field).
    by rewrite (finditer_unmatched_class Py.isword)
      by (done || apply begins_in_field).
Qed.

Lemma finditer_fields items :
  Forall (fun f => field_ok f = true) items ->
  Re.finditer (Re.seqs (Pat.field_head ++ tail)) (fields_text items) =
  map field_match (of_form k items).
Proof.
  intros Hitems. induction Hitems as [|f items Hf Hitems IH].
  - apply (finditer_empty Py.isword), begins_in_field.
  - cbn [fields_text]. rewrite finditer_field by (done || by apply eq_free_fields).
    rewrite IH. unfold of_form. cbn [List.filter].
    by destruct (Nat.eqb (form (fi_value f)) k).
Qed.

End Pattern.

(** *** The three patterns *)

Lemma needs_brace rest :
  needs (Ascii.eqb "{") (Re.seqs (Re.lit "{" :: rest)).
Proof.
  intros s c k Hs. unfold Re.seqs. cbn [fold_right foldr Re.lit].
  rewrite !run_seq.
  destruct s as [|a s]; [done |]. rewrite run_chr. rewrite stops_cons in Hs.
  apply negb_true_iff in Hs. by rewrite Hs.
Qed.

Lemma run_head tail name sp1 sp2 x k res :
  all_chars Py.isword name = true -> name <> "" ->
  all_chars Py.isspace sp1 = true -> all_chars Py.isspace sp2 = true ->
  stops Py.isspace x = true ->
  Re.run (Re.seqs tail) x [(1%nat, name)] k = Some res ->
  Re.run (Re.seqs (Pat.field_head ++ tail))
         (name +:+ sp1 +:+ "=" +:+ sp2 +:+ x) [] k = Some res.
Proof.
  intros Hname Hne Hsp1 Hsp2 Hx Hrun.
  unfold Pat.field_head, Re.seqs. cbn [app fold_right foldr].
  fold (Re.seqs tail).
  rewrite run_seq, run_group.
  apply run_plus_greedy; [done | done | by apply stops_word_spaces |].
  rewrite consumed_app, run_seq.
  apply run_star_greedy; [done | done |].
  rewrite run_seq, run_lit, run_seq.
  by apply run_star_greedy.
Qed.

Lemma match_field tail f s :
  field_ok f = true ->
  Re.run (Re.seqs tail) (value_written (fi_value f) +:+ s)
         [(1%nat, fi_name f)] (fun s' c' => Some (s', c')) =
  Some (s, field_match f) ->
  Re.match_here (Re.seqs (Pat.field_head ++ tail)) (match_text f +:+ s) =
  Some (String.length (match_text f), field_match f).
Proof.
  intros Hok Hrun.
  apply field_ok_parts in Hok as (Hname & Hne & Hsp1 & Hsp2 & Hvalue & _).
  assert (Re.run (Re.seqs (Pat.field_head ++ tail)) (match_text f +:+ s) []
            (fun s' c' => Some (s', c')) = Some (s, field_match f)) as H.
  { unfold match_text. rewrite !append_assoc.
    apply run_head; try done. by apply written_not_space. }
  rewrite (match_here_run _ _ _ _ H). f_equal. f_equal.
  rewrite append_length. lia.
Qed.

Lemma run_braced first gs s c :
  value_ok (Braced first gs) = true ->
  Re.run (Re.seqs [Re.lit "{";
                   Re.Group 2
                     (Re.seqs [Re.star (Re.none_of "{}");
                               Re.star (Re.seqs [Re.lit "{";
                                                 Re.star (Re.none_of "{}");
                                                 Re.lit "}";
                                                 Re.star (Re.none_of "{}")])]);
                   Re.lit "}"])
         (value_written (Braced first gs) +:+ s) c
         (fun s' c' => Some (s', c')) =
  Some (s, (2%nat, value_text (Braced first gs)) :: c).
Proof.
  cbn [value_ok value_written value_text]. intros Hok.
  apply andb_true_iff in Hok as [Hok _].
  apply andb_true_iff in Hok as [Hfirst Hgs].
  rewrite !append_assoc.
  unfold Re.seqs at 1. cbn [fold_right foldr].
  rewrite run_seq, run_lit, run_seq, run_group.
  unfold Re.seqs at 1. cbn [fold_right foldr].
  rewrite run_seq. unfold Re.none_of at 1.
  apply run_star_greedy;
    [by apply all_chars_no_brace | apply stops_groups |].
  rewrite run_seq. unfold Re.star at 1. rewrite run_star.
  apply (star_groups gs s); [done | | done].
  change (String "}" s) with ("}" +:+ s).
  rewrite run_eps, run_seq, run_lit, run_eps.
  rewrite <- (append_assoc first). by rewrite consumed_app.
Qed.

Lemma run_quoted text s c :
  value_ok (Quoted text) = true ->
  Re.run (Re.seqs [Re.Chr (Ascii.eqb Py.dquote);
                   Re.Group 2
                     (Re.star (Re.Chr (fun a => negb (Ascii.eqb a Py.dquote))));
                   Re.Chr (Ascii.eqb Py.dquote)])
         (value_written (Quoted text) +:+ s) c
         (fun s' c' => Some (s', c')) =
  Some (s, (2%nat, value_text (Quoted text)) :: c).
Proof.
  cbn [value_ok value_written value_text]. intros Hok.
  apply andb_true_iff in Hok as [Hq _]. apply negb_true_iff in Hq.
  rewrite append_cons, append_assoc.
  change (String Py.dquote "" +:+ s) with (String Py.dquote s).
  unfold Re.seqs. cbn [fold_right foldr].
  rewrite run_seq, run_chr, Ascii.eqb_refl, run_seq, run_group.
  apply run_star_greedy;
    [by apply all_chars_not_char | by rewrite stops_cons, Ascii.eqb_refl |].
  by rewrite run_seq, run_chr, Ascii.eqb_refl, run_eps, consumed_app.
Qed.

Lemma run_bare digits s c :
  value_ok (Bare digits) = true -> stops Py.isdigit s = true ->
  Re.run (Re.seqs [Re.Group 2 (Re.plus (Re.Chr Py.isdigit))])
         (value_written (Bare digits) +:+ s) c
         (fun s' c' => Some (s', c')) =
  Some (s, (2%nat, value_text (Bare digits)) :: c).
Proof.
  cbn [value_ok value_written value_text]. intros Hok Hs.
  apply andb_true_iff in Hok as [Hd Hne]. apply nonempty_ne in Hne.
  unfold Re.seqs. cbn [fold_right foldr].
  rewrite run_seq, run_group.
  apply run_plus_greedy; [done | done | done |].
  by rewrite run_eps, consumed_app.
Qed.

Lemma stops_bare v s :
  value_ok v = true -> form v = 2%nat ->
  forall p, (forall a, Py.isdigit a = true -> p a = false) ->
            stops p (value_written v +:+ s) = true.
Proof.
  destruct v as [first gs|text|digits]; [done | done |].
  cbn [value_ok value_written]. intros H _ p Hp.
  apply andb_true_iff in H as [Hd Hne].
  destruct digits as [|a d]; [done |]. rewrite append_cons, stops_cons.
  cbn [all_chars] in Hd. apply andb_true_iff in Hd as [Ha _].
  by rewrite (Hp a Ha).
Qed.

Lemma finditer_braced_fields items :
  Forall (fun f => field_ok f = true) items ->
  Re.finditer Pat.field_braced (fields_text items) =
  map field_match (of_form 0 items).
Proof.
  unfold Pat.field_braced. apply (finditer_fields (Ascii.eqb "{")).
  - apply needs_brace.
  - apply space_not_brace.
  - intros v s Hok Hform. destruct v as [first gs|text|digits]; [done | done |].
    apply stops_bare; [done | done | apply digit_not_brace].
  - intros f rest Hok Hform. apply match_field; [done |].
    apply field_ok_parts in Hok as (_ & _ & _ & _ & Hvalue & _).
    destruct (fi_value f) as [first gs|text|digits] eqn:Ev; try done.
    unfold field_match. rewrite Ev. by apply run_braced.
Qed.

Lemma finditer_quoted_fields items :
  Forall (fun f => field_ok f = true) items ->
  Re.finditer Pat.field_quoted (fields_text items) =
  map field_match (of_form 1 items).
Proof.
  unfold Pat.field_quoted. apply (finditer_fields (Ascii.eqb Py.dquote)).
  - apply needs_quote.
  - apply space_not_quote.
  - intros v s Hok Hform. destruct v as [first gs|text|digits]; [done | done |].
    apply stops_bare; [done | done | apply digit_not_quote].
  - intros f rest Hok Hform. apply match_field; [done |].
    apply field_ok_parts in Hok as (_ & _ & _ & _ & Hvalue & _).
    destruct (fi_value f) as [first gs|text|digits] eqn:Ev; try done.
    unfold field_match. rewrite Ev. by apply run_quoted.
Qed.

Lemma finditer_bare_fields items :
  Forall (fun f => field_ok f = true) items ->
  Re.finditer Pat.field_number (fields_text items) =
  map field_match (of_form 2 items).
Proof.
  unfold Pat.field_number. apply (finditer_fields Py.isdigit).
  - apply needs_digit.
  - apply space_not_digit.
  - intros v s Hok Hform. by destruct v as [first gs|text|digits].
  - intros f rest Hok Hform. apply match_field; [done |].
    pose proof Hok as Hparts.
    apply field_ok_parts in Hparts as (_ & _ & _ & _ & Hvalue & Hafter & Hbare).
    destruct (Hbare Hform) as [Hne _].
    destruct (fi_value f) as [first gs|text|digits] eqn:Ev; try done.
    unfold field_match. rewrite Ev. apply run_bare; [done |].
    apply stops_app; [done |].
    apply (all_chars_impl (fun a => negb (Py.isword a))); [|done].
    intros a Ha. destruct (Py.isdigit a) eqn:Hd; [|done].
    by rewrite (digit_is_word a Hd) in Ha.
Qed.

(** *** The field mapping *)

Lemma fold_field_matches (items : list field_item) (fields : gmap string string) :
  fold_left
    (fun fields field_match =>
       let field_name := Py.lower (Re.group 1 field_match) in
       let field_value := Pat.unbrace (Re.group 2 field_match) in
       <[field_name := Py.strip field_value]> fields)
    (map field_match items) fields =
  fold_left store items fields.
Proof.
  revert fields. induction items as [|f items IH]; intros fields; [done |].
  cbn [map fold_left]. by rewrite IH.
Qed.

Lemma parse_fields_text (lead : string) (items : list field_item) :
  all_chars (fun a => negb (Py.isword a)) lead = true ->
  Forall (fun f => field_ok f = true) items ->
  parse_fields (lead +:+ fields_text items) = fields_of items.
Proof.
  intros Hlead Hitems. unfold parse_fields, Pat.field_patterns.
  cbn [fold_left].
  unfold Pat.field_braced at 1, Pat.field_quoted at 1, Pat.field_number at 1.
  rewrite !(finditer_unmatched_class Py.isword)
    by (done || apply begins_in_field).
  fold Pat.field_braced Pat.field_quoted Pat.field_number.
  rewrite finditer_braced_fields, finditer_quoted_fields,
    finditer_bare_fields by done.
  by rewrite !fold_field_matches.
Qed.

Lemma fold_store_other (items : list field_item) (fields : gmap string string)
    (name : string) :
  Forall (fun g => Py.lower (fi_name g) <> name) items ->
  fold_left store items fields !! name = fields !! name.
Proof.
  intros Hitems. revert fields.
  induction Hitems as [|g items Hg _ IH]; intros fields; [done |].
  cbn [fold_left]. rewrite IH. unfold store. by rewrite lookup_insert_ne.
Qed.

Lemma fold_store_last (l1 l2 : list field_item) (f : field_item)
    (fields : gmap string string) :
  Forall (fun g => Py.lower (fi_name g) <> Py.lower (fi_name f)) l2 ->
  fold_left store (l1 ++ f :: l2) fields !! Py.lower (fi_name f) =
  Some (Py.strip (Pat.unbrace (value_text (fi_value f)))).
Proof.
  intros Hl2. rewrite fold_left_app. cbn [fold_left].
  rewrite fold_store_other by done. unfold store. by rewrite lookup_insert_eq.
Qed.

Lemma of_form_app k l1 l2 : of_form k (l1 ++ l2) = of_form k l1 ++ of_form k l2.
Proof. unfold of_form. apply List.filter_app. Qed.

Lemma of_form_Forall k (P : field_item -> Prop) items :
  Forall (fun g => form (fi_value g) = k -> P g) items ->
  Forall P (of_form k items).
Proof.
  intros H. induction H as [|g items Hg _ IH]; [constructor |].
  unfold of_form. cbn [List.filter].
  destruct (Nat.eqb_spec (form (fi_value g)) k) as [E|E]; [|exact IH].
  constructor; [by apply Hg | exact IH].
Qed.

Lemma bare_value_stored digits :
  value_ok (Bare digits) = true ->
  Py.strip (Pat.unbrace digits) = digits.
Proof.
  cbn [value_ok]. intros H. apply andb_true_iff in H as [Hd _].
  unfold Pat.unbrace. rewrite (sub_no_char "{").
  - apply strip_no_space. apply (all_chars_impl Py.isdigit); [|done].
    intros a Ha. destruct (Py.isspace a) eqn:Hs; [|done].
    by rewrite (space_not_digit a Hs) in Ha.
  - apply begins_with_braces.
  - apply (has_char_class Py.isdigit); [apply digit_not_open | done].
Qed.

(** *** Which field of a name is kept *)

Lemma form_le_2 v : (form v <= 2)%nat.
Proof. destruct v; simpl; lia. Qed.

Lemma stage_other k items (fields : gmap string string) name :
  Forall (fun g => form (fi_value g) = k -> Py.lower (fi_name g) <> name) items ->
  fold_left store (of_form k items) fields !! name = fields !! name.
Proof. intros H. apply fold_store_other. by apply of_form_Forall. Qed.

Lemma stage_last k before behind f (fields : gmap string string) :
  form (fi_value f) = k ->
  Forall (fun g => form (fi_value g) = k ->
                   Py.lower (fi_name g) <> Py.lower (fi_name f)) behind ->
  fold_left store (of_form k (before ++ f :: behind)) fields
    !! Py.lower (fi_name f) =
  Some (Py.strip (Pat.unbrace (value_text (fi_value f)))).
Proof.
  intros <- Hbehind. rewrite of_form_app. unfold of_form at 2.
  cbn [List.filter]. rewrite Nat.eqb_refl.
  fold (of_form (form (fi_value f)) behind).
  apply fold_store_last. by apply of_form_Forall.
Qed.

Lemma field_lookup (lead : string) (before behind : list field_item)
    (f : field_item) :
  all_chars (fun a => negb (Py.isword a)) lead = true ->
  Forall (fun g => field_ok g = true) (before ++ f :: behind) ->
  Forall (fun g => Py.lower (fi_name g) = Py.lower (fi_name f) ->
                   (form (fi_value g) <= form (fi_value f))%nat) before ->
  Forall (fun g => Py.lower (fi_name g) = Py.lower (fi_name f) ->
                   (form (fi_value g) < form (fi_value f))%nat) behind ->
  parse_fields (lead +:+ fields_text (before ++ f :: behind))
    !! Py.lower (fi_name f) =
  Some (Py.strip (Pat.unbrace (value_text (fi_value f)))).
Proof.
  intros Hlead Hitems Hbefore Hbehind.
  rewrite parse_fields_text by done. unfold fields_of.
  assert (forall k, (form (fi_value f) < k)%nat ->
            Forall (fun g => form (fi_value g) = k ->
                             Py.lower (fi_name g) <> Py.lower (fi_name f))
                   (before ++ f :: behind)) as Hhigher.
  { intros k Hk. apply Forall_app. split; [|apply Forall_cons; split].
    - eapply Forall_impl; [exact Hbefore |].
      intros g Hg Hform Hname. specialize (Hg Hname). lia.
    - intros Hform. lia.
    - eapply Forall_impl; [exact Hbehind |].
      intros g Hg Hform Hname. specialize (Hg Hname). lia. }
  assert (Forall (fun g => form (fi_value g) = form (fi_value f) ->
                           Py.lower (fi_name g) <> Py.lower (fi_name f))
                 behind) as Hsame.
  { eapply Forall_impl; [exact Hbehind |].
    intros g Hg Hform Hname. specialize (Hg Hname). lia. }
  pose proof (form_le_2 (fi_value f)) as Hle.
  destruct (form (fi_value f)) as [|[|[|?]]] eqn:Ef; [| | | lia].
  - rewrite (stage_other 2), (stage_other 1) by (apply Hhigher; lia).
    by apply stage_last.
  - rewrite (stage_other 2) by (apply Hhigher; lia). by apply stage_last.
  - by apply stage_last.
Qed.

Lemma bare_year_stored (lead : string) (before behind : list field_item)
    (f : field_item) (digits : string) :
  all_chars (fun a => negb (Py.isword a)) lead = true ->
  Forall (fun g => field_ok g = true) (before ++ f :: behind) ->
  Py.lower (fi_name f) = "year" ->
  fi_value f = Bare digits ->
  Forall (fun g => Py.lower (fi_name g) = "year" ->
                   (form (fi_value g) < 2)%nat) behind ->
  parse_fields (lead +:+ fields_text (before ++ f :: behind)) !! "year" =
  Some digits.
Proof.
  intros Hlead Hitems Hname Hvalue Hbehind.
  rewrite <- Hname. rewrite field_lookup; [| done | done | |].
  - rewrite Hvalue. cbn [value_text]. f_equal. apply bare_value_stored.
    apply Forall_app in Hitems as [_ Hitems].
    apply Forall_cons in Hitems as [Hf _].
    apply field_ok_parts in Hf as (_ & _ & _ & _ & Hok & _).
    by rewrite Hvalue in Hok.
  - apply Forall_forall. intros g _ _. rewrite Hvalue. apply form_le_2.
  - rewrite Hname, Hvalue. exact Hbehind.
Qed.

Lemma bare_year (lead : string) (before behind : list field_item)
    (f : field_item) (n : Z) :
  all_chars (fun a => negb (Py.isword a)) lead = true ->
  Forall (fun g => field_ok g = true) (before ++ f :: behind) ->
  Py.lower (fi_name f) = "year" ->
  fi_value f = Bare (Py.str_of_int n) ->
  Forall (fun g => Py.lower (fi_name g) = "year" ->
                   (form (fi_value g) < 2)%nat) behind ->
  ((Py.count_digits (Py.str_of_int n) <= Py.max_str_digits)%N ->
   year_of (parse_fields (lead +:+ fields_text (before ++ f :: behind))) = n) /\
  ((Py.max_str_digits < Py.count_digits (Py.str_of_int n))%N ->
   year_of (parse_fields (lead +:+ fields_text (before ++ f :: behind))) = 0%Z).
Proof.
  intros Hlead Hitems Hname Hvalue Hbehind.
  pose proof (bare_year_stored lead before behind f _
                Hlead Hitems Hname Hvalue Hbehind) as Hyear.
  split; intros Hdigits;
    [by apply year_of_str | by apply (year_of_str_beyond _ n)].
Qed.

(** *** From the text of one entry to the stored entry *)

Lemma single_entry (bibtexparser_load : string -> list (gmap string string))
    (file_path junk type key lead : string)
    (before behind : list field_item) (f : field_item) (n : Z) :
  has_char "@" junk = false ->
  entry_ok (type, key, lead +:+ fields_text (before ++ f :: behind)) = true ->
  has_char "%"
    (junk +:+ bib_text [(type, key,
                         lead +:+ fields_text (before ++ f :: behind))]) = false ->
  all_chars (fun a => negb (Py.isword a)) lead = true ->
  Forall (fun g => field_ok g = true) (before ++ f :: behind) ->
  Py.lower (fi_name f) = "year" ->
  fi_value f = Bare (Py.str_of_int n) ->
  Forall (fun g => Py.lower (fi_name g) = "year" ->
                   (form (fi_value g) < 2)%nat) behind ->
  parse_bibtex false bibtexparser_load file_path
    (Some (junk +:+ bib_text [(type, key,
                               lead +:+ fields_text (before ++ f :: behind))])) =
  ([], if ((2022 <=? n)%Z &&
           (Py.count_digits (Py.str_of_int n) <=? Py.max_str_digits)%N)%bool
       then [(Py.strip key,
              mkEntry (Py.lower type) (Py.strip key) n
                      (fields_of (before ++ f :: behind)))]
       else []).
Proof.
  intros Hjunk Hentry Hcomment Hlead Hitems Hname Hvalue Hbehind.
  unfold parse_bibtex, bib_records.
  rewrite fallback_records_bib_text by (done || by repeat constructor).
  cbn [map add_records fold_left fst snd]. unfold add_entry. cbv zeta.
  destruct (bare_year lead before behind f n Hlead Hitems Hname Hvalue Hbehind)
    as [Hwithin Hbeyond].
  destruct (N.leb_spec (Py.count_digits (Py.str_of_int n)) Py.max_str_digits)
    as [Hdigits|Hdigits].
  - rewrite (Hwithin Hdigits), andb_true_r.
    rewrite parse_fields_text by done. by destruct (2022 <=? n)%Z.
  - rewrite (Hbeyond Hdigits), andb_false_r. done.
Qed.

(** ** The fields of an entry in fallback mode (X17 to X20) *)

(** X17: in fallback mode, take an entry body that is a stretch without
    word character followed by fields, each field being a name that is
    not empty and made of word characters, white space, an equals sign,
    white space, a value, and a stretch without word character.  The
    value is written in one of three forms: in braces, with no brace
    inside but those of groups that hold no brace themselves, and with
    no equals sign; in double quotes, with no double quote and no equals
    sign inside; or as bare digits, at least one, and then the stretch
    behind the value is not empty and has no equals sign.  Such a body is
    parsed into the mapping that stores first the fields in braces, then
    the fields in quotes, then the bare numbers, each group in the order
    of the text: every name in lower case with its value, one level of
    braces removed and the white space around it stripped. *)
Theorem fields_text_parsed (lead : string) (items : list field_item) :
  all_chars (fun a => negb (Py.isword a)) lead = true ->
  Forall (fun f => field_ok f = true) items ->
  parse_fields (lead +:+ fields_text items) = fields_of items.
Proof. apply parse_fields_text. Qed.

Lemma fields_text_parsed_witness :
  parse_fields ThreeForms.body = fields_of ThreeForms.items.
Proof.
  apply (fields_text_parsed ThreeForms.lead ThreeForms.items).
  - reflexivity.
  - unfold ThreeForms.items. repeat constructor.
Defined.

(** X18: in a body made, as for X17, of a stretch without word character
    and of fields that satisfy [field_ok] (names of word characters,
    values in one of the three forms and without equals sign, stretches
    without word character behind them, not empty and without equals
    sign behind a bare number), of the fields that have one name, up to
    case, the mapping holds the last one of the highest form, a bare
    number counting more than a value in quotes and a value in quotes
    more than one in braces, wherever the others stand in the text. *)
Theorem last_field_of_highest_form_kept (lead : string)
    (before behind : list field_item) (f : field_item) :
  all_chars (fun a => negb (Py.isword a)) lead = true ->
  Forall (fun g => field_ok g = true) (before ++ f :: behind) ->
  Forall (fun g => Py.lower (fi_name g) = Py.lower (fi_name f) ->
                   (form (fi_value g) <= form (fi_value f))%nat) before ->
  Forall (fun g => Py.lower (fi_name g) = Py.lower (fi_name f) ->
                   (form (fi_value g) < form (fi_value f))%nat) behind ->
  parse_fields (lead +:+ fields_text (before ++ f :: behind))
    !! Py.lower (fi_name f) =
  Some (Py.strip (Pat.unbrace (value_text (fi_value f)))).
Proof. apply field_lookup. Qed.

Lemma last_field_of_highest_form_kept_witness :
  parse_fields ThreeForms.body !! Py.lower "YEAR" =
  Some (Py.strip (Pat.unbrace "2023")).
Proof.
  apply (last_field_of_highest_form_kept ThreeForms.lead [ThreeForms.title]
           [ThreeForms.author; ThreeForms.second_year] ThreeForms.year).
  - reflexivity.
  - repeat constructor.
  - repeat constructor.
  - repeat constructor.
Defined.

(** X19: in a body made, as for X17, of a stretch without word character
    and of fields that satisfy [field_ok] (in particular no value holds
    an equals sign), when the last bare number that is named year, up to
    case, is the decimal numeral of [n], the year of the entry is [n] if
    the numeral has no more digits than Python converts, 4300, and 0 if
    it has more, whatever years the body gives in braces or in quotes. *)
Theorem bare_year_read (lead : string) (before behind : list field_item)
    (f : field_item) (n : Z) :
  all_chars (fun a => negb (Py.isword a)) lead = true ->
  Forall (fun g => field_ok g = true) (before ++ f :: behind) ->
  Py.lower (fi_name f) = "year" ->
  fi_value f = Bare (Py.str_of_int n) ->
  Forall (fun g => Py.lower (fi_name g) = "year" ->
                   (form (fi_value g) < 2)%nat) behind ->
  ((Py.count_digits (Py.str_of_int n) <= Py.max_str_digits)%N ->
   year_of (parse_fields (lead +:+ fields_text (before ++ f :: behind))) = n) /\
  ((Py.max_str_digits < Py.count_digits (Py.str_of_int n))%N ->
   year_of (parse_fields (lead +:+ fields_text (before ++ f :: behind))) = 0%Z).
Proof. apply bare_year. Qed.

Lemma bare_year_read_witness :
  year_of (parse_fields ThreeForms.body) = 2023%Z.
Proof.
  apply (bare_year_read ThreeForms.lead [ThreeForms.title]
           [ThreeForms.author; ThreeForms.second_year] ThreeForms.year 2023).
  - reflexivity.
  - repeat constructor.
  - reflexivity.
  - reflexivity.
  - repeat constructor.
  - by vm_compute.
Defined.

(** X20: in fallback mode, take a bibliography text without percent sign
    that is one entry (an at sign, a type of word characters, an opening
    brace, a key without comma, a comma, and a body without at sign)
    behind a stretch without at sign, the body being made, as for X17, of
    a stretch without word character and of fields that satisfy
    [field_ok], and its last bare number named year being the decimal
    numeral of [n].  The mapping holds that one entry when [n] is 2022 or
    later and the numeral has no more than 4300 digits, and is empty
    otherwise: the entry stands under its stripped key, with the type in
    lower case, the year [n] and the field mapping of the body. *)
Theorem single_entry_stored
    (bibtexparser_load : string -> list (gmap string string))
    (file_path junk type key lead : string)
    (before behind : list field_item) (f : field_item) (n : Z) :
  has_char "@" junk = false ->
  entry_ok (type, key, lead +:+ fields_text (before ++ f :: behind)) = true ->
  has_char "%"
    (junk +:+ bib_text [(type, key,
                         lead +:+ fields_text (before ++ f :: behind))]) = false ->
  all_chars (fun a => negb (Py.isword a)) lead = true ->
  Forall (fun g => field_ok g = true) (before ++ f :: behind) ->
  Py.lower (fi_name f) = "year" ->
  fi_value f = Bare (Py.str_of_int n) ->
  Forall (fun g => Py.lower (fi_name g) = "year" ->
                   (form (fi_value g) < 2)%nat) behind ->
  parse_bibtex false bibtexparser_load file_path
    (Some (junk +:+ bib_text [(type, key,
                               lead +:+ fields_text (before ++ f :: behind))])) =
  ([], if ((2022 <=? n)%Z &&
           (Py.count_digits (Py.str_of_int n) <=? Py.max_str_digits)%N)%bool
       then [(Py.strip key,
              mkEntry (Py.lower type) (Py.strip key) n
                      (fields_of (before ++ f :: behind)))]
       else []).
Proof. apply single_entry. Qed.

Lemma single_entry_stored_witness :
  parse_bibtex false (fun _ => []) "citations.bib"
    (Some (String Py.newline "" +:+
           bib_text [("InProceedings", " doe2023 ", ThreeForms.body)])) =
  ([], [("doe2023",
         mkEntry "inproceedings" "doe2023" 2023
                 (fields_of ThreeForms.items))]).
Proof.
  apply (single_entry_stored (fun _ => []) "citations.bib"
           (String Py.newline "") "InProceedings" " doe2023 "
           ThreeForms.lead [ThreeForms.title]
           [ThreeForms.author; ThreeForms.second_year] ThreeForms.year 2023).
  - reflexivity.
  - reflexivity.
  - reflexivity.
  - reflexivity.
  - repeat constructor.
  - reflexivity.
  - reflexivity.
  - repeat constructor.
Defined.

(** A value with an equals sign is outside these bodies: the patterns are
    searched through the whole body, inside values too, so that a field
    written inside a value is stored as well. *)
Example field_inside_a_value :
  parse_fields " url = {http://x/?a=1}, year = 2023, note = {year = 1999}" =
  {[ "url" := "http://x/?a=1"; "note" := "year = 1999"; "a" := "1";
     "year" := "1999" ]}.
Proof. by vm_compute. Qed.

(** *** Comments *)

Lemma has_char_app ch s t :
  has_char ch (s +:+ t) = (has_char ch s || has_char ch t)%bool.
Proof.
  induction s as [|a s IH]; [done |]. rewrite append_cons. cbn [has_char].
  by rewrite IH, orb_assoc.
Qed.

Lemma match_comment (c rest : string) :
  has_char Py.newline c = false ->
  stops (fun a => negb (Ascii.eqb a Py.newline)) rest = true ->
  Re.match_here Pat.comment (("%" +:+ c) +:+ rest) =
  Some (String.length ("%" +:+ c), []).
Proof.
  intros Hc Hrest.
  assert (Re.run Pat.comment (("%" +:+ c) +:+ rest) []
            (fun s' c' => Some (s', c')) = Some (rest, [])) as Hrun.
  { rewrite append_assoc. unfold Pat.comment, Re.seqs. cbn [fold_right foldr].
    rewrite run_seq, run_lit, run_seq.
    apply run_star_greedy; [by apply all_chars_not_char | done |].
    rewrite run_seq. destruct rest as [|a rest]; [done |].
    rewrite stops_cons in Hrest. apply negb_true_iff, negb_false_iff in Hrest.
    cbn [Re.run]. by rewrite Hrest. }
  rewrite (match_here_run _ _ _ _ Hrun). f_equal. f_equal.
  rewrite append_length. lia.
Qed.

Lemma uncommented_no_percent items tail :
  Forall (fun item => comment_ok item = true) items ->
  has_char "%" tail = false ->
  has_char "%" (uncommented_text items tail) = false.
Proof.
  intros Hitems Htail. induction Hitems as [|[code c] items Hitem _ IH]; [done |].
  cbn [uncommented_text]. unfold comment_ok in Hitem.
  apply andb_true_iff in Hitem as [Hcode _]. apply negb_true_iff in Hcode.
  simpl in Hcode. rewrite has_char_app, Hcode. cbn [has_char orb].
  by rewrite IH.
Qed.

Lemma sub_commented_text items tail last :
  Forall (fun item => comment_ok item = true) items ->
  has_char "%" tail = false ->
  match last with Some c => has_char Py.newline c = false | None => True end ->
  Re.sub Pat.comment (fun _ => EmptyString) (commented_text items tail last) =
  uncommented_text items tail.
Proof.
  intros Hitems Htail Hlast.
  induction Hitems as [|[code c] items Hitem _ IH].
  - cbn [commented_text uncommented_text]. destruct last as [c|].
    + unfold Re.sub.
      rewrite (scan_unmatched "%") by (done || apply begins_with_comment).
      rewrite <- (append_empty_r ("%" +:+ c)).
      rewrite (scan_matched _ _ _ []); [| done | by apply match_comment].
      rewrite sub_pieces_unmatched. cbn [Re.sub_pieces].
      rewrite append_empty_l.
      rewrite <- (append_empty_r tail) at 2. by f_equal.
    + rewrite append_empty_r.
      by apply (sub_no_char "%"); [apply begins_with_comment |].
  - cbn [commented_text uncommented_text]. unfold comment_ok in Hitem.
    apply andb_true_iff in Hitem as [Hcode Hc].
    apply negb_true_iff in Hcode, Hc. simpl in Hcode, Hc.
    unfold Re.sub in *.
    rewrite (scan_unmatched "%") by (done || apply begins_with_comment).
    rewrite (scan_matched _ _ _ []);
      [| done | apply match_comment; [done |];
                by rewrite stops_cons, Ascii.eqb_refl].
    rewrite sub_pieces_unmatched. cbn [Re.sub_pieces].
    rewrite append_empty_l. f_equal.
    change (String Py.newline (commented_text items tail last))
      with (String Py.newline "" +:+ commented_text items tail last).
    rewrite (scan_unmatched "%") by (done || apply begins_with_comment).
    rewrite sub_pieces_unmatched. by rewrite IH.
Qed.

Lemma fallback_records_commented items tail last :
  Forall (fun item => comment_ok item = true) items ->
  has_char "%" tail = false ->
  match last with Some c => has_char Py.newline c = false | None => True end ->
  fallback_records (commented_text items tail last) =
  fallback_records (uncommented_text items tail).
Proof.
  intros Hitems Htail Hlast. unfold fallback_records.
  rewrite sub_commented_text by done.
  rewrite (sub_no_char "%" _ _ (uncommented_text items tail));
    [done | apply begins_with_comment | by apply uncommented_no_percent].
Qed.

(** ** Comments in a bibliography (X21) *)

(** X21: in fallback mode, every stretch of the bibliography text from a
    percent sign to the end of its line is taken away before the entries
    are searched, the end of the line staying; so the records and the
    entries of a text are those of the text without its comments, wherever
    the percent signs stand, be it inside the value of a field. *)
Theorem comments_are_ignored
    (bibtexparser_load : string -> list (gmap string string))
    (file_path : string) (items : list (string * string)) (tail : string)
    (last : option string) :
  Forall (fun item => comment_ok item = true) items ->
  has_char "%" tail = false ->
  match last with Some c => has_char Py.newline c = false | None => True end ->
  Re.sub Pat.comment (fun _ => EmptyString) (commented_text items tail last) =
    uncommented_text items tail /\
  fallback_records (commented_text items tail last) =
    fallback_records (uncommented_text items tail) /\
  parse_bibtex false bibtexparser_load file_path
    (Some (commented_text items tail last)) =
  parse_bibtex false bibtexparser_load file_path
    (Some (uncommented_text items tail)).
Proof.
  intros Hitems Htail Hlast. split; [by apply sub_commented_text |].
  pose proof (fallback_records_commented items tail last Hitems Htail Hlast)
    as Hrecords.
  split; [done |]. unfold parse_bibtex, bib_records. by rewrite Hrecords.
Qed.

Lemma comments_are_ignored_witness :
  map (fun r => r.1.2) (fallback_records Commented.bib) = ["k1"; "k2"].
Proof.
  destruct (comments_are_ignored (fun _ => []) "citations.bib"
              Commented.items "" (Some " the end")) as (_ & Hrecords & _).
  - repeat constructor.
  - reflexivity.
  - reflexivity.
  - unfold Commented.bib. rewrite Hrecords. by vm_compute.
Defined.
